(** * Cert Quest: the simulation core of [game.js], embedded in Rocq

    The game is one script whose top-level [let]/[const] bindings are its
    whole state, mutated by the frame callback [gameLoop], the two keyboard
    handlers and the two button handlers.  The embedding keeps that shape:

    - a JavaScript number is a rational ([Q]), and the script is given
      twice.  In the first version [+], [-], [*] and [/] are the exact
      operations of [Q]: the invariants of the game, on bounds, counters
      and shapes, are stated on it.  In the second, [Double], the same
      functions use the operations of IEEE 754 double precision, the exact
      result rounded to the nearest double ([fl]): what depends on the
      tick at which a sum of elapsed times reaches a threshold, and the
      score, are stated on it.  Comparisons, [Math.min], [Math.max],
      [Math.round] and [Math.floor] are exact in both.  [NaN], the
      infinities and the sign of zero are outside the model;
    - the global objects are records, one module per object so that fields
      keep their source names ([Player.x], [Item.vy], ...), gathered in the
      record [World];
    - a function that mutates globals is a function [World -> World]; one
      that can let an exception escape returns a [Result];
    - what the script takes from the page and the browser is the class
      [Host]: the canvas dimensions, and the values of [Math.random()] as a
      sequence indexed by the number of draws made so far.  The draws meant
      are those of the game logic: [drawBackground] also calls
      [Math.random()], for the lit windows, and what it gets goes to the
      canvas only; a run of the page is a run of the model on the values
      the game logic received, and every property below holds for every
      such sequence;
    - drawing and [requestAnimationFrame] write to the page only and are
      left out; the two overlay screens and the final score line are kept
      because [endGame] and [startGame] set them;
    - [updateHud] reads the state and writes the display, which the script
      never reads back: it is a function from the state to what it writes,
      [Hud.t], and its calls are left out of the functions on [World];
    - the state [endGameCalls] is a ghost counter: it records how often
      [endGame] ran in the current session and is read by no function. *)

From Stdlib Require Import QArith Qminmax Qround Qabs Qpower Qreduction.
From Stdlib Require Import Lqa Lia ZArith Bool String.
From stdpp Require Import base list.

Local Open Scope Q_scope.

(** ** JavaScript numbers and values *)

Definition Qlt_bool (x y : Q) : bool := negb (Qle_bool y x).

Declare Scope js_scope.
Delimit Scope js_scope with js.
Notation "x <? y" := (Qlt_bool x y) (at level 70, no associativity) : js_scope.
Notation "x <=? y" := (Qle_bool x y) (at level 70, no associativity) : js_scope.
Notation "x >? y" := (Qlt_bool y x) (at level 70, no associativity) : js_scope.
Notation "x >=? y" := (Qle_bool y x) (at level 70, no associativity) : js_scope.

(** [Math.round]: the nearest integer, ties towards plus infinity. *)
Definition Math_round (x : Q) : Q := inject_Z (Qfloor (x + (1 # 2))).

Definition Math_floor (x : Q) : Q := inject_Z (Qfloor x).

(** The values [computeScore] can be called with from outside. *)
Inductive JsValue : Type :=
  | JsUndefined
  | JsNull
  | JsBoolean (b : bool)
  | JsNumber (n : Q)
  | JsString (s : string)
  | JsObject.

Definition typeof (v : JsValue) : string :=
  match v with
  | JsUndefined => "undefined"
  | JsNull => "object"
  | JsBoolean _ => "boolean"
  | JsNumber _ => "number"
  | JsString _ => "string"
  | JsObject => "object"
  end.

(** The outcome of evaluating an expression: a value, or
    [throw new Error(msg)]. *)
Inductive Completion (A : Type) : Type :=
  | Returns (a : A)
  | Throws (msg : string).
Arguments Returns {A} a.
Arguments Throws {A} msg.

(** ** Constants *)

Inductive GameState : Type := START | PLAYING | GAME_OVER.

Inductive ItemType : Type := KNOWLEDGE | MISTAKE | ASSESSMENT.

Definition PLAYER_WIDTH : Q := 32.
Definition PLAYER_HEIGHT : Q := 52.
Definition PLAYER_SPEED : Q := 220.
Definition JUMP_VELOCITY : Q := -420.
Definition GRAVITY : Q := 1100.

Definition KNOWLEDGE_PICKUP_AMOUNT : Q := 10.
Definition KNOWLEDGE_EROSION_STEP : Q := 5.
Definition KNOWLEDGE_EROSION_INTERVAL_MS : Q := 3000.
Definition KNOWLEDGE_MIN : Q := 0.
Definition KNOWLEDGE_MAX : Q := 100.
Definition KNOWLEDGE_WARNING_THRESHOLD : Q := 30.

Definition MAX_MISTAKES : Q := 5.

Definition PATIENT_VISIBLE_MS : Q := 8000.
Definition PATIENT_GAP_MS : Q := 2000.
Definition PATIENT_TREAT_DURATION_MS : Q := 2000.

Definition ITEM_SPAWN_INTERVAL_MIN_MS : Q := 900.
Definition ITEM_SPAWN_INTERVAL_MAX_MS : Q := 1800.

Definition GROUND_MISTAKE_DURATION_MS : Q := 2000.
Definition GROUND_MISTAKE_SPAWN_INTERVAL_MIN_MS : Q := 2400.
Definition GROUND_MISTAKE_SPAWN_INTERVAL_MAX_MS : Q := 5600.

(** ** Pure helpers *)

(** [toNumber] reads the number out of a value whose [typeof] is
    ["number"]; [computeScore] compares and multiplies its arguments only
    after that check, so no coercion of other values is ever needed. *)
Definition toNumber (v : JsValue) : Q :=
  match v with
  | JsNumber n => n
  | _ => 0
  end.

Definition computeScore (patientsTreated assessmentsPassed : JsValue)
  : Completion Q :=
  if negb (String.eqb (typeof patientsTreated) "number")
     || negb (String.eqb (typeof assessmentsPassed) "number")
  then Throws "Score inputs must be numeric."
  else
    if ((toNumber patientsTreated <? 0) || (toNumber assessmentsPassed <? 0))%js
    then Throws "Score inputs must be non-negative."
    else
      Returns (toNumber patientsTreated * 1 + toNumber assessmentsPassed * 2).

Definition clamp (value min max : Q) : Q := Qmin max (Qmax min value).

(** [intersects] reads [x], [y], [width] and [height] of whatever objects it
    is given: the player hit box, a falling item, a ground mistake, a box
    built on the spot.  [Rect] is that interface. *)
Class Rect (A : Type) : Type := {
  rect_x : A -> Q;
  rect_y : A -> Q;
  rect_width : A -> Q;
  rect_height : A -> Q
}.

Definition intersects {A B : Type} `{Rect A} `{Rect B} (a : A) (b : B) : bool :=
  negb (((rect_x a + rect_width a <? rect_x b)
         || (rect_x a >? rect_x b + rect_width b)
         || (rect_y a + rect_height a <? rect_y b)
         || (rect_y a >? rect_y b + rect_height b))%js).

(** ** The global objects *)

Module Box.
Record t : Type := mk { x : Q; y : Q; width : Q; height : Q }.
End Box.

#[export] Instance Box_Rect : Rect Box.t :=
  {| rect_x := Box.x; rect_y := Box.y;
     rect_width := Box.width; rect_height := Box.height |}.

Module InputState.
Record t : Type := mk { left : bool; right : bool; jump : bool }.
End InputState.

Module Player.
Record t : Type := mk {
  x : Q; y : Q; vx : Q; vy : Q; onGround : bool; facing : Q
}.
End Player.

Module KnowledgeState.
Record t : Type := mk { percent : Q; timeSinceErosionMs : Q }.
End KnowledgeState.

Module MistakesState.
Record t : Type := mk { count : Q }.
End MistakesState.

Module ScoreState.
Record t : Type := mk { patientsTreated : Q; assessmentsPassed : Q }.
End ScoreState.

Module Item.
Record t : Type := mk {
  type : ItemType; x : Q; y : Q; width : Q; height : Q; vy : Q
}.
End Item.

#[export] Instance Item_Rect : Rect Item.t :=
  {| rect_x := Item.x; rect_y := Item.y;
     rect_width := Item.width; rect_height := Item.height |}.

(** [itemSpawnState] and [groundMistakeSpawnState] have the same shape. *)
Module SpawnState.
Record t : Type := mk { timeSinceLastSpawnMs : Q; nextSpawnDelayMs : Q }.
End SpawnState.

Module AssessmentState.
Record t : Type := mk { pending : bool }.
End AssessmentState.

(** The object stored in [patientState.active]. *)
Module Patient.
Record t : Type := mk {
  x : Q; y : Q; width : Q; height : Q; lifetimeMs : Q
}.
End Patient.

Module PatientState.
Record t : Type := mk {
  active : option Patient.t;
  timeSinceLastPatientGoneMs : Q;
  contactDurationMs : Q
}.
End PatientState.

Module GroundMistake.
Record t : Type := mk {
  x : Q; y : Q; width : Q; height : Q; lifetimeMs : Q
}.
End GroundMistake.

#[export] Instance GroundMistake_Rect : Rect GroundMistake.t :=
  {| rect_x := GroundMistake.x; rect_y := GroundMistake.y;
     rect_width := GroundMistake.width; rect_height := GroundMistake.height |}.

(** What the script writes to the page and the model keeps: the two overlay
    screens and the final score line. *)
Module Page.
Record t : Type := mk {
  startScreenVisible : bool;
  gameOverScreenVisible : bool;
  finalScoreLine : option Q
}.
End Page.

(** All top-level bindings of the script.  [randomCalls] counts the draws
    made from [Math.random]; [endGameCalls] is a ghost counter of the calls
    of [endGame] since the last [startGame]. *)
Record World : Type := mkWorld {
  gameState : GameState;
  inputState : InputState.t;
  player : Player.t;
  knowledgeState : KnowledgeState.t;
  mistakesState : MistakesState.t;
  scoreState : ScoreState.t;
  fallingItems : list Item.t;
  itemSpawnState : SpawnState.t;
  assessmentState : AssessmentState.t;
  patientState : PatientState.t;
  groundMistakes : list GroundMistake.t;
  groundMistakeSpawnState : SpawnState.t;
  lastTimestamp : option Q;
  page : Page.t;
  randomCalls : nat;
  endGameCalls : nat
}.

Definition set_gameState (v : GameState) (w : World) : World :=
  mkWorld v (inputState w) (player w) (knowledgeState w) (mistakesState w)
    (scoreState w) (fallingItems w) (itemSpawnState w) (assessmentState w)
    (patientState w) (groundMistakes w) (groundMistakeSpawnState w)
    (lastTimestamp w) (page w) (randomCalls w) (endGameCalls w).

Definition set_inputState (v : InputState.t) (w : World) : World :=
  mkWorld (gameState w) v (player w) (knowledgeState w) (mistakesState w)
    (scoreState w) (fallingItems w) (itemSpawnState w) (assessmentState w)
    (patientState w) (groundMistakes w) (groundMistakeSpawnState w)
    (lastTimestamp w) (page w) (randomCalls w) (endGameCalls w).

Definition set_player (v : Player.t) (w : World) : World :=
  mkWorld (gameState w) (inputState w) v (knowledgeState w) (mistakesState w)
    (scoreState w) (fallingItems w) (itemSpawnState w) (assessmentState w)
    (patientState w) (groundMistakes w) (groundMistakeSpawnState w)
    (lastTimestamp w) (page w) (randomCalls w) (endGameCalls w).

Definition set_knowledgeState (v : KnowledgeState.t) (w : World) : World :=
  mkWorld (gameState w) (inputState w) (player w) v (mistakesState w)
    (scoreState w) (fallingItems w) (itemSpawnState w) (assessmentState w)
    (patientState w) (groundMistakes w) (groundMistakeSpawnState w)
    (lastTimestamp w) (page w) (randomCalls w) (endGameCalls w).

Definition set_mistakesState (v : MistakesState.t) (w : World) : World :=
  mkWorld (gameState w) (inputState w) (player w) (knowledgeState w) v
    (scoreState w) (fallingItems w) (itemSpawnState w) (assessmentState w)
    (patientState w) (groundMistakes w) (groundMistakeSpawnState w)
    (lastTimestamp w) (page w) (randomCalls w) (endGameCalls w).

Definition set_scoreState (v : ScoreState.t) (w : World) : World :=
  mkWorld (gameState w) (inputState w) (player w) (knowledgeState w)
    (mistakesState w) v (fallingItems w) (itemSpawnState w) (assessmentState w)
    (patientState w) (groundMistakes w) (groundMistakeSpawnState w)
    (lastTimestamp w) (page w) (randomCalls w) (endGameCalls w).

Definition set_fallingItems (v : list Item.t) (w : World) : World :=
  mkWorld (gameState w) (inputState w) (player w) (knowledgeState w)
    (mistakesState w) (scoreState w) v (itemSpawnState w) (assessmentState w)
    (patientState w) (groundMistakes w) (groundMistakeSpawnState w)
    (lastTimestamp w) (page w) (randomCalls w) (endGameCalls w).

Definition set_itemSpawnState (v : SpawnState.t) (w : World) : World :=
  mkWorld (gameState w) (inputState w) (player w) (knowledgeState w)
    (mistakesState w) (scoreState w) (fallingItems w) v (assessmentState w)
    (patientState w) (groundMistakes w) (groundMistakeSpawnState w)
    (lastTimestamp w) (page w) (randomCalls w) (endGameCalls w).

Definition set_assessmentState (v : AssessmentState.t) (w : World) : World :=
  mkWorld (gameState w) (inputState w) (player w) (knowledgeState w)
    (mistakesState w) (scoreState w) (fallingItems w) (itemSpawnState w) v
    (patientState w) (groundMistakes w) (groundMistakeSpawnState w)
    (lastTimestamp w) (page w) (randomCalls w) (endGameCalls w).

Definition set_patientState (v : PatientState.t) (w : World) : World :=
  mkWorld (gameState w) (inputState w) (player w) (knowledgeState w)
    (mistakesState w) (scoreState w) (fallingItems w) (itemSpawnState w)
    (assessmentState w) v (groundMistakes w) (groundMistakeSpawnState w)
    (lastTimestamp w) (page w) (randomCalls w) (endGameCalls w).

Definition set_groundMistakes (v : list GroundMistake.t) (w : World) : World :=
  mkWorld (gameState w) (inputState w) (player w) (knowledgeState w)
    (mistakesState w) (scoreState w) (fallingItems w) (itemSpawnState w)
    (assessmentState w) (patientState w) v (groundMistakeSpawnState w)
    (lastTimestamp w) (page w) (randomCalls w) (endGameCalls w).

Definition set_groundMistakeSpawnState (v : SpawnState.t) (w : World) : World :=
  mkWorld (gameState w) (inputState w) (player w) (knowledgeState w)
    (mistakesState w) (scoreState w) (fallingItems w) (itemSpawnState w)
    (assessmentState w) (patientState w) (groundMistakes w) v
    (lastTimestamp w) (page w) (randomCalls w) (endGameCalls w).

Definition set_lastTimestamp (v : option Q) (w : World) : World :=
  mkWorld (gameState w) (inputState w) (player w) (knowledgeState w)
    (mistakesState w) (scoreState w) (fallingItems w) (itemSpawnState w)
    (assessmentState w) (patientState w) (groundMistakes w)
    (groundMistakeSpawnState w) v (page w) (randomCalls w) (endGameCalls w).

Definition set_page (v : Page.t) (w : World) : World :=
  mkWorld (gameState w) (inputState w) (player w) (knowledgeState w)
    (mistakesState w) (scoreState w) (fallingItems w) (itemSpawnState w)
    (assessmentState w) (patientState w) (groundMistakes w)
    (groundMistakeSpawnState w) (lastTimestamp w) v (randomCalls w)
    (endGameCalls w).

Definition set_randomCalls (v : nat) (w : World) : World :=
  mkWorld (gameState w) (inputState w) (player w) (knowledgeState w)
    (mistakesState w) (scoreState w) (fallingItems w) (itemSpawnState w)
    (assessmentState w) (patientState w) (groundMistakes w)
    (groundMistakeSpawnState w) (lastTimestamp w) (page w) v (endGameCalls w).

Definition set_endGameCalls (v : nat) (w : World) : World :=
  mkWorld (gameState w) (inputState w) (player w) (knowledgeState w)
    (mistakesState w) (scoreState w) (fallingItems w) (itemSpawnState w)
    (assessmentState w) (patientState w) (groundMistakes w)
    (groundMistakeSpawnState w) (lastTimestamp w) (page w) (randomCalls w) v.

(** What a function that may let an exception escape leaves behind: the
    world, and the message when it threw. *)
Inductive Result : Type :=
  | Done (w : World)
  | Raised (msg : string) (w : World).

Definition world_of (r : Result) : World :=
  match r with
  | Done w => w
  | Raised _ w => w
  end.

Definition raised (r : Result) : bool :=
  match r with
  | Done _ => false
  | Raised _ _ => true
  end.

(** The result of one pass through a loop body: go on with the next index,
    or leave the enclosing function. *)
Inductive Flow : Type :=
  | Continue (w : World)
  | Return (r : Result).

Module KeyboardEvent.
Record t : Type := mk { key : string; code : string }.
End KeyboardEvent.

(** What the host can deliver to the script. *)
Inductive Event : Type :=
  | AnimationFrame (timestamp : Q)
  | KeyDown (event : KeyboardEvent.t)
  | KeyUp (event : KeyboardEvent.t)
  | StartButtonClick
  | RestartButtonClick.

(** What [updateHud] writes: the widths of the two bars in percent, the
    numbers in the four text fields, and whether the two warning classes
    are set. *)
Module Hud.
Record t : Type := mk {
  knowledgeFillWidth : Q;
  knowledgePercentText : Q;
  knowledgeLow : bool;
  knowledgeCriticalText : bool;
  mistakeFillWidth : Q;
  mistakeCountText : Q;
  patientsTreatedText : Q;
  assessmentsPassedText : Q
}.
End Hud.

(** ** The script *)

(** What the script takes from its host: [canvas.width] and
    [canvas.height], the sequence of values that [Math.random()] returns, and
    the overlays as the markup shows them before the script runs. *)
Class Host : Type := {
  canvas_width : Q;
  canvas_height : Q;
  random_source : nat -> Q;
  markup : Page.t
}.

Section Script.

Context {host : Host}.

Definition FLOOR_Y : Q := canvas_height - 60.

Definition Math_random (w : World) : Q * World :=
  (random_source (randomCalls w), set_randomCalls (S (randomCalls w)) w).

Definition randomBetween (min max : Q) (w : World) : Q * World :=
  let (r, w) := Math_random w in
  (Math_floor (r * (max - min + 1)) + min, w).

Definition startGame (w : World) : World :=
  let w := set_gameState PLAYING w in
  let w := set_page (Page.mk false false (Page.finalScoreLine (page w))) w in
  let w :=
    set_player
      (Player.mk (canvas_width / 2 - PLAYER_WIDTH / 2)
         (FLOOR_Y - PLAYER_HEIGHT) 0 0 true 1) w in
  let w := set_knowledgeState (KnowledgeState.mk 50 0) w in
  let w := set_mistakesState (MistakesState.mk 0) w in
  let w := set_scoreState (ScoreState.mk 0 0) w in
  let w := set_fallingItems [] w in
  let (delay, w) :=
    randomBetween ITEM_SPAWN_INTERVAL_MIN_MS ITEM_SPAWN_INTERVAL_MAX_MS w in
  let w := set_itemSpawnState (SpawnState.mk 0 delay) w in
  let w := set_assessmentState (AssessmentState.mk false) w in
  let w := set_patientState (PatientState.mk None PATIENT_GAP_MS 0) w in
  let w := set_groundMistakes [] w in
  let (delay, w) :=
    randomBetween GROUND_MISTAKE_SPAWN_INTERVAL_MIN_MS
      GROUND_MISTAKE_SPAWN_INTERVAL_MAX_MS w in
  let w := set_groundMistakeSpawnState (SpawnState.mk 0 delay) w in
  let w := set_lastTimestamp None w in
  set_endGameCalls 0 w.

(** The state the top-level initialisers build, in source order; the two
    spawn delays take the first two random draws. *)
Definition initialWorld : World :=
  let w :=
    mkWorld START (InputState.mk false false false)
      (Player.mk (canvas_width / 2 - PLAYER_WIDTH / 2)
         (FLOOR_Y - PLAYER_HEIGHT) 0 0 true 1)
      (KnowledgeState.mk 50 0) (MistakesState.mk 0) (ScoreState.mk 0 0)
      [] (SpawnState.mk 0 0) (AssessmentState.mk false)
      (PatientState.mk None PATIENT_GAP_MS 0)
      [] (SpawnState.mk 0 0) None markup 0 0 in
  let (delay, w) :=
    randomBetween ITEM_SPAWN_INTERVAL_MIN_MS ITEM_SPAWN_INTERVAL_MAX_MS w in
  let w := set_itemSpawnState (SpawnState.mk 0 delay) w in
  let (delay, w) :=
    randomBetween GROUND_MISTAKE_SPAWN_INTERVAL_MIN_MS
      GROUND_MISTAKE_SPAWN_INTERVAL_MAX_MS w in
  set_groundMistakeSpawnState (SpawnState.mk 0 delay) w.

(** [endGame] sets the state first, so an exception of [computeScore]
    leaves [GAME_OVER] behind and skips the writes to the page. *)
Definition endGame (w : World) : Result :=
  let w := set_endGameCalls (S (endGameCalls w)) w in
  let w := set_gameState GAME_OVER w in
  match
    computeScore (JsNumber (ScoreState.patientsTreated (scoreState w)))
      (JsNumber (ScoreState.assessmentsPassed (scoreState w)))
  with
  | Throws msg => Raised msg w
  | Returns totalScore =>
      Done
        (set_page
           (Page.mk (Page.startScreenVisible (page w)) true (Some totalScore))
           w)
  end.

Definition handleKeyDown (event : KeyboardEvent.t) (w : World) : World :=
  let i := inputState w in
  if String.eqb (KeyboardEvent.key event) "ArrowLeft" then
    set_inputState
      (InputState.mk true (InputState.right i) (InputState.jump i)) w
  else if String.eqb (KeyboardEvent.key event) "ArrowRight" then
    set_inputState
      (InputState.mk (InputState.left i) true (InputState.jump i)) w
  else if String.eqb (KeyboardEvent.code event) "Space" then
    set_inputState
      (InputState.mk (InputState.left i) (InputState.right i) true) w
  else w.

Definition handleKeyUp (event : KeyboardEvent.t) (w : World) : World :=
  let i := inputState w in
  if String.eqb (KeyboardEvent.key event) "ArrowLeft" then
    set_inputState
      (InputState.mk false (InputState.right i) (InputState.jump i)) w
  else if String.eqb (KeyboardEvent.key event) "ArrowRight" then
    set_inputState
      (InputState.mk (InputState.left i) false (InputState.jump i)) w
  else if String.eqb (KeyboardEvent.code event) "Space" then
    set_inputState
      (InputState.mk (InputState.left i) (InputState.right i) false) w
  else w.

(** [updateHud] with the display as its result.  The element two levels
    above the knowledge fill is looked up with [?.]: when the markup has
    none ([thermometer] false) the two warning classes stay as they were. *)
Definition updateHud (thermometer : bool) (hud : Hud.t) (w : World) : Hud.t :=
  let knowledgePercent :=
    clamp (Math_round (KnowledgeState.percent (knowledgeState w)))
      KNOWLEDGE_MIN KNOWLEDGE_MAX in
  let low := (knowledgePercent <? KNOWLEDGE_WARNING_THRESHOLD)%js in
  let mistakeRatio := MistakesState.count (mistakesState w) / MAX_MISTAKES in
  Hud.mk knowledgePercent knowledgePercent
    (if thermometer then low else Hud.knowledgeLow hud)
    (if thermometer then low else Hud.knowledgeCriticalText hud)
    (Math_round (mistakeRatio * 100))
    (MistakesState.count (mistakesState w))
    (ScoreState.patientsTreated (scoreState w))
    (ScoreState.assessmentsPassed (scoreState w)).

Definition spawnRandomItem (w : World) : World :=
  let (roll, w) := Math_random w in
  let type := if (roll >? 0.825)%js then MISTAKE else KNOWLEDGE in
  let width := 22 in
  let height := 26 in
  let (x, w) := randomBetween 20 (canvas_width - 20 - width) w in
  let y := - height in
  let vy :=
    match type with
    | KNOWLEDGE => 180
    | _ => 260
    end in
  set_fallingItems (fallingItems w ++ [Item.mk type x y width height vy]) w.

Definition spawnAssessmentItem (w : World) : World :=
  let width := 26 in
  let height := 30 in
  let (x, w) := randomBetween 20 (canvas_width - 20 - width) w in
  let y := - height in
  set_fallingItems
    (fallingItems w ++ [Item.mk ASSESSMENT x y width height 133]) w.

Definition updatePlayer (dtSeconds : Q) (w : World) : World :=
  let p := player w in
  let i := inputState w in
  let vx := 0 in
  let facing := Player.facing p in
  let (vx, facing) :=
    if InputState.left i then (vx - PLAYER_SPEED, -1) else (vx, facing) in
  let (vx, facing) :=
    if InputState.right i then (vx + PLAYER_SPEED, 1) else (vx, facing) in
  let (vy, onGround) :=
    if InputState.jump i && Player.onGround p
    then (JUMP_VELOCITY, false)
    else (Player.vy p, Player.onGround p) in
  let vy := vy + GRAVITY * dtSeconds in
  let x := Player.x p + vx * dtSeconds in
  let y := Player.y p + vy * dtSeconds in
  let '(y, vy, onGround) :=
    if (y + PLAYER_HEIGHT >=? FLOOR_Y)%js
    then (FLOOR_Y - PLAYER_HEIGHT, 0, true)
    else (y, vy, onGround) in
  let x := clamp x 0 (canvas_width - PLAYER_WIDTH) in
  set_player (Player.mk x y vx vy onGround facing) w.

Definition getPlayerHitBox (w : World) : Box.t :=
  let paddingX := 4 in
  let paddingTop := 6 in
  let paddingBottom := 6 in
  Box.mk (Player.x (player w) + paddingX) (Player.y (player w) + paddingTop)
    (PLAYER_WIDTH - paddingX * 2) (PLAYER_HEIGHT - paddingTop - paddingBottom).

(** [updateKnowledgeAndItems] is three blocks in a row; each is a
    definition of its own so that the state between them can be named. *)

(** First block: the erosion timer. *)
Definition erodeKnowledge (dtMs : Q) (w : World) : World :=
  let k := knowledgeState w in
  let timeSinceErosionMs := KnowledgeState.timeSinceErosionMs k + dtMs in
  if (timeSinceErosionMs >=? KNOWLEDGE_EROSION_INTERVAL_MS)%js then
    let percent :=
      if (KnowledgeState.percent k >? KNOWLEDGE_MIN)%js
      then clamp (KnowledgeState.percent k - KNOWLEDGE_EROSION_STEP)
             KNOWLEDGE_MIN KNOWLEDGE_MAX
      else KnowledgeState.percent k in
    set_knowledgeState (KnowledgeState.mk percent 0) w
  else
    set_knowledgeState
      (KnowledgeState.mk (KnowledgeState.percent k) timeSinceErosionMs) w.

(** Second block: the assessment trigger. *)
Definition triggerAssessment (w : World) : World :=
  if negb (AssessmentState.pending (assessmentState w))
     && (Math_round (KnowledgeState.percent (knowledgeState w))
         >=? KNOWLEDGE_MAX)%js
  then
    let w := set_assessmentState (AssessmentState.mk true) w in
    spawnAssessmentItem w
  else w.

(** Third block: the timer of the falling-item spawner. *)
Definition tickItemSpawner (dtMs : Q) (w : World) : World :=
  let s := itemSpawnState w in
  let timeSinceLastSpawnMs := SpawnState.timeSinceLastSpawnMs s + dtMs in
  if (timeSinceLastSpawnMs >=? SpawnState.nextSpawnDelayMs s)%js then
    let w := spawnRandomItem w in
    let (delay, w) :=
      randomBetween ITEM_SPAWN_INTERVAL_MIN_MS ITEM_SPAWN_INTERVAL_MAX_MS w in
    set_itemSpawnState (SpawnState.mk 0 delay) w
  else
    set_itemSpawnState
      (SpawnState.mk timeSinceLastSpawnMs (SpawnState.nextSpawnDelayMs s)) w.

Definition updateKnowledgeAndItems (dtMs : Q) (w : World) : World :=
  tickItemSpawner dtMs (triggerAssessment (erodeKnowledge dtMs w)).

(** [fallingItems.splice(i, 1)] *)
Definition spliceFallingItem (i : nat) (w : World) : World :=
  set_fallingItems (delete i (fallingItems w)) w.

(** The body of the loop of [updateFallingItems] at index [i].  The loop
    only visits indices below the length of the array; were [fallingItems[i]]
    undefined, reading [item.y] would raise a [TypeError]. *)
Definition updateFallingItems_body
    (dtSeconds : Q) (playerBox : Box.t) (i : nat) (w : World) : Flow :=
  match fallingItems w !! i with
  | None => Return (Raised "TypeError: item is undefined" w)
  | Some item =>
      let item :=
        Item.mk (Item.type item) (Item.x item)
          (Item.y item + Item.vy item * dtSeconds)
          (Item.width item) (Item.height item) (Item.vy item) in
      let w := set_fallingItems (<[i:=item]> (fallingItems w)) w in
      if intersects playerBox item then
        match Item.type item with
        | KNOWLEDGE =>
            let k := knowledgeState w in
            let w :=
              set_knowledgeState
                (KnowledgeState.mk
                   (clamp (KnowledgeState.percent k + KNOWLEDGE_PICKUP_AMOUNT)
                      KNOWLEDGE_MIN KNOWLEDGE_MAX)
                   (KnowledgeState.timeSinceErosionMs k)) w in
            Continue (spliceFallingItem i w)
        | MISTAKE =>
            let w :=
              set_mistakesState
                (MistakesState.mk
                   (clamp (MistakesState.count (mistakesState w) + 1) 0
                      MAX_MISTAKES)) w in
            if (MistakesState.count (mistakesState w) >=? MAX_MISTAKES)%js
            then Return (endGame w)
            else Continue (spliceFallingItem i w)
        | ASSESSMENT =>
            let w := set_mistakesState (MistakesState.mk 0) w in
            let w :=
              set_knowledgeState
                (KnowledgeState.mk 50
                   (KnowledgeState.timeSinceErosionMs (knowledgeState w))) w in
            let w := set_assessmentState (AssessmentState.mk false) w in
            let w :=
              set_scoreState
                (ScoreState.mk (ScoreState.patientsTreated (scoreState w))
                   (ScoreState.assessmentsPassed (scoreState w) + 1)) w in
            Continue (spliceFallingItem i w)
        end
      else if (Item.y item >? canvas_height + 40)%js then
        let w :=
          match Item.type item with
          | ASSESSMENT => set_assessmentState (AssessmentState.mk false) w
          | _ => w
          end in
        Continue (spliceFallingItem i w)
      else Continue w
  end.

(** [for (let i = n - 1; i >= 0; i -= 1) body] *)
Fixpoint updateFallingItems_loop
    (dtSeconds : Q) (playerBox : Box.t) (n : nat) (w : World) : Result :=
  match n with
  | O => Done w
  | S i =>
      match updateFallingItems_body dtSeconds playerBox i w with
      | Continue w => updateFallingItems_loop dtSeconds playerBox i w
      | Return r => r
      end
  end.

Definition updateFallingItems (dtSeconds : Q) (w : World) : Result :=
  let playerBox := getPlayerHitBox w in
  updateFallingItems_loop dtSeconds playerBox (length (fallingItems w)) w.

Definition updatePatient (dtMs : Q) (w : World) : World :=
  let ps := patientState w in
  match PatientState.active ps with
  | None =>
      let timeSinceLastPatientGoneMs :=
        PatientState.timeSinceLastPatientGoneMs ps + dtMs in
      if (timeSinceLastPatientGoneMs >=? PATIENT_GAP_MS)%js then
        let width := 28 in
        let height := 32 in
        let (x, w) := randomBetween 20 (canvas_width - 20 - width) w in
        let y := FLOOR_Y - height in
        set_patientState
          (PatientState.mk (Some (Patient.mk x y width height 0)) 0 0) w
      else
        set_patientState
          (PatientState.mk None timeSinceLastPatientGoneMs
             (PatientState.contactDurationMs ps)) w
  | Some patient =>
      let patient :=
        Patient.mk (Patient.x patient) (Patient.y patient)
          (Patient.width patient) (Patient.height patient)
          (Patient.lifetimeMs patient + dtMs) in
      let playerBox :=
        Box.mk (Player.x (player w)) (Player.y (player w))
          PLAYER_WIDTH PLAYER_HEIGHT in
      let patientBox :=
        Box.mk (Patient.x patient) (Patient.y patient)
          (Patient.width patient) (Patient.height patient) in
      let canTreat :=
        (Math_round (KnowledgeState.percent (knowledgeState w))
         >=? KNOWLEDGE_WARNING_THRESHOLD)%js in
      let gone := PatientState.timeSinceLastPatientGoneMs ps in
      if canTreat && intersects playerBox patientBox then
        let contactDurationMs := PatientState.contactDurationMs ps + dtMs in
        if (contactDurationMs >=? PATIENT_TREAT_DURATION_MS)%js then
          let w :=
            set_scoreState
              (ScoreState.mk (ScoreState.patientsTreated (scoreState w) + 1)
                 (ScoreState.assessmentsPassed (scoreState w))) w in
          set_patientState (PatientState.mk None 0 0) w
        else if (Patient.lifetimeMs patient >=? PATIENT_VISIBLE_MS)%js then
          set_patientState (PatientState.mk None 0 0) w
        else
          set_patientState
            (PatientState.mk (Some patient) gone contactDurationMs) w
      else if (Patient.lifetimeMs patient >=? PATIENT_VISIBLE_MS)%js then
        set_patientState (PatientState.mk None 0 0) w
      else set_patientState (PatientState.mk (Some patient) gone 0) w
  end.

Definition spawnGroundMistake (w : World) : World :=
  let width := 22 in
  let height := 26 in
  let (x, w) := randomBetween 20 (canvas_width - 20 - width) w in
  let y := FLOOR_Y - height in
  set_groundMistakes
    (groundMistakes w ++ [GroundMistake.mk x y width height 0]) w.

(** [groundMistakes.splice(i, 1)] *)
Definition spliceGroundMistake (i : nat) (w : World) : World :=
  set_groundMistakes (delete i (groundMistakes w)) w.

(** The body of the loop of [updateGroundMistakes] at index [i]. *)
Definition updateGroundMistakes_body
    (dtMs : Q) (playerBox : Box.t) (i : nat) (w : World) : Flow :=
  match groundMistakes w !! i with
  | None => Return (Raised "TypeError: ob is undefined" w)
  | Some ob =>
      let ob :=
        GroundMistake.mk (GroundMistake.x ob) (GroundMistake.y ob)
          (GroundMistake.width ob) (GroundMistake.height ob)
          (GroundMistake.lifetimeMs ob + dtMs) in
      let w := set_groundMistakes (<[i:=ob]> (groundMistakes w)) w in
      if intersects playerBox ob then
        let w :=
          set_mistakesState
            (MistakesState.mk
               (clamp (MistakesState.count (mistakesState w) + 1) 0
                  MAX_MISTAKES)) w in
        let w := spliceGroundMistake i w in
        if (MistakesState.count (mistakesState w) >=? MAX_MISTAKES)%js
        then Return (endGame w)
        else Continue w
      else if (GroundMistake.lifetimeMs ob >=? GROUND_MISTAKE_DURATION_MS)%js
      then Continue (spliceGroundMistake i w)
      else Continue w
  end.

Fixpoint updateGroundMistakes_loop
    (dtMs : Q) (playerBox : Box.t) (n : nat) (w : World) : Result :=
  match n with
  | O => Done w
  | S i =>
      match updateGroundMistakes_body dtMs playerBox i w with
      | Continue w => updateGroundMistakes_loop dtMs playerBox i w
      | Return r => r
      end
  end.

(** The spawn timer at the head of [updateGroundMistakes]. *)
Definition tickGroundMistakeSpawner (dtMs : Q) (w : World) : World :=
  let s := groundMistakeSpawnState w in
  let timeSinceLastSpawnMs := SpawnState.timeSinceLastSpawnMs s + dtMs in
  if (timeSinceLastSpawnMs >=? SpawnState.nextSpawnDelayMs s)%js then
    let w := spawnGroundMistake w in
    let (delay, w) :=
      randomBetween GROUND_MISTAKE_SPAWN_INTERVAL_MIN_MS
        GROUND_MISTAKE_SPAWN_INTERVAL_MAX_MS w in
    set_groundMistakeSpawnState (SpawnState.mk 0 delay) w
  else
    set_groundMistakeSpawnState
      (SpawnState.mk timeSinceLastSpawnMs (SpawnState.nextSpawnDelayMs s)) w.

Definition updateGroundMistakes (dtMs : Q) (w : World) : Result :=
  let w := tickGroundMistakeSpawner dtMs w in
  let playerBox := getPlayerHitBox w in
  updateGroundMistakes_loop dtMs playerBox (length (groundMistakes w)) w.

(** Sequencing of calls that may raise. *)
Definition andThen (r : Result) (k : World -> Result) : Result :=
  match r with
  | Done w => k w
  | Raised msg w => Raised msg w
  end.

Definition GameState_eqb (a b : GameState) : bool :=
  match a, b with
  | START, START | PLAYING, PLAYING | GAME_OVER, GAME_OVER => true
  | _, _ => false
  end.

(** The frame callback.  Both early exits and the normal end only differ in
    what is drawn. *)
Definition gameLoop (timestamp : Q) (w : World) : Result :=
  if negb (GameState_eqb (gameState w) PLAYING) then Done w
  else
    let w :=
      match lastTimestamp w with
      | None => set_lastTimestamp (Some timestamp) w
      | Some _ => w
      end in
    let dtMs :=
      timestamp - match lastTimestamp w with Some t => t | None => 0 end in
    let dtSeconds := dtMs / 1000 in
    let w := set_lastTimestamp (Some timestamp) w in
    let w := updatePlayer dtSeconds w in
    let w := updateKnowledgeAndItems dtMs w in
    andThen (updateFallingItems dtSeconds w) (fun w =>
    if GameState_eqb (gameState w) GAME_OVER then Done w
    else
      let w := updatePatient dtMs w in
      andThen (updateGroundMistakes dtMs w) (fun w => Done w)).

(** The listeners the script registers. *)
Definition dispatch (e : Event) (w : World) : Result :=
  match e with
  | AnimationFrame timestamp => gameLoop timestamp w
  | KeyDown event => Done (handleKeyDown event w)
  | KeyUp event => Done (handleKeyUp event w)
  | StartButtonClick =>
      match gameState w with
      | START | GAME_OVER => Done (startGame w)
      | PLAYING => Done w
      end
  | RestartButtonClick =>
      match gameState w with
      | GAME_OVER => Done (startGame w)
      | _ => Done w
      end
  end.

(** The states the running page can be in. *)
Inductive reachable : World -> Prop :=
  | reachable_init : reachable initialWorld
  | reachable_step (e : Event) (w w' : World) :
      reachable w -> dispatch e w = Done w' -> reachable w'.

(** Running a list of events from a state, stopping at the first exception. *)
Fixpoint run (es : list Event) (w : World) : Result :=
  match es with
  | [] => Done w
  | e :: es => andThen (dispatch e w) (run es)
  end.

(** ** Vocabulary of the properties *)

Definition numeric (v : JsValue) : Prop := typeof v = "number"%string.

Definition negative (v : JsValue) : Prop :=
  match v with
  | JsNumber n => n < 0
  | _ => False
  end.

(** Eligibility as [updatePatient] computes it. *)
Definition canTreat (w : World) : bool :=
  (Math_round (KnowledgeState.percent (knowledgeState w))
   >=? KNOWLEDGE_WARNING_THRESHOLD)%js.

Definition treated (w : World) : Q := ScoreState.patientsTreated (scoreState w).

(** What a loop body establishes: [P] when the loop goes on, [R] of the
    result when the function is left. *)
Definition flow_holds (P : World -> Prop) (R : Result -> Prop) (f : Flow)
  : Prop :=
  match f with
  | Continue w => P w
  | Return r => R r
  end.

(** A predicate on worlds is [straight_stable] when the handlers and the
    loop-free parts of the frame callback keep it, and [stable] when the
    loop bodies and [startGame] do too. *)
Definition straight_stable (P : World -> Prop) : Prop :=
  (forall v w, P w -> P (set_lastTimestamp v w))
  /\ (forall dt w, P w -> P (updatePlayer dt w))
  /\ (forall dt w, P w -> P (erodeKnowledge dt w))
  /\ (forall w, P w -> P (triggerAssessment w))
  /\ (forall dt w, P w -> P (tickItemSpawner dt w))
  /\ (forall dt w, P w -> P (updatePatient dt w))
  /\ (forall dt w, P w -> P (tickGroundMistakeSpawner dt w))
  /\ (forall ev w, P w -> P (handleKeyDown ev w))
  /\ (forall ev w, P w -> P (handleKeyUp ev w)).

Definition stable (P : World -> Prop) : Prop :=
  straight_stable P
  /\ (forall dt box i w, P w ->
        flow_holds P (fun r => P (world_of r))
          (updateFallingItems_body dt box i w))
  /\ (forall dt box i w, P w ->
        flow_holds P (fun r => P (world_of r))
          (updateGroundMistakes_body dt box i w))
  /\ (forall w, P (startGame w)).

Definition meter (w : World) : Q := KnowledgeState.percent (knowledgeState w).

Definition multipleOf5 (q : Q) : Prop := exists k : Z, q == inject_Z (5 * k).

Definition meterOk (w : World) : Prop :=
  KNOWLEDGE_MIN <= meter w <= KNOWLEDGE_MAX /\ multipleOf5 (meter w).

(** The meter alone, without the multiple-of-five part. *)
Definition meterInRange (w : World) : Prop :=
  KNOWLEDGE_MIN <= meter w <= KNOWLEDGE_MAX.

Definition passed (w : World) : Q :=
  ScoreState.assessmentsPassed (scoreState w).

Definition scoresOk (w : World) : Prop := 0 <= treated w /\ 0 <= passed w.

Definition mistakes (w : World) : Q := MistakesState.count (mistakesState w).

Definition mistakesInRange (w : World) : Prop :=
  0 <= mistakes w <= MAX_MISTAKES.

(** A session in progress, and a session that has ended. *)
Definition inPlay (w : World) : Prop :=
  gameState w = PLAYING /\ mistakes w < MAX_MISTAKES
  /\ endGameCalls w = O.

Definition isOver (w : World) : Prop :=
  gameState w = GAME_OVER /\ mistakes w == MAX_MISTAKES
  /\ endGameCalls w = 1%nat.

Definition sessionOk (w : World) : Prop :=
  match gameState w with
  | START => mistakes w == 0 /\ endGameCalls w = O
  | PLAYING => inPlay w
  | GAME_OVER => isOver w
  end.

(** The time the frame callback measures, and its two halves: up to the
    first test of [gameState], and after it. *)
Definition frameDelta (timestamp : Q) (w : World) : Q :=
  timestamp
  - match lastTimestamp w with
    | Some t => t
    | None => timestamp
    end.

Definition fallingPhase (timestamp : Q) (w : World) : Result :=
  let dtMs := frameDelta timestamp w in
  let dtSeconds := dtMs / 1000 in
  updateFallingItems dtSeconds
    (updateKnowledgeAndItems dtMs
       (updatePlayer dtSeconds (set_lastTimestamp (Some timestamp) w))).

Definition groundPhase (dtMs : Q) (w : World) : Result :=
  andThen (updateGroundMistakes dtMs (updatePatient dtMs w)) Done.

Definition isAssessment (item : Item.t) : bool :=
  match Item.type item with
  | ASSESSMENT => true
  | _ => false
  end.

Definition countAssessments (items : list Item.t) : nat :=
  length (List.filter isAssessment items).

Definition pendingItems (w : World) : nat := countAssessments (fallingItems w).

Definition pendingFlag (w : World) : bool :=
  AssessmentState.pending (assessmentState w).

Definition pendingOk (w : World) : Prop :=
  pendingItems w = Nat.b2n (pendingFlag w).

(** The item after [item.y += item.vy * dtSeconds]. *)
Definition fallen (dtSeconds : Q) (item : Item.t) : Item.t :=
  Item.mk (Item.type item) (Item.x item)
    (Item.y item + Item.vy item * dtSeconds)
    (Item.width item) (Item.height item) (Item.vy item).

(** The condition under which [triggerAssessment] spawns. *)
Definition assessmentDue (w : World) : bool :=
  negb (pendingFlag w) && (Math_round (meter w) >=? KNOWLEDGE_MAX)%js.

(** Repeated calls of [updateKnowledgeAndItems], one per elapsed time. *)
Definition erosionTicks (dts : list Q) (w : World) : World :=
  fold_left (fun w dtMs => updateKnowledgeAndItems dtMs w) dts w.

(** An exception that escapes is the one [computeScore] threw on the
    counters of the world it leaves behind. *)
Definition fromComputeScore (r : Result) : Prop :=
  match r with
  | Done _ => True
  | Raised msg w =>
      computeScore (JsNumber (treated w)) (JsNumber (passed w)) = Throws msg
  end.

(** ** Vocabulary of the further properties *)

(** The whole sprite of the player as a box, as [updatePatient] builds it. *)
Definition playerSprite (w : World) : Box.t :=
  Box.mk (Player.x (player w)) (Player.y (player w))
    PLAYER_WIDTH PLAYER_HEIGHT.

(** Overlap of two boxes, axis by axis, touching edges included. *)
Definition overlap {A B : Type} `{Rect A} `{Rect B} (a : A) (b : B) : Prop :=
  rect_x b <= rect_x a + rect_width a
  /\ rect_x a <= rect_x b + rect_width b
  /\ rect_y b <= rect_y a + rect_height a
  /\ rect_y a <= rect_y b + rect_height b.

(** [Math.random()] returns a number in [[0, 1)]. *)
Definition unitSource : Prop := forall n, 0 <= random_source n < 1.

(** An integer between [lo] and [hi]. *)
Definition integerIn (lo hi : Z) (q : Q) : Prop :=
  exists k : Z, q == inject_Z k /\ (lo <= k <= hi)%Z.

(** The delays the two spawn timers wait for. *)
Definition delaysOk (w : World) : Prop :=
  integerIn 900 1800 (SpawnState.nextSpawnDelayMs (itemSpawnState w))
  /\ integerIn 2400 5600
       (SpawnState.nextSpawnDelayMs (groundMistakeSpawnState w)).

(** Size and speed of a falling item, by type. *)
Definition itemShape (item : Item.t) : Prop :=
  match Item.type item with
  | KNOWLEDGE =>
      Item.width item = 22 /\ Item.height item = 26 /\ Item.vy item = 180
  | MISTAKE =>
      Item.width item = 22 /\ Item.height item = 26 /\ Item.vy item = 260
  | ASSESSMENT =>
      Item.width item = 26 /\ Item.height item = 30 /\ Item.vy item = 133
  end.

(** An item or hazard of width [width] at [x] is inside the stage, twenty
    pixels off either side. *)
Definition placed (x width : Q) : Prop :=
  20 <= x <= canvas_width - 20 - width.

(** A ground mistake stands on the floor line, has the size of a book and
    has not outlived its duration. *)
Definition groundMistakeOk (ob : GroundMistake.t) : Prop :=
  GroundMistake.width ob = 22 /\ GroundMistake.height ob = 26
  /\ GroundMistake.y ob = FLOOR_Y - 26
  /\ GroundMistake.lifetimeMs ob < GROUND_MISTAKE_DURATION_MS.

(** The patient slot: a patient on stage stands on the floor line, is 28 by
    32, has neither outlived its visible time nor been in contact for the
    full treatment time, and the gap timer rests at zero; with no patient on
    stage the contact timer is zero and the gap timer at most the minimum
    gap. *)
Definition patientSlotOk (w : World) : Prop :=
  match PatientState.active (patientState w) with
  | Some patient =>
      Patient.width patient = 28 /\ Patient.height patient = 32
      /\ Patient.y patient = FLOOR_Y - 32
      /\ Patient.lifetimeMs patient < PATIENT_VISIBLE_MS
      /\ PatientState.contactDurationMs (patientState w)
         < PATIENT_TREAT_DURATION_MS
      /\ PatientState.timeSinceLastPatientGoneMs (patientState w) = 0
  | None =>
      PatientState.contactDurationMs (patientState w) = 0
      /\ PatientState.timeSinceLastPatientGoneMs (patientState w)
         <= PATIENT_GAP_MS
  end.

(** The player: above or on the floor line, between the sides of the stage,
    at rest on the floor line when [onGround] is set, moving sideways at the
    walking speed or not at all, facing left or right. *)
Definition playerOk (w : World) : Prop :=
  Player.y (player w) + PLAYER_HEIGHT <= FLOOR_Y
  /\ 0 <= Player.x (player w) <= canvas_width - PLAYER_WIDTH
  /\ (Player.onGround (player w) = true ->
      Player.y (player w) + PLAYER_HEIGHT == FLOOR_Y
      /\ Player.vy (player w) == 0)
  /\ (Player.vx (player w) == 0 \/ Player.vx (player w) == PLAYER_SPEED
      \/ Player.vx (player w) == - PLAYER_SPEED)
  /\ (Player.facing (player w) == 1 \/ Player.facing (player w) == - (1)).

(** A natural number. *)
Definition whole (q : Q) : Prop := exists n : nat, q == inject_Z (Z.of_nat n).

Definition countersWhole (w : World) : Prop :=
  whole (mistakes w) /\ whole (treated w) /\ whole (passed w).

(** What the page shows after [endGame]: the game-over screen, and the
    score of the counters. *)
Definition scoreShown (w : World) : Prop :=
  Page.gameOverScreenVisible (page w) = true
  /\ exists s,
       Page.finalScoreLine (page w) = Some s
       /\ s == treated w + 2 * passed w.

Definition overlaysHidden (w : World) : Prop :=
  Page.startScreenVisible (page w) = false
  /\ Page.gameOverScreenVisible (page w) = false.

(** In play with both overlays hidden; over with the score on show. *)
Definition playingHidden (w : World) : Prop :=
  gameState w = PLAYING /\ overlaysHidden w /\ scoresOk w.

Definition overShown (w : World) : Prop :=
  gameState w = GAME_OVER /\ scoreShown w /\ scoresOk w.

Definition pageOk (w : World) : Prop :=
  match gameState w with
  | START => scoresOk w
  | PLAYING => playingHidden w
  | GAME_OVER => overShown w
  end.

(** A click on one of the two buttons. *)
Definition isClick (e : Event) : bool :=
  match e with
  | StartButtonClick | RestartButtonClick => true
  | _ => false
  end.

(** The three repeating timers, each below its period. *)
Definition timersOk (w : World) : Prop :=
  KnowledgeState.timeSinceErosionMs (knowledgeState w)
  < KNOWLEDGE_EROSION_INTERVAL_MS
  /\ SpawnState.timeSinceLastSpawnMs (itemSpawnState w)
     < SpawnState.nextSpawnDelayMs (itemSpawnState w)
  /\ SpawnState.timeSinceLastSpawnMs (groundMistakeSpawnState w)
     < SpawnState.nextSpawnDelayMs (groundMistakeSpawnState w).

(** A frame whose timestamp is not before that of the frame before it. *)
Definition inOrder (e : Event) (w : World) : Prop :=
  match e with
  | AnimationFrame timestamp => 0 <= frameDelta timestamp w
  | _ => True
  end.

(** The states the page can be in when the timestamps of the frames never
    go back, as those of [requestAnimationFrame] do not. *)
Inductive steady : World -> Prop :=
  | steady_init : steady initialWorld
  | steady_step (e : Event) (w w' : World) :
      steady w -> inOrder e w -> dispatch e w = Done w' -> steady w'.

Definition inOrderb (e : Event) (w : World) : bool :=
  match e with
  | AnimationFrame timestamp => (0 <=? frameDelta timestamp w)%js
  | _ => true
  end.

(** [run] goes through [es] without an exception and every frame in it is
    in order. *)
Fixpoint runsInOrder (es : list Event) (w : World) : bool :=
  match es with
  | [] => true
  | e :: es =>
      inOrderb e w
      && match dispatch e w with
         | Done w' => runsInOrder es w'
         | Raised _ _ => false
         end
  end.

Definition groundTimer (w : World) : Q :=
  SpawnState.timeSinceLastSpawnMs (groundMistakeSpawnState w).

(** The ground mistake after [ob.lifetimeMs += dtMs]. *)
Definition outlasted (dtMs : Q) (ob : GroundMistake.t) : GroundMistake.t :=
  GroundMistake.mk (GroundMistake.x ob) (GroundMistake.y ob)
    (GroundMistake.width ob) (GroundMistake.height ob)
    (GroundMistake.lifetimeMs ob + dtMs).

(** At most one ground mistake, on stage for at least as long as its
    spawn timer has been running. *)
Definition groundOk (w : World) : Prop :=
  0 <= groundTimer w
  /\ GROUND_MISTAKE_SPAWN_INTERVAL_MIN_MS
     <= SpawnState.nextSpawnDelayMs (groundMistakeSpawnState w)
  /\ (groundMistakes w = []
      \/ exists ob,
           groundMistakes w = [ob]
           /\ groundTimer w <= GroundMistake.lifetimeMs ob).

(** No timer below zero. *)
Definition clocksOk (w : World) : Prop :=
  0 <= KnowledgeState.timeSinceErosionMs (knowledgeState w)
  /\ 0 <= SpawnState.timeSinceLastSpawnMs (itemSpawnState w)
  /\ 0 <= groundTimer w
  /\ 0 <= PatientState.timeSinceLastPatientGoneMs (patientState w)
  /\ 0 <= PatientState.contactDurationMs (patientState w)
  /\ match PatientState.active (patientState w) with
     | Some patient => 0 <= Patient.lifetimeMs patient
     | None => True
     end.

(** What the loop of [updateFallingItems] keeps of an item it has moved:
    one that does not touch the hit box and has not fallen more than 40
    pixels below the stage. *)
Definition staysFalling (playerBox : Box.t) (item : Item.t) : bool :=
  negb (intersects playerBox item)
  && negb (Item.y item >? canvas_height + 40)%js.

(** What the loop of [updateGroundMistakes] keeps of a ground mistake it has
    aged: one that does not touch the hit box and has not reached its
    duration. *)
Definition staysOnGround (playerBox : Box.t) (ob : GroundMistake.t) : bool :=
  negb (intersects playerBox ob)
  && negb (GroundMistake.lifetimeMs ob >=? GROUND_MISTAKE_DURATION_MS)%js.

End Script.

(** ** Double precision

    A JavaScript number is an IEEE 754 binary64 value.  The finite ones are
    the rationals [m * 2 ^ q] with [|m| < 2 ^ 53] and [-1074 <= q], and [+],
    [-], [*] and [/] return the exact result rounded to the nearest of them,
    a tie going to the even significand.  [fl] is that rounding, on [Q];
    comparisons, [Math.min], [Math.max], [Math.floor] and [Math.round] are
    exact on doubles.  Results beyond [2 ^ 1024], which the machine turns
    into an infinity, [NaN] and the sign of zero are outside the model. *)

(** The exponent [e] with [2 ^ e <= |x| < 2 ^ (e + 1)], for [x] not zero. *)
Definition binade (x : Q) : Z :=
  let e := (Z.log2 (Z.abs (Qnum x)) - Z.log2 (Zpos (Qden x)))%Z in
  if Qle_bool (2 ^ e) (Qabs x) then e else (e - 1)%Z.

(** The nearest integer, a tie going to the even one. *)
Definition round_half_even (y : Q) : Z :=
  let f := Qfloor y in
  match Qcompare (y - inject_Z f) (1 # 2) with
  | Lt => f
  | Gt => (f + 1)%Z
  | Eq => if Z.even f then f else (f + 1)%Z
  end.

(** Rounding to 53 significant bits, or to a multiple of [2 ^ -1074] below
    the normal range. *)
Definition fl (x : Q) : Q :=
  let x := Qred x in
  if Qeq_bool x 0 then 0
  else
    let q := Z.max (binade x - 52) (-1074) in
    Qred (inject_Z (round_half_even (x / 2 ^ q)) * 2 ^ q).

Definition js_add (x y : Q) : Q := fl (x + y).
Definition js_sub (x y : Q) : Q := fl (x - y).
Definition js_mul (x y : Q) : Q := fl (x * y).
Definition js_div (x y : Q) : Q := fl (x / y).

(** [Number.MAX_SAFE_INTEGER] *)
Definition MAX_SAFE_INTEGER : Z := 2 ^ 53 - 1.

(** The rationals that rounding leaves where they are: the doubles. *)
Definition isDouble (x : Q) : Prop := fl x == x.

(** ** The script in double precision

    The functions of the script once more, each as above, with the four
    operators standing for the rounded ones and the one literal that is not
    a double, [0.825], rounded.  What has no arithmetic in it is shared:
    the records, [clamp], the keyboard handlers, the two [splice]s. *)
Module Double.

#[local] Set Warnings "-notation-overridden".
#[local] Notation "x + y" := (js_add x y) : Q_scope.
#[local] Notation "x - y" := (js_sub x y) : Q_scope.
#[local] Notation "x * y" := (js_mul x y) : Q_scope.
#[local] Notation "x / y" := (js_div x y) : Q_scope.

Definition computeScore (patientsTreated assessmentsPassed : JsValue)
  : Completion Q :=
  if negb (String.eqb (typeof patientsTreated) "number")
     || negb (String.eqb (typeof assessmentsPassed) "number")
  then Throws "Score inputs must be numeric."
  else
    if ((toNumber patientsTreated <? 0) || (toNumber assessmentsPassed <? 0))%js
    then Throws "Score inputs must be non-negative."
    else
      Returns (toNumber patientsTreated * 1 + toNumber assessmentsPassed * 2).

Definition intersects {A B : Type} `{Rect A} `{Rect B} (a : A) (b : B) : bool :=
  negb (((rect_x a + rect_width a <? rect_x b)
         || (rect_x a >? rect_x b + rect_width b)
         || (rect_y a + rect_height a <? rect_y b)
         || (rect_y a >? rect_y b + rect_height b))%js).

Section Script.

Context {host : Host}.

Definition FLOOR_Y : Q := canvas_height - 60.

Definition randomBetween (min max : Q) (w : World) : Q * World :=
  let (r, w) := Math_random w in
  (Math_floor (r * (max - min + 1)) + min, w).

Definition startGame (w : World) : World :=
  let w := set_gameState PLAYING w in
  let w := set_page (Page.mk false false (Page.finalScoreLine (page w))) w in
  let w :=
    set_player
      (Player.mk (canvas_width / 2 - PLAYER_WIDTH / 2)
         (FLOOR_Y - PLAYER_HEIGHT) 0 0 true 1) w in
  let w := set_knowledgeState (KnowledgeState.mk 50 0) w in
  let w := set_mistakesState (MistakesState.mk 0) w in
  let w := set_scoreState (ScoreState.mk 0 0) w in
  let w := set_fallingItems [] w in
  let (delay, w) :=
    randomBetween ITEM_SPAWN_INTERVAL_MIN_MS ITEM_SPAWN_INTERVAL_MAX_MS w in
  let w := set_itemSpawnState (SpawnState.mk 0 delay) w in
  let w := set_assessmentState (AssessmentState.mk false) w in
  let w := set_patientState (PatientState.mk None PATIENT_GAP_MS 0) w in
  let w := set_groundMistakes [] w in
  let (delay, w) :=
    randomBetween GROUND_MISTAKE_SPAWN_INTERVAL_MIN_MS
      GROUND_MISTAKE_SPAWN_INTERVAL_MAX_MS w in
  let w := set_groundMistakeSpawnState (SpawnState.mk 0 delay) w in
  let w := set_lastTimestamp None w in
  set_endGameCalls 0 w.

Definition initialWorld : World :=
  let w :=
    mkWorld START (InputState.mk false false false)
      (Player.mk (canvas_width / 2 - PLAYER_WIDTH / 2)
         (FLOOR_Y - PLAYER_HEIGHT) 0 0 true 1)
      (KnowledgeState.mk 50 0) (MistakesState.mk 0) (ScoreState.mk 0 0)
      [] (SpawnState.mk 0 0) (AssessmentState.mk false)
      (PatientState.mk None PATIENT_GAP_MS 0)
      [] (SpawnState.mk 0 0) None markup 0 0 in
  let (delay, w) :=
    randomBetween ITEM_SPAWN_INTERVAL_MIN_MS ITEM_SPAWN_INTERVAL_MAX_MS w in
  let w := set_itemSpawnState (SpawnState.mk 0 delay) w in
  let (delay, w) :=
    randomBetween GROUND_MISTAKE_SPAWN_INTERVAL_MIN_MS
      GROUND_MISTAKE_SPAWN_INTERVAL_MAX_MS w in
  set_groundMistakeSpawnState (SpawnState.mk 0 delay) w.

Definition endGame (w : World) : Result :=
  let w := set_endGameCalls (S (endGameCalls w)) w in
  let w := set_gameState GAME_OVER w in
  match
    computeScore (JsNumber (ScoreState.patientsTreated (scoreState w)))
      (JsNumber (ScoreState.assessmentsPassed (scoreState w)))
  with
  | Throws msg => Raised msg w
  | Returns totalScore =>
      Done
        (set_page
           (Page.mk (Page.startScreenVisible (page w)) true (Some totalScore))
           w)
  end.

Definition spawnRandomItem (w : World) : World :=
  let (roll, w) := Math_random w in
  let type := if (roll >? fl 0.825)%js then MISTAKE else KNOWLEDGE in
  let width := 22 in
  let height := 26 in
  let (x, w) := randomBetween 20 (canvas_width - 20 - width) w in
  let y := - height in
  let vy :=
    match type with
    | KNOWLEDGE => 180
    | _ => 260
    end in
  set_fallingItems (fallingItems w ++ [Item.mk type x y width height vy]) w.

Definition spawnAssessmentItem (w : World) : World :=
  let width := 26 in
  let height := 30 in
  let (x, w) := randomBetween 20 (canvas_width - 20 - width) w in
  let y := - height in
  set_fallingItems
    (fallingItems w ++ [Item.mk ASSESSMENT x y width height 133]) w.

Definition updatePlayer (dtSeconds : Q) (w : World) : World :=
  let p := player w in
  let i := inputState w in
  let vx := 0 in
  let facing := Player.facing p in
  let (vx, facing) :=
    if InputState.left i then (vx - PLAYER_SPEED, -1) else (vx, facing) in
  let (vx, facing) :=
    if InputState.right i then (vx + PLAYER_SPEED, 1) else (vx, facing) in
  let (vy, onGround) :=
    if InputState.jump i && Player.onGround p
    then (JUMP_VELOCITY, false)
    else (Player.vy p, Player.onGround p) in
  let vy := vy + GRAVITY * dtSeconds in
  let x := Player.x p + vx * dtSeconds in
  let y := Player.y p + vy * dtSeconds in
  let '(y, vy, onGround) :=
    if (y + PLAYER_HEIGHT >=? FLOOR_Y)%js
    then (FLOOR_Y - PLAYER_HEIGHT, 0, true)
    else (y, vy, onGround) in
  let x := clamp x 0 (canvas_width - PLAYER_WIDTH) in
  set_player (Player.mk x y vx vy onGround facing) w.

Definition getPlayerHitBox (w : World) : Box.t :=
  let paddingX := 4 in
  let paddingTop := 6 in
  let paddingBottom := 6 in
  Box.mk (Player.x (player w) + paddingX) (Player.y (player w) + paddingTop)
    (PLAYER_WIDTH - paddingX * 2) (PLAYER_HEIGHT - paddingTop - paddingBottom).

Definition erodeKnowledge (dtMs : Q) (w : World) : World :=
  let k := knowledgeState w in
  let timeSinceErosionMs := KnowledgeState.timeSinceErosionMs k + dtMs in
  if (timeSinceErosionMs >=? KNOWLEDGE_EROSION_INTERVAL_MS)%js then
    let percent :=
      if (KnowledgeState.percent k >? KNOWLEDGE_MIN)%js
      then clamp (KnowledgeState.percent k - KNOWLEDGE_EROSION_STEP)
             KNOWLEDGE_MIN KNOWLEDGE_MAX
      else KnowledgeState.percent k in
    set_knowledgeState (KnowledgeState.mk percent 0) w
  else
    set_knowledgeState
      (KnowledgeState.mk (KnowledgeState.percent k) timeSinceErosionMs) w.

Definition triggerAssessment (w : World) : World :=
  if negb (AssessmentState.pending (assessmentState w))
     && (Math_round (KnowledgeState.percent (knowledgeState w))
         >=? KNOWLEDGE_MAX)%js
  then
    let w := set_assessmentState (AssessmentState.mk true) w in
    spawnAssessmentItem w
  else w.

Definition tickItemSpawner (dtMs : Q) (w : World) : World :=
  let s := itemSpawnState w in
  let timeSinceLastSpawnMs := SpawnState.timeSinceLastSpawnMs s + dtMs in
  if (timeSinceLastSpawnMs >=? SpawnState.nextSpawnDelayMs s)%js then
    let w := spawnRandomItem w in
    let (delay, w) :=
      randomBetween ITEM_SPAWN_INTERVAL_MIN_MS ITEM_SPAWN_INTERVAL_MAX_MS w in
    set_itemSpawnState (SpawnState.mk 0 delay) w
  else
    set_itemSpawnState
      (SpawnState.mk timeSinceLastSpawnMs (SpawnState.nextSpawnDelayMs s)) w.

Definition updateKnowledgeAndItems (dtMs : Q) (w : World) : World :=
  tickItemSpawner dtMs (triggerAssessment (erodeKnowledge dtMs w)).

Definition updateFallingItems_body
    (dtSeconds : Q) (playerBox : Box.t) (i : nat) (w : World) : Flow :=
  match fallingItems w !! i with
  | None => Return (Raised "TypeError: item is undefined" w)
  | Some item =>
      let item :=
        Item.mk (Item.type item) (Item.x item)
          (Item.y item + Item.vy item * dtSeconds)
          (Item.width item) (Item.height item) (Item.vy item) in
      let w := set_fallingItems (<[i:=item]> (fallingItems w)) w in
      if intersects playerBox item then
        match Item.type item with
        | KNOWLEDGE =>
            let k := knowledgeState w in
            let w :=
              set_knowledgeState
                (KnowledgeState.mk
                   (clamp (KnowledgeState.percent k + KNOWLEDGE_PICKUP_AMOUNT)
                      KNOWLEDGE_MIN KNOWLEDGE_MAX)
                   (KnowledgeState.timeSinceErosionMs k)) w in
            Continue (spliceFallingItem i w)
        | MISTAKE =>
            let w :=
              set_mistakesState
                (MistakesState.mk
                   (clamp (MistakesState.count (mistakesState w) + 1) 0
                      MAX_MISTAKES)) w in
            if (MistakesState.count (mistakesState w) >=? MAX_MISTAKES)%js
            then Return (endGame w)
            else Continue (spliceFallingItem i w)
        | ASSESSMENT =>
            let w := set_mistakesState (MistakesState.mk 0) w in
            let w :=
              set_knowledgeState
                (KnowledgeState.mk 50
                   (KnowledgeState.timeSinceErosionMs (knowledgeState w))) w in
            let w := set_assessmentState (AssessmentState.mk false) w in
            let w :=
              set_scoreState
                (ScoreState.mk (ScoreState.patientsTreated (scoreState w))
                   (ScoreState.assessmentsPassed (scoreState w) + 1)) w in
            Continue (spliceFallingItem i w)
        end
      else if (Item.y item >? canvas_height + 40)%js then
        let w :=
          match Item.type item with
          | ASSESSMENT => set_assessmentState (AssessmentState.mk false) w
          | _ => w
          end in
        Continue (spliceFallingItem i w)
      else Continue w
  end.

Fixpoint updateFallingItems_loop
    (dtSeconds : Q) (playerBox : Box.t) (n : nat) (w : World) : Result :=
  match n with
  | O => Done w
  | S i =>
      match updateFallingItems_body dtSeconds playerBox i w with
      | Continue w => updateFallingItems_loop dtSeconds playerBox i w
      | Return r => r
      end
  end.

Definition updateFallingItems (dtSeconds : Q) (w : World) : Result :=
  let playerBox := getPlayerHitBox w in
  updateFallingItems_loop dtSeconds playerBox (length (fallingItems w)) w.

Definition updatePatient (dtMs : Q) (w : World) : World :=
  let ps := patientState w in
  match PatientState.active ps with
  | None =>
      let timeSinceLastPatientGoneMs :=
        PatientState.timeSinceLastPatientGoneMs ps + dtMs in
      if (timeSinceLastPatientGoneMs >=? PATIENT_GAP_MS)%js then
        let width := 28 in
        let height := 32 in
        let (x, w) := randomBetween 20 (canvas_width - 20 - width) w in
        let y := FLOOR_Y - height in
        set_patientState
          (PatientState.mk (Some (Patient.mk x y width height 0)) 0 0) w
      else
        set_patientState
          (PatientState.mk None timeSinceLastPatientGoneMs
             (PatientState.contactDurationMs ps)) w
  | Some patient =>
      let patient :=
        Patient.mk (Patient.x patient) (Patient.y patient)
          (Patient.width patient) (Patient.height patient)
          (Patient.lifetimeMs patient + dtMs) in
      let playerBox :=
        Box.mk (Player.x (player w)) (Player.y (player w))
          PLAYER_WIDTH PLAYER_HEIGHT in
      let patientBox :=
        Box.mk (Patient.x patient) (Patient.y patient)
          (Patient.width patient) (Patient.height patient) in
      let canTreat :=
        (Math_round (KnowledgeState.percent (knowledgeState w))
         >=? KNOWLEDGE_WARNING_THRESHOLD)%js in
      let gone := PatientState.timeSinceLastPatientGoneMs ps in
      if canTreat && intersects playerBox patientBox then
        let contactDurationMs := PatientState.contactDurationMs ps + dtMs in
        if (contactDurationMs >=? PATIENT_TREAT_DURATION_MS)%js then
          let w :=
            set_scoreState
              (ScoreState.mk (ScoreState.patientsTreated (scoreState w) + 1)
                 (ScoreState.assessmentsPassed (scoreState w))) w in
          set_patientState (PatientState.mk None 0 0) w
        else if (Patient.lifetimeMs patient >=? PATIENT_VISIBLE_MS)%js then
          set_patientState (PatientState.mk None 0 0) w
        else
          set_patientState
            (PatientState.mk (Some patient) gone contactDurationMs) w
      else if (Patient.lifetimeMs patient >=? PATIENT_VISIBLE_MS)%js then
        set_patientState (PatientState.mk None 0 0) w
      else set_patientState (PatientState.mk (Some patient) gone 0) w
  end.

Definition spawnGroundMistake (w : World) : World :=
  let width := 22 in
  let height := 26 in
  let (x, w) := randomBetween 20 (canvas_width - 20 - width) w in
  let y := FLOOR_Y - height in
  set_groundMistakes
    (groundMistakes w ++ [GroundMistake.mk x y width height 0]) w.

Definition updateGroundMistakes_body
    (dtMs : Q) (playerBox : Box.t) (i : nat) (w : World) : Flow :=
  match groundMistakes w !! i with
  | None => Return (Raised "TypeError: ob is undefined" w)
  | Some ob =>
      let ob :=
        GroundMistake.mk (GroundMistake.x ob) (GroundMistake.y ob)
          (GroundMistake.width ob) (GroundMistake.height ob)
          (GroundMistake.lifetimeMs ob + dtMs) in
      let w := set_groundMistakes (<[i:=ob]> (groundMistakes w)) w in
      if intersects playerBox ob then
        let w :=
          set_mistakesState
            (MistakesState.mk
               (clamp (MistakesState.count (mistakesState w) + 1) 0
                  MAX_MISTAKES)) w in
        let w := spliceGroundMistake i w in
        if (MistakesState.count (mistakesState w) >=? MAX_MISTAKES)%js
        then Return (endGame w)
        else Continue w
      else if (GroundMistake.lifetimeMs ob >=? GROUND_MISTAKE_DURATION_MS)%js
      then Continue (spliceGroundMistake i w)
      else Continue w
  end.

Fixpoint updateGroundMistakes_loop
    (dtMs : Q) (playerBox : Box.t) (n : nat) (w : World) : Result :=
  match n with
  | O => Done w
  | S i =>
      match updateGroundMistakes_body dtMs playerBox i w with
      | Continue w => updateGroundMistakes_loop dtMs playerBox i w
      | Return r => r
      end
  end.

Definition tickGroundMistakeSpawner (dtMs : Q) (w : World) : World :=
  let s := groundMistakeSpawnState w in
  let timeSinceLastSpawnMs := SpawnState.timeSinceLastSpawnMs s + dtMs in
  if (timeSinceLastSpawnMs >=? SpawnState.nextSpawnDelayMs s)%js then
    let w := spawnGroundMistake w in
    let (delay, w) :=
      randomBetween GROUND_MISTAKE_SPAWN_INTERVAL_MIN_MS
        GROUND_MISTAKE_SPAWN_INTERVAL_MAX_MS w in
    set_groundMistakeSpawnState (SpawnState.mk 0 delay) w
  else
    set_groundMistakeSpawnState
      (SpawnState.mk timeSinceLastSpawnMs (SpawnState.nextSpawnDelayMs s)) w.

Definition updateGroundMistakes (dtMs : Q) (w : World) : Result :=
  let w := tickGroundMistakeSpawner dtMs w in
  let playerBox := getPlayerHitBox w in
  updateGroundMistakes_loop dtMs playerBox (length (groundMistakes w)) w.

Definition gameLoop (timestamp : Q) (w : World) : Result :=
  if negb (GameState_eqb (gameState w) PLAYING) then Done w
  else
    let w :=
      match lastTimestamp w with
      | None => set_lastTimestamp (Some timestamp) w
      | Some _ => w
      end in
    let dtMs :=
      timestamp - match lastTimestamp w with Some t => t | None => 0 end in
    let dtSeconds := dtMs / 1000 in
    let w := set_lastTimestamp (Some timestamp) w in
    let w := updatePlayer dtSeconds w in
    let w := updateKnowledgeAndItems dtMs w in
    andThen (updateFallingItems dtSeconds w) (fun w =>
    if GameState_eqb (gameState w) GAME_OVER then Done w
    else
      let w := updatePatient dtMs w in
      andThen (updateGroundMistakes dtMs w) (fun w => Done w)).

Definition dispatch (e : Event) (w : World) : Result :=
  match e with
  | AnimationFrame timestamp => gameLoop timestamp w
  | KeyDown event => Done (handleKeyDown event w)
  | KeyUp event => Done (handleKeyUp event w)
  | StartButtonClick =>
      match gameState w with
      | START | GAME_OVER => Done (startGame w)
      | PLAYING => Done w
      end
  | RestartButtonClick =>
      match gameState w with
      | GAME_OVER => Done (startGame w)
      | _ => Done w
      end
  end.

Fixpoint run (es : list Event) (w : World) : Result :=
  match es with
  | [] => Done w
  | e :: es => andThen (dispatch e w) (run es)
  end.

(** Overlap as [updatePatient] computes it, and the patient object after
    its lifetime has been advanced. *)
Definition touchesPatient (w : World) (patient : Patient.t) : bool :=
  intersects
    (Box.mk (Player.x (player w)) (Player.y (player w))
       PLAYER_WIDTH PLAYER_HEIGHT)
    (Box.mk (Patient.x patient) (Patient.y patient)
       (Patient.width patient) (Patient.height patient)).

Definition aged (dtMs : Q) (patient : Patient.t) : Patient.t :=
  Patient.mk (Patient.x patient) (Patient.y patient)
    (Patient.width patient) (Patient.height patient)
    (Patient.lifetimeMs patient + dtMs).

End Script.

End Double.

(** ** Two recorded sessions

    A stage of 800 by 450.  In the first session every random draw is 9/10:
    every falling item is a mistake, and items, ground mistakes and patients
    all appear at the right of the stage, where the player walks to.  In the
    second every draw is 1/2: every falling item is a knowledge book above
    the player, who stands still. *)

Definition hazardHost : Host :=
  {| canvas_width := 800; canvas_height := 450;
     random_source := fun _ => 9 # 10;
     markup := Page.mk true false None |}.

Definition pickupHost : Host :=
  {| canvas_width := 800; canvas_height := 450;
     random_source := fun _ => 1 # 2;
     markup := Page.mk true false None |}.

(** [n] frames, [step] milliseconds apart, the first at [t]. *)
Fixpoint frames (n : nat) (t step : Q) : list Event :=
  match n with
  | O => []
  | S n => AnimationFrame t :: frames n (Qred (t + step)) step
  end.

Definition arrowRight : KeyboardEvent.t :=
  KeyboardEvent.mk "ArrowRight" "ArrowRight".

(** The player walks to the right for 1.3 s and stays where the mistakes
    fall; frames come every 1.5 s, the time a mistake takes from the top
    to the player. *)
Definition lostSession : list Event :=
  [StartButtonClick; AnimationFrame 0; KeyDown arrowRight;
   AnimationFrame 1300; KeyUp arrowRight]
  ++ frames 7 2800 1500.

Definition lostWorld : World :=
  world_of
    (run (host := hazardHost) lostSession (initialWorld (host := hazardHost))).

(** The player never moves: nothing is caught and the meter erodes to the
    floor. *)
Definition idleSession : list Event := [StartButtonClick] ++ frames 11 0 3000.

Definition idleWorld : World :=
  world_of
    (run (host := hazardHost) idleSession (initialWorld (host := hazardHost))).

(** Frames every 2 s, the time a book takes from the top to the player:
    the meter fills up and an assessment is on its way. *)
Definition studySession : list Event := [StartButtonClick] ++ frames 10 0 2000.

Definition studyWorld : World :=
  world_of
    (run (host := pickupHost) studySession (initialWorld (host := pickupHost))).

Definition firstFrame : World :=
  world_of
    (run (host := pickupHost) [StartButtonClick; AnimationFrame 0]
       (initialWorld (host := pickupHost))).

(** Standing on the patient for 1999 ms, a jump that breaks the contact,
    then 1999 ms and one more on the patient again. *)
Definition space : KeyboardEvent.t := KeyboardEvent.mk " " "Space".

Definition almostTreated : list Event :=
  [StartButtonClick; AnimationFrame 0; AnimationFrame 1999].

Definition contactBroken : list Event :=
  almostTreated ++ [KeyDown space; AnimationFrame 2199; KeyUp space].

Definition almostTreatedAgain : list Event :=
  contactBroken
  ++ [AnimationFrame 2399; AnimationFrame 2599; AnimationFrame 4398].

Definition treatedAtLast : list Event :=
  almostTreatedAgain ++ [AnimationFrame 4399].

Definition after (es : list Event) : World :=
  world_of (run (host := pickupHost) es (initialWorld (host := pickupHost))).

(** The second stage in double precision.  The player stands on the first
    patient; the frames come at 0, 370.9, 762.9 and 2000 ms, or at 0, 272.1,
    1348.7 and 2000 ms, the time stamps being the doubles nearest to these
    decimals. *)
Definition played (es : list Event) : World :=
  world_of
    (Double.run (host := pickupHost) es
       (Double.initialWorld (host := pickupHost))).

Definition unevenFrames : list Event :=
  [StartButtonClick; AnimationFrame 0; AnimationFrame (fl (3709 # 10));
   AnimationFrame (fl (7629 # 10))].

Definition unluckyFrames : list Event :=
  [StartButtonClick; AnimationFrame 0; AnimationFrame (fl (2721 # 10));
   AnimationFrame (fl (13487 # 10))].

(** The first stage in double precision, the same uneven frames and one more
    at 2000 ms: the patient stands at the right, away from the player. *)
Definition outOfReach : World :=
  world_of
    (Double.run (host := hazardHost) (unevenFrames ++ [AnimationFrame 2000])
       (Double.initialWorld (host := hazardHost))).

(** On the first stage again, the player standing still: after 5.5 s a
    mistake is falling at the right, a ground mistake stands below it and
    the first patient is still waiting. *)
Definition hazardSession : list Event :=
  [StartButtonClick; AnimationFrame 0; AnimationFrame 1500;
   AnimationFrame 3000; AnimationFrame 4500; AnimationFrame 5500].

Definition hazardWorld : World :=
  world_of
    (run (host := hazardHost) hazardSession
       (initialWorld (host := hazardHost))).

(** A display on which nothing has been written yet. *)
Definition blankHud : Hud.t := Hud.mk 0 0 false false 0 0 0 0.

(** On the second stage the first ground mistake appears under the player,
    who stands still: one mistake after five seconds. *)
Definition stumbleSession : list Event :=
  [StartButtonClick] ++ frames 6 0 1000.

Section Properties.

Context {host : Host}.

(** ** Comparisons, [clamp] and [Math.round] *)

Lemma Qlt_bool_iff (x y : Q) : Qlt_bool x y = true <-> x < y.
Proof.
  unfold Qlt_bool. rewrite negb_true_iff. split.
  - intros E. apply Qnot_le_lt. intros L. apply Qle_bool_iff in L. congruence.
  - intros L. destruct (Qle_bool y x) eqn:E; [|reflexivity].
    apply Qle_bool_iff in E. lra.
Qed.

Lemma Qlt_bool_false_iff (x y : Q) : Qlt_bool x y = false <-> y <= x.
Proof.
  unfold Qlt_bool. rewrite negb_false_iff. apply Qle_bool_iff.
Qed.

Lemma Qle_bool_false_iff (x y : Q) : Qle_bool x y = false <-> y < x.
Proof.
  rewrite <- Qlt_bool_iff. unfold Qlt_bool.
  destruct (Qle_bool x y); simpl; intuition congruence.
Qed.

Lemma clamp_bounds (value min max : Q) :
  min <= max -> min <= clamp value min max <= max.
Proof.
  intros L. unfold clamp.
  destruct (Q.min_spec max (Qmax min value)) as [[? ->]|[? ->]];
    destruct (Q.max_spec min value) as [[? E]|[? E]]; rewrite ?E in *; lra.
Qed.

Lemma clamp_inside (value min max : Q) :
  min <= value <= max -> clamp value min max == value.
Proof.
  intros L. unfold clamp.
  destruct (Q.min_spec max (Qmax min value)) as [[? ->]|[? ->]];
    destruct (Q.max_spec min value) as [[? E]|[? E]]; rewrite ?E in *; lra.
Qed.

Lemma clamp_above (value min max : Q) :
  min <= max -> max <= value -> clamp value min max == max.
Proof.
  intros L1 L2. unfold clamp.
  destruct (Q.min_spec max (Qmax min value)) as [[? ->]|[? ->]];
    destruct (Q.max_spec min value) as [[? E]|[? E]]; rewrite ?E in *; lra.
Qed.

#[export] Instance Math_round_Proper : Proper (Qeq ==> Qeq) Math_round.
Proof.
  intros x y E. unfold Math_round. rewrite E. reflexivity.
Qed.

Lemma Math_round_integer (z : Z) : Math_round (inject_Z z) == inject_Z z.
Proof.
  unfold Math_round.
  set (f := Qfloor (inject_Z z + (1 # 2))).
  assert (inject_Z f <= inject_Z z + (1 # 2)) as L by apply Qfloor_le.
  assert (inject_Z z + (1 # 2) < inject_Z (f + 1)) as U by apply Qlt_floor.
  rewrite inject_Z_plus in U. change (inject_Z 1) with 1 in U.
  assert (f < z + 1)%Z as L'.
  { rewrite Zlt_Qlt, inject_Z_plus. change (inject_Z 1) with 1. lra. }
  assert (z < f + 1)%Z as U'.
  { rewrite Zlt_Qlt, inject_Z_plus. change (inject_Z 1) with 1. lra. }
  replace f with z by lia. reflexivity.
Qed.

(** ** Scoring *)

Lemma computeScore_number (p a : Q) :
  computeScore (JsNumber p) (JsNumber a)
  = if ((p <? 0) || (a <? 0))%js
    then Throws "Score inputs must be non-negative."
    else Returns (p * 1 + a * 2).
Proof. reflexivity. Qed.

Lemma computeScore_throws_iff (p a : JsValue) :
  (exists msg, computeScore p a = Throws msg)
  <-> (~ numeric p \/ ~ numeric a \/ negative p \/ negative a).
Proof.
  unfold numeric. split.
  - intros [msg E].
    destruct p as [| |?|p|?|]; try (left; simpl; congruence).
    destruct a as [| |?|a|?|]; try (right; left; simpl; congruence).
    rewrite computeScore_number in E. simpl.
    destruct (Qlt_bool p 0) eqn:E1; [apply Qlt_bool_iff in E1; tauto|].
    destruct (Qlt_bool a 0) eqn:E2; [apply Qlt_bool_iff in E2; tauto|].
    discriminate.
  - intros H.
    destruct p as [| |?|p|?|]; try (eexists; reflexivity).
    destruct a as [| |?|a|?|]; try (eexists; reflexivity).
    rewrite computeScore_number.
    destruct H as [H|[H|[H|H]]]; try (exfalso; apply H; reflexivity);
      simpl in H; apply Qlt_bool_iff in H; rewrite H; simpl.
    + eexists; reflexivity.
    + rewrite orb_true_r. eexists; reflexivity.
Qed.

Lemma computeScore_returns_iff (p a : JsValue) :
  (exists s, computeScore p a = Returns s)
  <-> ~ (~ numeric p \/ ~ numeric a \/ negative p \/ negative a).
Proof.
  rewrite <- computeScore_throws_iff. split.
  - intros [s E] [msg E']. congruence.
  - intros H. destruct (computeScore p a) as [s|msg] eqn:E.
    + eauto.
    + exfalso. eauto.
Qed.

(** ** The player *)

(** C9: whatever the position, the velocity, the inputs and the elapsed
    time, after [updatePlayer] the bottom edge of the player is at or above
    the floor line and [x] is inside the stage (the canvas being at least as
    wide as the player). *)
Theorem updatePlayer_in_bounds (dtSeconds : Q) (w : World)
    (Hcanvas : PLAYER_WIDTH <= canvas_width) :
  Player.y (player (updatePlayer dtSeconds w)) + PLAYER_HEIGHT <= FLOOR_Y
  /\ 0 <= Player.x (player (updatePlayer dtSeconds w))
       <= canvas_width - PLAYER_WIDTH.
Proof.
  unfold updatePlayer.
  destruct (InputState.left (inputState w)),
    (InputState.right (inputState w)),
    (InputState.jump (inputState w) && Player.onGround (player w));
    cbv zeta; cbv beta iota;
    match goal with
    | |- context [Qle_bool ?a ?b] =>
        destruct (Qle_bool a b) eqn:E;
        [apply Qle_bool_iff in E | apply Qle_bool_false_iff in E]
    end;
    simpl; (split; [lra | apply clamp_bounds; lra]).
Qed.

(** ** The knowledge meter *)

Lemma triggerAssessment_knowledgeState (w : World) :
  knowledgeState (triggerAssessment w) = knowledgeState w.
Proof.
  unfold triggerAssessment.
  destruct (negb _ && _); reflexivity.
Qed.

Lemma tickItemSpawner_knowledgeState (dtMs : Q) (w : World) :
  knowledgeState (tickItemSpawner dtMs w) = knowledgeState w.
Proof.
  unfold tickItemSpawner.
  destruct (Qle_bool _ _); reflexivity.
Qed.

Lemma updateKnowledgeAndItems_knowledgeState (dtMs : Q) (w : World) :
  knowledgeState (updateKnowledgeAndItems dtMs w)
  = knowledgeState (erodeKnowledge dtMs w).
Proof.
  unfold updateKnowledgeAndItems.
  rewrite tickItemSpawner_knowledgeState, triggerAssessment_knowledgeState.
  reflexivity.
Qed.

(** ** Invariants of the running page *)

Arguments Qplus : simpl never.
Arguments Qminus : simpl never.
Arguments Qmult : simpl never.
Arguments Qdiv : simpl never.
Arguments Qopp : simpl never.
Arguments Qle_bool : simpl never.
Arguments Qlt_bool : simpl never.
Arguments Qmin : simpl never.
Arguments Qmax : simpl never.
Arguments clamp : simpl never.
Arguments Math_round : simpl never.
Arguments Math_floor : simpl never.
Arguments intersects : simpl never.

Lemma updateFallingItems_loop_rule
    (P : nat -> World -> Prop) (R : Result -> Prop)
    (dtSeconds : Q) (playerBox : Box.t) :
  (forall i w, P (S i) w ->
     flow_holds (P i) R (updateFallingItems_body dtSeconds playerBox i w)) ->
  (forall w, P O w -> R (Done w)) ->
  forall n w, P n w -> R (updateFallingItems_loop dtSeconds playerBox n w).
Proof.
  intros Hbody Hend n. induction n as [|i IH]; intros w HP; simpl.
  - apply Hend, HP.
  - specialize (Hbody i w HP).
    destruct (updateFallingItems_body dtSeconds playerBox i w); simpl in Hbody.
    + apply IH, Hbody.
    + exact Hbody.
Qed.

Lemma updateGroundMistakes_loop_rule
    (P : nat -> World -> Prop) (R : Result -> Prop)
    (dtMs : Q) (playerBox : Box.t) :
  (forall i w, P (S i) w ->
     flow_holds (P i) R (updateGroundMistakes_body dtMs playerBox i w)) ->
  (forall w, P O w -> R (Done w)) ->
  forall n w, P n w -> R (updateGroundMistakes_loop dtMs playerBox n w).
Proof.
  intros Hbody Hend n. induction n as [|i IH]; intros w HP; simpl.
  - apply Hend, HP.
  - specialize (Hbody i w HP).
    destruct (updateGroundMistakes_body dtMs playerBox i w); simpl in Hbody.
    + apply IH, Hbody.
    + exact Hbody.
Qed.

Lemma flow_holds_and
    (P P' : World -> Prop) (R R' : Result -> Prop) (f : Flow) :
  flow_holds P R f -> flow_holds P' R' f ->
  flow_holds (fun w => P w /\ P' w) (fun r => R r /\ R' r) f.
Proof. destruct f; simpl; auto. Qed.

Lemma flow_holds_weaken
    (P P' : World -> Prop) (R R' : Result -> Prop) (f : Flow) :
  (forall w, P w -> P' w) -> (forall r, R r -> R' r) ->
  flow_holds P R f -> flow_holds P' R' f.
Proof. destruct f; simpl; auto. Qed.

(** The loops never read past the end of their array: the body at index
    [i] leaves at least [i] elements. *)
Lemma updateFallingItems_body_length
    (dt : Q) (box : Box.t) (i : nat) (w : World) :
  (i < length (fallingItems w))%nat ->
  flow_holds (fun w' => (i <= length (fallingItems w'))%nat) (fun _ => True)
    (updateFallingItems_body dt box i w).
Proof.
  intros L. unfold updateFallingItems_body.
  destruct (lookup_lt_is_Some_2 (fallingItems w) i L) as [item ->].
  cbv zeta. simpl Item.type. simpl Item.y.
  assert (forall it, (i <= length (delete i (<[i:=it]> (fallingItems w))))%nat)
    as Hdel.
  { intros it. rewrite length_delete, length_insert; [lia|].
    apply lookup_lt_is_Some_2. rewrite length_insert. exact L. }
  destruct (intersects _ _).
  - destruct (Item.type item); simpl; try apply Hdel.
    destruct (Qle_bool _ _); simpl; [exact I|apply Hdel].
  - destruct (Qlt_bool _ _); simpl.
    + destruct (Item.type item); apply Hdel.
    + rewrite length_insert. lia.
Qed.

Lemma updateGroundMistakes_body_length
    (dt : Q) (box : Box.t) (i : nat) (w : World) :
  (i < length (groundMistakes w))%nat ->
  flow_holds (fun w' => (i <= length (groundMistakes w'))%nat) (fun _ => True)
    (updateGroundMistakes_body dt box i w).
Proof.
  intros L. unfold updateGroundMistakes_body.
  destruct (lookup_lt_is_Some_2 (groundMistakes w) i L) as [ob ->].
  cbv zeta. simpl GroundMistake.lifetimeMs.
  assert (forall it,
            (i <= length (delete i (<[i:=it]> (groundMistakes w))))%nat)
    as Hdel.
  { intros it. rewrite length_delete, length_insert; [lia|].
    apply lookup_lt_is_Some_2. rewrite length_insert. exact L. }
  destruct (intersects _ _).
  - simpl. destruct (Qle_bool _ _); simpl; [exact I|apply Hdel].
  - destruct (Qle_bool _ _); simpl.
    + apply Hdel.
    + rewrite length_insert. lia.
Qed.

(** The proof rule for the two loops: a property kept by the body at every
    index inside the array holds when the loop ends, and whatever the body
    establishes on leaving holds of the result. *)
Lemma updateFallingItems_rule
    (P : World -> Prop) (R : Result -> Prop) (dt : Q) (w : World) :
  (forall box i w, P w -> (i < length (fallingItems w))%nat ->
     flow_holds P R (updateFallingItems_body dt box i w)) ->
  (forall w, P w -> R (Done w)) ->
  P w -> R (updateFallingItems dt w).
Proof.
  intros Hbody Hend HP. unfold updateFallingItems. cbv zeta.
  generalize (getPlayerHitBox w). intros box.
  apply (updateFallingItems_loop_rule
           (fun n w => P w /\ (n <= length (fallingItems w))%nat) R);
    [| intros w' [H' _]; auto | split; [exact HP|lia]].
  clear w HP. intros i w [HP L].
  pose proof (flow_holds_and _ _ _ _ _ (Hbody box i w HP L)
                (updateFallingItems_body_length dt box i w L)) as H.
  revert H. apply flow_holds_weaken; simpl; tauto.
Qed.

Lemma updateGroundMistakes_loop_in_range
    (P : World -> Prop) (R : Result -> Prop)
    (dt : Q) (box : Box.t) (w : World) :
  (forall i w, P w -> (i < length (groundMistakes w))%nat ->
     flow_holds P R (updateGroundMistakes_body dt box i w)) ->
  (forall w, P w -> R (Done w)) ->
  P w ->
  R (updateGroundMistakes_loop dt box (length (groundMistakes w)) w).
Proof.
  intros Hbody Hend HP.
  apply (updateGroundMistakes_loop_rule
           (fun n w => P w /\ (n <= length (groundMistakes w))%nat) R);
    [| intros w' [H' _]; auto | split; [exact HP|lia]].
  clear w HP. intros i w [HP L].
  pose proof (flow_holds_and _ _ _ _ _ (Hbody i w HP L)
                (updateGroundMistakes_body_length dt box i w L)) as H.
  revert H. apply flow_holds_weaken; simpl; tauto.
Qed.

Lemma updateGroundMistakes_rule
    (P : World -> Prop) (R : Result -> Prop) (dt : Q) (w : World) :
  (forall box i w, P w -> (i < length (groundMistakes w))%nat ->
     flow_holds P R (updateGroundMistakes_body dt box i w)) ->
  (forall w, P w -> R (Done w)) ->
  P (tickGroundMistakeSpawner dt w) -> R (updateGroundMistakes dt w).
Proof.
  intros Hbody Hend HP. unfold updateGroundMistakes. cbv zeta.
  apply (updateGroundMistakes_loop_in_range P R); auto.
Qed.

Lemma set_lastTimestamp_twice (v v' : option Q) (w : World) :
  set_lastTimestamp v (set_lastTimestamp v' w) = set_lastTimestamp v w.
Proof. reflexivity. Qed.

(** The frame callback in terms of its two halves. *)
Lemma gameLoop_phases (timestamp : Q) (w : World) :
  gameLoop timestamp w
  = if negb (GameState_eqb (gameState w) PLAYING) then Done w
    else
      andThen (fallingPhase timestamp w) (fun w1 =>
        if GameState_eqb (gameState w1) GAME_OVER then Done w1
        else groundPhase (frameDelta timestamp w) w1).
Proof.
  unfold gameLoop, fallingPhase, groundPhase, frameDelta.
  destruct (lastTimestamp w) eqn:E.
  - rewrite E. reflexivity.
  - rewrite set_lastTimestamp_twice.
    change (lastTimestamp (set_lastTimestamp (Some timestamp) w))
      with (Some timestamp).
    reflexivity.
Qed.

Lemma stable_updateFallingItems (P : World -> Prop) (dt : Q) (w : World) :
  stable P -> P w -> P (world_of (updateFallingItems dt w)).
Proof.
  intros (_ & Hbody & _) HP. unfold updateFallingItems.
  apply (updateFallingItems_loop_rule (fun _ => P)
           (fun r => P (world_of r))); auto.
Qed.

Lemma stable_updateGroundMistakes (P : World -> Prop) (dt : Q) (w : World) :
  stable P -> P w -> P (world_of (updateGroundMistakes dt w)).
Proof.
  intros (Hs & _ & Hbody & _) HP. unfold updateGroundMistakes.
  apply (updateGroundMistakes_loop_rule (fun _ => P)
           (fun r => P (world_of r))); auto.
  apply Hs, HP.
Qed.

Lemma stable_updateKnowledgeAndItems (P : World -> Prop) (dt : Q) (w : World) :
  straight_stable P -> P w -> P (updateKnowledgeAndItems dt w).
Proof.
  intros Hs HP. unfold updateKnowledgeAndItems.
  apply Hs, Hs, Hs, HP.
Qed.

Lemma stable_fallingPhase (P : World -> Prop) (timestamp : Q) (w : World) :
  stable P -> P w -> P (world_of (fallingPhase timestamp w)).
Proof.
  intros HS HP. pose proof HS as (Hs & _). unfold fallingPhase. cbv zeta.
  apply stable_updateFallingItems; [exact HS|].
  apply stable_updateKnowledgeAndItems; [exact Hs|]. apply Hs, Hs, HP.
Qed.

Lemma world_of_andThen_Done (r : Result) :
  world_of (andThen r Done) = world_of r.
Proof. destruct r; reflexivity. Qed.

Lemma stable_groundPhase (P : World -> Prop) (dt : Q) (w : World) :
  stable P -> P w -> P (world_of (groundPhase dt w)).
Proof.
  intros HS HP. pose proof HS as (Hs & _). unfold groundPhase.
  rewrite world_of_andThen_Done.
  apply stable_updateGroundMistakes; [exact HS|]. apply Hs, HP.
Qed.

Lemma stable_gameLoop (P : World -> Prop) (timestamp : Q) (w : World) :
  stable P -> P w -> P (world_of (gameLoop timestamp w)).
Proof.
  intros HS HP. rewrite gameLoop_phases.
  destruct (negb _); [exact HP|].
  pose proof (stable_fallingPhase P timestamp w HS HP) as H1.
  destruct (fallingPhase timestamp w) as [w1|msg w1]; [|exact H1].
  change (P w1) in H1. cbv beta iota delta [andThen].
  destruct (GameState_eqb _ _); [exact H1|].
  apply stable_groundPhase; assumption.
Qed.

Lemma stable_dispatch (P : World -> Prop) (e : Event) (w : World) :
  stable P -> P w -> P (world_of (dispatch e w)).
Proof.
  intros HS HP. pose proof HS as (Hs & _ & _ & Hstart).
  destruct e; simpl.
  - apply stable_gameLoop; assumption.
  - apply Hs, HP.
  - apply Hs, HP.
  - destruct (gameState w); simpl; auto.
  - destruct (gameState w); simpl; auto.
Qed.

Lemma stable_reachable (P : World -> Prop) :
  stable P -> P initialWorld -> forall w, reachable w -> P w.
Proof.
  intros HS H0 w Hr. induction Hr as [|e w w' _ IH E]; [exact H0|].
  pose proof (stable_dispatch P e w HS IH) as H. rewrite E in H. exact H.
Qed.

(** Unfolding of the loop-free functions, and case analysis on the
    conditions they test. *)
Ltac unfold_script :=
  unfold updatePlayer, erodeKnowledge, triggerAssessment, tickItemSpawner,
    updatePatient, tickGroundMistakeSpawner, handleKeyDown, handleKeyUp,
    spawnRandomItem, spawnAssessmentItem, spawnGroundMistake, startGame,
    randomBetween, Math_random.

Ltac split_conditions :=
  repeat match goal with
  | |- context [if ?c then _ else _] => destruct c eqn:?
  | |- context [match PatientState.active ?p with _ => _ end] =>
      destruct (PatientState.active p) eqn:?
  end.

(** Splits a conjunction of quantified statements without introducing. *)
Ltac conjuncts := repeat match goal with |- _ /\ _ => split end.

(** Closes the goal [P (f w)] from [P w] when [f] does not write what [P]
    reads. *)
Ltac untouched :=
  intros; unfold_script; cbv zeta; simpl in *; split_conditions; simpl in *;
  assumption.

(** *** The meter stays a multiple of five between 0 and 100 *)

Lemma multipleOf5_positive (q : Q) :
  multipleOf5 q -> 0 < q -> 5 <= q.
Proof.
  intros [k E] L. rewrite E in *.
  change 0 with (inject_Z 0) in L. rewrite <- Zlt_Qlt in L.
  change 5 with (inject_Z 5). rewrite <- Zle_Qle. lia.
Qed.

Lemma multipleOf5_below_100 (q : Q) :
  multipleOf5 q -> q < 100 -> q <= 95.
Proof.
  intros [k E] L. rewrite E in *.
  change 100 with (inject_Z 100) in L. rewrite <- Zlt_Qlt in L.
  change 95 with (inject_Z 95). rewrite <- Zle_Qle. lia.
Qed.

Lemma erosion_keeps_meterOk (q : Q) :
  (KNOWLEDGE_MIN <= q <= KNOWLEDGE_MAX /\ multipleOf5 q) ->
  KNOWLEDGE_MIN < q ->
  KNOWLEDGE_MIN
    <= clamp (q - KNOWLEDGE_EROSION_STEP) KNOWLEDGE_MIN KNOWLEDGE_MAX
    <= KNOWLEDGE_MAX
  /\ multipleOf5
       (clamp (q - KNOWLEDGE_EROSION_STEP) KNOWLEDGE_MIN KNOWLEDGE_MAX).
Proof.
  unfold KNOWLEDGE_MIN, KNOWLEDGE_MAX, KNOWLEDGE_EROSION_STEP.
  intros [B M] L. split; [apply clamp_bounds; lra|].
  pose proof (multipleOf5_positive q M L) as L5.
  destruct M as [k E]. exists (k - 1)%Z.
  rewrite clamp_inside by lra. rewrite E.
  replace (5 * (k - 1))%Z with (5 * k + -5)%Z by lia.
  rewrite inject_Z_plus. reflexivity.
Qed.

Lemma pickup_keeps_meterOk (q : Q) :
  (KNOWLEDGE_MIN <= q <= KNOWLEDGE_MAX /\ multipleOf5 q) ->
  KNOWLEDGE_MIN
    <= clamp (q + KNOWLEDGE_PICKUP_AMOUNT) KNOWLEDGE_MIN KNOWLEDGE_MAX
    <= KNOWLEDGE_MAX
  /\ multipleOf5
       (clamp (q + KNOWLEDGE_PICKUP_AMOUNT) KNOWLEDGE_MIN KNOWLEDGE_MAX).
Proof.
  unfold KNOWLEDGE_MIN, KNOWLEDGE_MAX, KNOWLEDGE_PICKUP_AMOUNT.
  intros [B M]. split; [apply clamp_bounds; lra|].
  destruct (Qlt_le_dec 90 q) as [L|L].
  - exists 20%Z. rewrite clamp_above by lra. reflexivity.
  - destruct M as [k E]. exists (k + 2)%Z.
    rewrite clamp_inside by lra. rewrite E.
    replace (5 * (k + 2))%Z with (5 * k + 10)%Z by lia.
    rewrite inject_Z_plus. reflexivity.
Qed.

Lemma fifty_meterOk :
  KNOWLEDGE_MIN <= 50 <= KNOWLEDGE_MAX /\ multipleOf5 50.
Proof.
  unfold KNOWLEDGE_MIN, KNOWLEDGE_MAX. split; [lra|].
  exists 10%Z. reflexivity.
Qed.

Lemma endGame_knowledgeState (w : World) :
  knowledgeState (world_of (endGame w)) = knowledgeState w.
Proof.
  unfold endGame. destruct (computeScore _ _); reflexivity.
Qed.

Lemma meterOk_straight_stable : straight_stable meterOk.
Proof.
  unfold straight_stable. conjuncts; unfold meterOk, meter; try untouched.
  intros dt w H; unfold erodeKnowledge; cbv zeta;
    destruct (Qle_bool _ _); simpl; try apply H;
    destruct (Qlt_bool _ _) eqn:E; simpl; try apply H;
    apply Qlt_bool_iff in E; apply erosion_keeps_meterOk; assumption.
Qed.

Lemma meterOk_stable : stable meterOk.
Proof.
  split; [exact meterOk_straight_stable|].
  conjuncts; unfold meterOk, meter.
  - intros dt box i w H. unfold updateFallingItems_body.
    destruct (fallingItems w !! i) as [item|]; [|exact H].
    cbv zeta. simpl Item.type. simpl Item.y.
    destruct (intersects _ _).
    + destruct (Item.type item); simpl.
      * apply pickup_keeps_meterOk, H.
      * destruct (Qle_bool _ _); simpl; [|exact H].
        rewrite endGame_knowledgeState. exact H.
      * apply fifty_meterOk.
    + destruct (Qlt_bool _ _); [|exact H].
      destruct (Item.type item); exact H.
  - intros dt box i w H. unfold updateGroundMistakes_body.
    destruct (groundMistakes w !! i) as [ob|]; [|exact H].
    cbv zeta. simpl GroundMistake.lifetimeMs.
    destruct (intersects _ _).
    + simpl. destruct (Qle_bool _ _); simpl; [|exact H].
      rewrite endGame_knowledgeState. exact H.
    + destruct (Qle_bool _ _); exact H.
  - intros w. apply fifty_meterOk.
Qed.

Lemma initialWorld_knowledgeState :
  knowledgeState initialWorld = KnowledgeState.mk 50 0.
Proof. reflexivity. Qed.

Lemma reachable_meterOk (w : World) : reachable w -> meterOk w.
Proof.
  apply stable_reachable; [exact meterOk_stable|].
  unfold meterOk, meter. rewrite initialWorld_knowledgeState.
  apply fifty_meterOk.
Qed.

Lemma meterOk_round (w : World) :
  meterOk w -> Math_round (meter w) == meter w.
Proof.
  intros [_ [k E]]. rewrite E. apply Math_round_integer.
Qed.

Lemma meterInRange_stable : stable meterInRange.
Proof.
  assert (KNOWLEDGE_MIN <= KNOWLEDGE_MAX) as L
    by (unfold KNOWLEDGE_MIN, KNOWLEDGE_MAX; lra).
  assert (KNOWLEDGE_MIN <= 50 <= KNOWLEDGE_MAX) as L50
    by (unfold KNOWLEDGE_MIN, KNOWLEDGE_MAX; lra).
  unfold stable, straight_stable. conjuncts; unfold meterInRange, meter;
    try untouched.
  - intros dt w H. unfold erodeKnowledge. cbv zeta.
    destruct (Qle_bool _ _); simpl; try apply H.
    destruct (Qlt_bool _ _); simpl; try apply H.
    apply clamp_bounds, L.
  - intros dt box i w H. unfold updateFallingItems_body.
    destruct (fallingItems w !! i) as [item|]; [|exact H].
    cbv zeta. simpl Item.type. simpl Item.y.
    destruct (intersects _ _).
    + destruct (Item.type item); simpl.
      * apply clamp_bounds, L.
      * destruct (Qle_bool _ _); simpl; [|exact H].
        rewrite endGame_knowledgeState. exact H.
      * exact L50.
    + destruct (Qlt_bool _ _); [|exact H].
      destruct (Item.type item); exact H.
  - intros dt box i w H. unfold updateGroundMistakes_body.
    destruct (groundMistakes w !! i) as [ob|]; [|exact H].
    cbv zeta. simpl GroundMistake.lifetimeMs.
    destruct (intersects _ _).
    + simpl. destruct (Qle_bool _ _); simpl; [|exact H].
      rewrite endGame_knowledgeState. exact H.
    + destruct (Qle_bool _ _); exact H.
Qed.

(** *** The score counters never go negative, and nothing is raised *)

Lemma endGame_scoreState (w : World) :
  scoreState (world_of (endGame w)) = scoreState w.
Proof.
  unfold endGame. destruct (computeScore _ _); reflexivity.
Qed.

Lemma scoresOk_stable : stable scoresOk.
Proof.
  unfold stable, straight_stable.
  conjuncts; unfold scoresOk, treated, passed; try untouched.
  - intros dt w H. unfold updatePatient. cbv zeta.
    destruct (PatientState.active _); [|untouched].
    split_conditions; simpl; try exact H. lra.
  - intros dt box i w H. unfold updateFallingItems_body.
    destruct (fallingItems w !! i) as [item|]; [|exact H].
    cbv zeta. simpl Item.type. simpl Item.y.
    destruct (intersects _ _).
    + destruct (Item.type item); simpl; try exact H.
      * destruct (Qle_bool _ _); simpl; [|exact H].
        rewrite endGame_scoreState. exact H.
      * lra.
    + destruct (Qlt_bool _ _); [|exact H].
      destruct (Item.type item); exact H.
  - intros dt box i w H. unfold updateGroundMistakes_body.
    destruct (groundMistakes w !! i) as [ob|]; [|exact H].
    cbv zeta. simpl GroundMistake.lifetimeMs.
    destruct (intersects _ _).
    + simpl. destruct (Qle_bool _ _); simpl; [|exact H].
      rewrite endGame_scoreState. exact H.
    + destruct (Qle_bool _ _); exact H.
  - intros w. simpl. lra.
Qed.

Lemma reachable_scoresOk (w : World) : reachable w -> scoresOk w.
Proof.
  apply stable_reachable; [exact scoresOk_stable|].
  unfold scoresOk, treated, passed. simpl. lra.
Qed.

Lemma endGame_not_raised (w : World) :
  scoresOk w -> raised (endGame w) = false.
Proof.
  unfold scoresOk, treated, passed, endGame. intros [Ht Hp]. cbv zeta.
  simpl scoreState. rewrite computeScore_number.
  destruct (Qlt_bool (ScoreState.patientsTreated _) 0) eqn:E1;
    [apply Qlt_bool_iff in E1; lra|].
  destruct (Qlt_bool (ScoreState.assessmentsPassed _) 0) eqn:E2;
    [apply Qlt_bool_iff in E2; lra|].
  reflexivity.
Qed.

Lemma updateFallingItems_body_not_raised
    (dt : Q) (box : Box.t) (i : nat) (w : World) :
  scoresOk w -> (i < length (fallingItems w))%nat ->
  flow_holds scoresOk (fun r => raised r = false)
    (updateFallingItems_body dt box i w).
Proof.
  intros H L. pose proof (scoresOk_stable) as (_ & Hbody & _).
  specialize (Hbody dt box i w H). revert Hbody.
  unfold updateFallingItems_body.
  destruct (lookup_lt_is_Some_2 (fallingItems w) i L) as [item ->].
  cbv zeta. simpl Item.type. simpl Item.y.
  destruct (intersects _ _).
  - destruct (Item.type item); simpl; auto.
    destruct (Qle_bool _ _); simpl; auto.
    intros _. apply endGame_not_raised. exact H.
  - destruct (Qlt_bool _ _); simpl; auto.
Qed.

Lemma updateGroundMistakes_body_not_raised
    (dt : Q) (box : Box.t) (i : nat) (w : World) :
  scoresOk w -> (i < length (groundMistakes w))%nat ->
  flow_holds scoresOk (fun r => raised r = false)
    (updateGroundMistakes_body dt box i w).
Proof.
  intros H L. pose proof (scoresOk_stable) as (_ & _ & Hbody & _).
  specialize (Hbody dt box i w H). revert Hbody.
  unfold updateGroundMistakes_body.
  destruct (lookup_lt_is_Some_2 (groundMistakes w) i L) as [ob ->].
  cbv zeta. simpl GroundMistake.lifetimeMs.
  destruct (intersects _ _).
  - simpl. destruct (Qle_bool _ _); simpl; auto.
    intros _. apply endGame_not_raised. exact H.
  - destruct (Qle_bool _ _); simpl; auto.
Qed.

Lemma updateFallingItems_not_raised (dt : Q) (w : World) :
  scoresOk w -> raised (updateFallingItems dt w) = false.
Proof.
  apply (updateFallingItems_rule scoresOk (fun r => raised r = false)).
  - intros box i w'. apply updateFallingItems_body_not_raised.
  - reflexivity.
Qed.

Lemma updateGroundMistakes_not_raised (dt : Q) (w : World) :
  scoresOk w -> raised (updateGroundMistakes dt w) = false.
Proof.
  intros H.
  apply (updateGroundMistakes_rule scoresOk (fun r => raised r = false)).
  - intros box i w'. apply updateGroundMistakes_body_not_raised.
  - reflexivity.
  - apply scoresOk_stable, H.
Qed.

Lemma gameLoop_not_raised (timestamp : Q) (w : World) :
  scoresOk w -> raised (gameLoop timestamp w) = false.
Proof.
  intros H. pose proof scoresOk_stable as HS. pose proof HS as (Hs & _).
  rewrite gameLoop_phases. destruct (negb _); [reflexivity|].
  pose proof (stable_fallingPhase scoresOk timestamp w HS H) as H1.
  assert (raised (fallingPhase timestamp w) = false) as H1'.
  { unfold fallingPhase. cbv zeta. apply updateFallingItems_not_raised.
    apply stable_updateKnowledgeAndItems; [exact Hs|]. apply Hs, Hs, H. }
  destruct (fallingPhase timestamp w) as [w1|msg w1]; [|discriminate].
  change (scoresOk w1) in H1. cbv beta iota delta [andThen].
  destruct (GameState_eqb _ _); [reflexivity|].
  unfold groundPhase.
  assert (raised (updateGroundMistakes (frameDelta timestamp w)
                    (updatePatient (frameDelta timestamp w) w1)) = false) as H2
    by (apply updateGroundMistakes_not_raised, Hs, H1).
  destruct (updateGroundMistakes _ _); [reflexivity|discriminate].
Qed.

Lemma dispatch_not_raised (e : Event) (w : World) :
  scoresOk w -> raised (dispatch e w) = false.
Proof.
  intros H. destruct e; simpl; try reflexivity.
  - apply gameLoop_not_raised, H.
  - destruct (gameState w); reflexivity.
  - destruct (gameState w); reflexivity.
Qed.

(** *** The mistake counter and the end of the session *)

Lemma mistakesInRange_stable : stable mistakesInRange.
Proof.
  assert (0 <= MAX_MISTAKES) as L by (unfold MAX_MISTAKES; lra).
  assert (0 <= 0 <= MAX_MISTAKES) as L0 by (unfold MAX_MISTAKES; lra).
  unfold stable, straight_stable.
  conjuncts; unfold mistakesInRange, mistakes; try untouched.
  - intros dt box i w H. unfold updateFallingItems_body.
    destruct (fallingItems w !! i) as [item|]; [|exact H].
    cbv zeta. simpl Item.type. simpl Item.y.
    destruct (intersects _ _).
    + destruct (Item.type item); simpl; try exact H; try exact L0.
      destruct (Qle_bool _ _); simpl; [|apply clamp_bounds, L].
      unfold endGame. cbv zeta. destruct (computeScore _ _); simpl;
        apply clamp_bounds, L.
    + destruct (Qlt_bool _ _); [|exact H].
      destruct (Item.type item); exact H.
  - intros dt box i w H. unfold updateGroundMistakes_body.
    destruct (groundMistakes w !! i) as [ob|]; [|exact H].
    cbv zeta. simpl GroundMistake.lifetimeMs.
    destruct (intersects _ _).
    + simpl. destruct (Qle_bool _ _); simpl; [|apply clamp_bounds, L].
      unfold endGame. cbv zeta. destruct (computeScore _ _); simpl;
        apply clamp_bounds, L.
    + destruct (Qle_bool _ _); exact H.
Qed.

Lemma inPlay_straight_stable : straight_stable inPlay.
Proof.
  unfold straight_stable. conjuncts; unfold inPlay, mistakes; untouched.
Qed.

Lemma endGame_isOver (w : World) :
  mistakes w == MAX_MISTAKES -> endGameCalls w = O ->
  isOver (world_of (endGame w)).
Proof.
  intros Hm Hc. unfold endGame, isOver, mistakes in *. cbv zeta.
  destruct (computeScore _ _); simpl; rewrite Hc; auto.
Qed.

Lemma clamp_mistakes_reaches_max (c : Q) :
  MAX_MISTAKES <= clamp (c + 1) 0 MAX_MISTAKES ->
  clamp (c + 1) 0 MAX_MISTAKES == MAX_MISTAKES.
Proof.
  intros L.
  assert (0 <= clamp (c + 1) 0 MAX_MISTAKES <= MAX_MISTAKES)
    by (apply clamp_bounds; unfold MAX_MISTAKES; lra).
  lra.
Qed.

Lemma updateFallingItems_body_session
    (dt : Q) (box : Box.t) (i : nat) (w : World) :
  inPlay w -> (i < length (fallingItems w))%nat ->
  flow_holds inPlay (fun r => isOver (world_of r))
    (updateFallingItems_body dt box i w).
Proof.
  intros H L. pose proof H as (Hg & Hm & Hc). unfold updateFallingItems_body.
  destruct (lookup_lt_is_Some_2 (fallingItems w) i L) as [item ->].
  cbv zeta. simpl Item.type. simpl Item.y.
  destruct (intersects _ _).
  - destruct (Item.type item); simpl; try exact H.
    + destruct (Qle_bool _ _) eqn:E; simpl.
      * apply Qle_bool_iff in E. apply endGame_isOver; [|exact Hc].
        apply clamp_mistakes_reaches_max, E.
      * apply Qle_bool_false_iff in E. unfold inPlay, mistakes. simpl. auto.
    + unfold inPlay, mistakes. simpl. repeat split; auto.
  - destruct (Qlt_bool _ _); [|exact H].
    destruct (Item.type item); exact H.
Qed.

Lemma updateGroundMistakes_body_session
    (dt : Q) (box : Box.t) (i : nat) (w : World) :
  inPlay w -> (i < length (groundMistakes w))%nat ->
  flow_holds inPlay (fun r => isOver (world_of r))
    (updateGroundMistakes_body dt box i w).
Proof.
  intros H L. pose proof H as (Hg & Hm & Hc). unfold updateGroundMistakes_body.
  destruct (lookup_lt_is_Some_2 (groundMistakes w) i L) as [ob ->].
  cbv zeta. simpl GroundMistake.lifetimeMs.
  destruct (intersects _ _).
  - simpl. destruct (Qle_bool _ _) eqn:E; simpl.
    + apply Qle_bool_iff in E. apply endGame_isOver; [|exact Hc].
      apply clamp_mistakes_reaches_max, E.
    + apply Qle_bool_false_iff in E. unfold inPlay, mistakes. simpl. auto.
  - destruct (Qle_bool _ _); exact H.
Qed.

Lemma updateFallingItems_session (dt : Q) (w : World) :
  inPlay w ->
  inPlay (world_of (updateFallingItems dt w))
  \/ isOver (world_of (updateFallingItems dt w)).
Proof.
  apply (updateFallingItems_rule inPlay
           (fun r => inPlay (world_of r) \/ isOver (world_of r))).
  - intros box i w' H L.
    pose proof (updateFallingItems_body_session dt box i w' H L) as Hb.
    revert Hb. apply flow_holds_weaken; auto.
  - simpl. auto.
Qed.

Lemma updateGroundMistakes_session (dt : Q) (w : World) :
  inPlay w ->
  inPlay (world_of (updateGroundMistakes dt w))
  \/ isOver (world_of (updateGroundMistakes dt w)).
Proof.
  intros H.
  apply (updateGroundMistakes_rule inPlay
           (fun r => inPlay (world_of r) \/ isOver (world_of r))).
  - intros box i w' H' L.
    pose proof (updateGroundMistakes_body_session dt box i w' H' L) as Hb.
    revert Hb. apply flow_holds_weaken; auto.
  - simpl. auto.
  - apply inPlay_straight_stable, H.
Qed.

Lemma fallingPhase_session (timestamp : Q) (w : World) :
  inPlay w ->
  inPlay (world_of (fallingPhase timestamp w))
  \/ isOver (world_of (fallingPhase timestamp w)).
Proof.
  intros H. unfold fallingPhase. cbv zeta.
  apply updateFallingItems_session.
  apply stable_updateKnowledgeAndItems; [exact inPlay_straight_stable|].
  apply inPlay_straight_stable, inPlay_straight_stable, H.
Qed.

Lemma groundPhase_session (dt : Q) (w : World) :
  inPlay w ->
  inPlay (world_of (groundPhase dt w)) \/ isOver (world_of (groundPhase dt w)).
Proof.
  intros H. unfold groundPhase. rewrite world_of_andThen_Done.
  apply updateGroundMistakes_session, inPlay_straight_stable, H.
Qed.

Lemma gameLoop_session (timestamp : Q) (w : World) :
  inPlay w ->
  inPlay (world_of (gameLoop timestamp w))
  \/ isOver (world_of (gameLoop timestamp w)).
Proof.
  intros H. rewrite gameLoop_phases. pose proof H as (Hg & _).
  rewrite Hg. simpl negb. cbv iota.
  pose proof (fallingPhase_session timestamp w H) as H1.
  destruct (fallingPhase timestamp w) as [w1|msg w1]; simpl in *; [|exact H1].
  destruct H1 as [H1|H1].
  - pose proof H1 as (Hg1 & _). rewrite Hg1. simpl.
    apply groundPhase_session, H1.
  - pose proof H1 as (Hg1 & _). rewrite Hg1. simpl. right. exact H1.
Qed.

Lemma startGame_inPlay (w : World) : inPlay (startGame w).
Proof.
  unfold inPlay, mistakes. simpl. repeat split.
Qed.

Lemma sessionOk_dispatch (e : Event) (w : World) :
  sessionOk w -> sessionOk (world_of (dispatch e w)).
Proof.
  assert (forall w', inPlay w' \/ isOver w' -> sessionOk w') as Hcases.
  { intros w' [H'|H']; pose proof H' as (Hg & _); unfold sessionOk;
      rewrite Hg; exact H'. }
  intros H. destruct e; simpl.
  - destruct (gameState w) eqn:Hg.
    + rewrite gameLoop_phases, Hg. exact H.
    + apply Hcases, gameLoop_session. unfold sessionOk in H.
      rewrite Hg in H. exact H.
    + rewrite gameLoop_phases, Hg. exact H.
  - revert H. unfold sessionOk, inPlay, isOver, mistakes. untouched.
  - revert H. unfold sessionOk, inPlay, isOver, mistakes. untouched.
  - destruct (gameState w) eqn:Hg; simpl; try exact H;
      apply Hcases; left; apply startGame_inPlay.
  - destruct (gameState w) eqn:Hg; simpl; try exact H;
      apply Hcases; left; apply startGame_inPlay.
Qed.

Lemma reachable_sessionOk (w : World) : reachable w -> sessionOk w.
Proof.
  intros Hr. induction Hr as [|e w w' _ IH E].
  - unfold sessionOk, mistakes. simpl. split; reflexivity.
  - pose proof (sessionOk_dispatch e w IH) as H. rewrite E in H. exact H.
Qed.

Lemma reachable_mistakesInRange (w : World) : reachable w -> mistakesInRange w.
Proof.
  apply stable_reachable; [exact mistakesInRange_stable|].
  unfold mistakesInRange, mistakes, MAX_MISTAKES. simpl. lra.
Qed.

(** C4: in every reachable state the mistake counter is at most
    [MAX_MISTAKES]; it is at the maximum exactly in the state [GAME_OVER],
    where [endGame] has been called once since the session started, and in
    no other state has it been called; each loop body either goes on in play
    or leaves with the game over, for falling and for ground mistakes alike;
    when the falling items end the game the frame callback stops there;
    a frame delivered after the end changes nothing; and the restart button
    then starts a new session in play. *)
Theorem mistakes_bounded_and_terminal (w : World) (Hr : reachable w) :
  mistakes w <= MAX_MISTAKES
  /\ (mistakes w == MAX_MISTAKES <-> gameState w = GAME_OVER)
  /\ endGameCalls w
     = (if GameState_eqb (gameState w) GAME_OVER then 1%nat else O)
  /\ (forall dt box i,
        gameState w = PLAYING -> (i < length (fallingItems w))%nat ->
        flow_holds inPlay (fun r => isOver (world_of r))
          (updateFallingItems_body dt box i w))
  /\ (forall dt box i,
        gameState w = PLAYING -> (i < length (groundMistakes w))%nat ->
        flow_holds inPlay (fun r => isOver (world_of r))
          (updateGroundMistakes_body dt box i w))
  /\ (forall timestamp,
        gameState w = PLAYING ->
        inPlay (world_of (gameLoop timestamp w))
        \/ isOver (world_of (gameLoop timestamp w)))
  /\ (forall timestamp,
        gameState w = PLAYING ->
        gameState (world_of (fallingPhase timestamp w)) = GAME_OVER ->
        gameLoop timestamp w = fallingPhase timestamp w)
  /\ (forall timestamp,
        gameState w = GAME_OVER -> gameLoop timestamp w = Done w)
  /\ (gameState w = GAME_OVER ->
      dispatch RestartButtonClick w = Done (startGame w)
      /\ inPlay (startGame w)).
Proof.
  pose proof (reachable_sessionOk w Hr) as HS.
  pose proof (reachable_mistakesInRange w Hr) as [_ HU].
  assert (gameState w = PLAYING -> inPlay w) as Hplay.
  { intros Hg. unfold sessionOk in HS. rewrite Hg in HS. exact HS. }
  conjuncts.
  - exact HU.
  - unfold sessionOk, inPlay, isOver in HS.
    destruct (gameState w); split; intros H; try discriminate;
      try reflexivity; unfold MAX_MISTAKES in *; try lra; tauto.
  - unfold sessionOk, inPlay, isOver in HS.
    destruct (gameState w); simpl; tauto.
  - intros dt box i Hg L. apply updateFallingItems_body_session; auto.
  - intros dt box i Hg L. apply updateGroundMistakes_body_session; auto.
  - intros timestamp Hg. apply gameLoop_session; auto.
  - intros timestamp Hg Ho. rewrite gameLoop_phases, Hg. simpl negb. cbv iota.
    destruct (fallingPhase timestamp w) as [w1|msg w1]; simpl in *;
      [|reflexivity].
    rewrite Ho. reflexivity.
  - intros timestamp Hg. rewrite gameLoop_phases, Hg. reflexivity.
  - intros Hg. split; [|apply startGame_inPlay].
    simpl. rewrite Hg. reflexivity.
Qed.

(** *** At most one assessment item *)

Lemma countAssessments_app (l1 l2 : list Item.t) :
  countAssessments (l1 ++ l2)
  = (countAssessments l1 + countAssessments l2)%nat.
Proof.
  unfold countAssessments. rewrite List.filter_app. apply length_app.
Qed.

Lemma countAssessments_cons (x : Item.t) (l : list Item.t) :
  countAssessments (x :: l)
  = (Nat.b2n (isAssessment x) + countAssessments l)%nat.
Proof.
  unfold countAssessments. simpl. destruct (isAssessment x); reflexivity.
Qed.

Lemma countAssessments_insert (l : list Item.t) (i : nat) (x y : Item.t) :
  l !! i = Some x -> isAssessment y = isAssessment x ->
  countAssessments (<[i:=y]> l) = countAssessments l.
Proof.
  intros Hi E.
  rewrite insert_take_drop by (eapply lookup_lt_Some; exact Hi).
  rewrite <- (take_drop_middle l i x Hi) at 3.
  rewrite !countAssessments_app, !countAssessments_cons, E. reflexivity.
Qed.

Lemma countAssessments_delete (l : list Item.t) (i : nat) (x : Item.t) :
  l !! i = Some x ->
  countAssessments l
  = (Nat.b2n (isAssessment x) + countAssessments (delete i l))%nat.
Proof.
  intros Hi. rewrite delete_take_drop.
  rewrite <- (take_drop_middle l i x Hi) at 1.
  rewrite !countAssessments_app, !countAssessments_cons. lia.
Qed.

Lemma countAssessments_moved
    (l : list Item.t) (i : nat) (item : Item.t) (dt : Q) :
  l !! i = Some item ->
  countAssessments (<[i:=fallen dt item]> l) = countAssessments l
  /\ countAssessments l
     = (Nat.b2n (isAssessment item)
        + countAssessments (delete i (<[i:=fallen dt item]> l)))%nat.
Proof.
  intros Hi.
  assert (countAssessments (<[i:=fallen dt item]> l) = countAssessments l) as E
    by (eapply countAssessments_insert; [exact Hi|reflexivity]).
  split; [exact E|]. rewrite <- E.
  apply (countAssessments_delete _ i (fallen dt item)).
  apply list_lookup_insert_eq. eapply lookup_lt_Some; exact Hi.
Qed.

Lemma triggerAssessment_pending (w : World) :
  pendingFlag (triggerAssessment w) = pendingFlag w || assessmentDue w
  /\ pendingItems (triggerAssessment w)
     = (pendingItems w + Nat.b2n (assessmentDue w))%nat.
Proof.
  unfold triggerAssessment, assessmentDue, pendingFlag, pendingItems, meter.
  destruct (negb _ && _) eqn:E; simpl.
  - rewrite countAssessments_app, countAssessments_cons. simpl.
    change (countAssessments []) with O. rewrite orb_true_r.
    split; [reflexivity|lia].
  - rewrite orb_false_r. split; [reflexivity|lia].
Qed.

Lemma tickItemSpawner_pending (dt : Q) (w : World) :
  pendingFlag (tickItemSpawner dt w) = pendingFlag w
  /\ pendingItems (tickItemSpawner dt w) = pendingItems w.
Proof.
  unfold tickItemSpawner, spawnRandomItem, randomBetween, Math_random,
    pendingFlag, pendingItems.
  cbv zeta. destruct (Qle_bool _ _); simpl; [|split; reflexivity].
  rewrite countAssessments_app. split; [reflexivity|].
  destruct (Qlt_bool _ _); rewrite countAssessments_cons; simpl;
    change (countAssessments []) with O; lia.
Qed.

Lemma updateKnowledgeAndItems_pending (dt : Q) (w : World) :
  pendingFlag (updateKnowledgeAndItems dt w)
  = pendingFlag w || assessmentDue (erodeKnowledge dt w)
  /\ pendingItems (updateKnowledgeAndItems dt w)
     = (pendingItems w + Nat.b2n (assessmentDue (erodeKnowledge dt w)))%nat.
Proof.
  unfold updateKnowledgeAndItems.
  destruct (tickItemSpawner_pending dt
              (triggerAssessment (erodeKnowledge dt w))) as [-> ->].
  destruct (triggerAssessment_pending (erodeKnowledge dt w)) as [-> ->].
  assert (pendingFlag (erodeKnowledge dt w) = pendingFlag w) as ->.
  { unfold erodeKnowledge, pendingFlag. cbv zeta.
    destruct (Qle_bool _ _); reflexivity. }
  assert (pendingItems (erodeKnowledge dt w) = pendingItems w) as ->.
  { unfold erodeKnowledge, pendingItems. cbv zeta.
    destruct (Qle_bool _ _); reflexivity. }
  split; reflexivity.
Qed.

Lemma endGame_pending (w : World) :
  pendingFlag (world_of (endGame w)) = pendingFlag w
  /\ pendingItems (world_of (endGame w)) = pendingItems w.
Proof.
  unfold endGame. cbv zeta. destruct (computeScore _ _); split; reflexivity.
Qed.

Lemma pendingOk_stable : stable pendingOk.
Proof.
  unfold stable, straight_stable.
  conjuncts; try (unfold pendingOk, pendingItems, pendingFlag; untouched).
  - intros w H. unfold pendingOk in *.
    destruct (triggerAssessment_pending w) as [-> ->]. rewrite H.
    unfold assessmentDue. destruct (pendingFlag w); simpl; [reflexivity|].
    destruct (Qle_bool _ _); reflexivity.
  - intros dt w H. unfold pendingOk in *.
    destruct (tickItemSpawner_pending dt w) as [-> ->]. exact H.
  - intros dt box i w H. unfold updateFallingItems_body.
    destruct (fallingItems w !! i) as [item|] eqn:Hi; [|exact H].
    destruct (countAssessments_moved _ i item dt Hi) as [Hins Hdel].
    fold (fallen dt item). cbv zeta.
    change (Item.type (fallen dt item)) with (Item.type item).
    unfold pendingOk, pendingItems, pendingFlag in *.
    unfold isAssessment in Hdel.
    destruct (intersects _ _).
    + destruct (Item.type item); simpl.
      * rewrite <- H. simpl in Hdel. symmetry. exact Hdel.
      * destruct (Qle_bool _ _); simpl.
        -- destruct (endGame_pending
                       (set_mistakesState
                          (MistakesState.mk
                             (clamp (MistakesState.count (mistakesState w) + 1)
                                0 MAX_MISTAKES))
                          (set_fallingItems
                             (<[i:=fallen dt item]> (fallingItems w)) w)))
             as [Ef Ei].
           unfold pendingFlag, pendingItems in Ef, Ei. rewrite Ef, Ei. simpl.
           rewrite Hins. exact H.
        -- rewrite <- H. simpl in Hdel. symmetry. exact Hdel.
      * destruct (AssessmentState.pending (assessmentState w));
          simpl in *; lia.
    + destruct (Qlt_bool _ _); simpl.
      * destruct (Item.type item); simpl;
          destruct (AssessmentState.pending (assessmentState w));
          simpl in *; lia.
      * rewrite Hins. exact H.
  - intros dt box i w H. unfold updateGroundMistakes_body.
    destruct (groundMistakes w !! i) as [ob|]; [|exact H].
    cbv zeta. simpl GroundMistake.lifetimeMs.
    unfold pendingOk in *.
    destruct (intersects _ _).
    + simpl. destruct (Qle_bool _ _); simpl; [|exact H].
      match goal with
      | |- context [endGame ?v] => destruct (endGame_pending v) as [-> ->]
      end.
      exact H.
    + destruct (Qle_bool _ _); exact H.
  - intros w. reflexivity.
Qed.

Lemma reachable_pendingOk (w : World) : reachable w -> pendingOk w.
Proof.
  apply stable_reachable; [exact pendingOk_stable|]. reflexivity.
Qed.

Lemma updateFallingItems_body_catch
    (dt : Q) (box : Box.t) (i : nat) (w : World) (item : Item.t) :
  fallingItems w !! i = Some item ->
  Item.type item = ASSESSMENT ->
  intersects box (fallen dt item) = true ->
  exists w',
    updateFallingItems_body dt box i w = Continue w'
    /\ mistakes w' = 0 /\ meter w' = 50
    /\ passed w' = passed w + 1 /\ treated w' = treated w
    /\ pendingFlag w' = false
    /\ fallingItems w' = delete i (<[i:=fallen dt item]> (fallingItems w)).
Proof.
  intros Hi Ht Hx. unfold updateFallingItems_body. rewrite Hi.
  fold (fallen dt item). cbv zeta. rewrite Hx.
  change (Item.type (fallen dt item)) with (Item.type item). rewrite Ht.
  eexists. split; [reflexivity|]. repeat split.
Qed.

Lemma updateFallingItems_body_miss
    (dt : Q) (box : Box.t) (i : nat) (w : World) (item : Item.t) :
  fallingItems w !! i = Some item ->
  Item.type item = ASSESSMENT ->
  intersects box (fallen dt item) = false ->
  canvas_height + 40 < Item.y (fallen dt item) ->
  exists w',
    updateFallingItems_body dt box i w = Continue w'
    /\ mistakes w' = mistakes w /\ meter w' = meter w
    /\ passed w' = passed w /\ treated w' = treated w
    /\ pendingFlag w' = false
    /\ fallingItems w' = delete i (<[i:=fallen dt item]> (fallingItems w)).
Proof.
  intros Hi Ht Hx Hy. unfold updateFallingItems_body. rewrite Hi.
  fold (fallen dt item). cbv zeta. rewrite Hx.
  apply Qlt_bool_iff in Hy. rewrite Hy.
  change (Item.type (fallen dt item)) with (Item.type item). rewrite Ht.
  eexists. split; [reflexivity|]. repeat split.
Qed.

(** C5: in every reachable state the number of assessment items among the
    falling items is one when the pending flag is set and zero otherwise;
    [updateKnowledgeAndItems] adds one exactly when, after the erosion of
    that tick, the flag is clear and the rounded meter is at least 100, and
    then sets the flag; the loop body that catches the item sets the
    mistakes to 0, the meter to 50, adds one to the assessments passed,
    clears the flag and removes the item; the body that sees it pass the
    bottom uncaught clears the flag and removes it, changing nothing
    else. *)
Theorem assessment_single_pending (w : World) (Hr : reachable w) :
  pendingItems w = Nat.b2n (pendingFlag w)
  /\ (pendingItems w <= 1)%nat
  /\ stable pendingOk
  /\ (forall dtMs,
        pendingFlag (updateKnowledgeAndItems dtMs w)
        = pendingFlag w || assessmentDue (erodeKnowledge dtMs w)
        /\ pendingItems (updateKnowledgeAndItems dtMs w)
           = (pendingItems w
              + Nat.b2n (assessmentDue (erodeKnowledge dtMs w)))%nat)
  /\ (forall dtSeconds box i item,
        fallingItems w !! i = Some item ->
        Item.type item = ASSESSMENT ->
        intersects box (fallen dtSeconds item) = true ->
        exists w',
          updateFallingItems_body dtSeconds box i w = Continue w'
          /\ mistakes w' = 0 /\ meter w' = 50
          /\ passed w' = passed w + 1
          /\ pendingFlag w' = false /\ pendingItems w' = O)
  /\ (forall dtSeconds box i item,
        fallingItems w !! i = Some item ->
        Item.type item = ASSESSMENT ->
        intersects box (fallen dtSeconds item) = false ->
        canvas_height + 40 < Item.y (fallen dtSeconds item) ->
        exists w',
          updateFallingItems_body dtSeconds box i w = Continue w'
          /\ mistakes w' = mistakes w /\ meter w' = meter w
          /\ passed w' = passed w
          /\ pendingFlag w' = false /\ pendingItems w' = O
          /\ assessmentDue w'
             = (Math_round (meter w) >=? KNOWLEDGE_MAX)%js).
Proof.
  pose proof (reachable_pendingOk w Hr) as HP. unfold pendingOk in HP.
  assert (forall dt i item w',
            fallingItems w !! i = Some item ->
            Item.type item = ASSESSMENT ->
            fallingItems w'
            = delete i (<[i:=fallen dt item]> (fallingItems w)) ->
            pendingItems w' = O) as Hgone.
  { intros dt i item w' Hi Ht E. unfold pendingItems in *. rewrite E.
    destruct (countAssessments_moved _ i item dt Hi) as [_ Hdel].
    unfold isAssessment in Hdel. rewrite Ht in Hdel. simpl in Hdel.
    destruct (pendingFlag w); simpl in HP; lia. }
  conjuncts.
  - exact HP.
  - rewrite HP. destruct (pendingFlag w); simpl; lia.
  - exact pendingOk_stable.
  - intros dtMs. apply updateKnowledgeAndItems_pending.
  - intros dt box i item Hi Ht Hx.
    destruct (updateFallingItems_body_catch dt box i w item Hi Ht Hx)
      as (w' & E & Hm & Hk & Hp & _ & Hf & Hl).
    exists w'. repeat split; try assumption. eapply Hgone; eassumption.
  - intros dt box i item Hi Ht Hx Hy.
    destruct (updateFallingItems_body_miss dt box i w item Hi Ht Hx Hy)
      as (w' & E & Hm & Hk & Hp & _ & Hf & Hl).
    exists w'. repeat split; try assumption.
    + eapply Hgone; eassumption.
    + unfold assessmentDue. rewrite Hf, Hk. reflexivity.
Qed.

Lemma erodeKnowledge_at_floor (dt : Q) (w : World) :
  meter w <= KNOWLEDGE_MIN -> meter (erodeKnowledge dt w) = meter w.
Proof.
  intros L. unfold erodeKnowledge, meter in *. cbv zeta.
  destruct (Qle_bool _ _); simpl; [|reflexivity].
  destruct (Qlt_bool _ _) eqn:E; simpl; [|reflexivity].
  apply Qlt_bool_iff in E. lra.
Qed.

Lemma erosionTicks_at_floor (dts : list Q) (w : World) :
  meter w <= KNOWLEDGE_MIN -> meter (erosionTicks dts w) = meter w.
Proof.
  revert w. induction dts as [|dt dts IH]; intros w L; [reflexivity|].
  unfold erosionTicks in *. simpl.
  assert (meter (updateKnowledgeAndItems dt w) = meter w) as E.
  { unfold meter. rewrite updateKnowledgeAndItems_knowledgeState.
    apply erodeKnowledge_at_floor, L. }
  rewrite IH; rewrite E; [reflexivity|exact L].
Qed.

(** C3: the meter of every reachable state is between 0 and 100; every part
    of the frame callback, every loop body, every handler and [startGame]
    keep it there from any state where it is; and once the meter is at the
    floor, any number of erosion ticks leaves it unchanged. *)
Theorem meter_in_range (w : World) (Hr : reachable w) :
  KNOWLEDGE_MIN <= meter w <= KNOWLEDGE_MAX
  /\ stable meterInRange
  /\ (forall dts,
        meter w <= KNOWLEDGE_MIN -> meter (erosionTicks dts w) = meter w).
Proof.
  split; [|split].
  - apply reachable_meterOk, Hr.
  - exact meterInRange_stable.
  - intros dts. apply erosionTicks_at_floor.
Qed.

Lemma erodeKnowledge_meter (dt : Q) (w : World) :
  meter (erodeKnowledge dt w) = meter w
  \/ (KNOWLEDGE_MIN < meter w
      /\ meter (erodeKnowledge dt w)
         = clamp (meter w - KNOWLEDGE_EROSION_STEP) KNOWLEDGE_MIN
             KNOWLEDGE_MAX).
Proof.
  unfold erodeKnowledge, meter. cbv zeta.
  destruct (Qle_bool _ _); simpl; [|left; reflexivity].
  destruct (Qlt_bool _ _) eqn:E; simpl; [|left; reflexivity].
  apply Qlt_bool_iff in E. right. split; [exact E|reflexivity].
Qed.

Lemma updateFallingItems_body_meter
    (dt : Q) (box : Box.t) (i : nat) (w : World) :
  flow_holds
    (fun w' =>
       meter w' = meter w
       \/ meter w'
          = clamp (meter w + KNOWLEDGE_PICKUP_AMOUNT) KNOWLEDGE_MIN
              KNOWLEDGE_MAX
       \/ meter w' = 50)
    (fun r => meter (world_of r) = meter w)
    (updateFallingItems_body dt box i w).
Proof.
  unfold updateFallingItems_body.
  destruct (fallingItems w !! i) as [item|]; [|reflexivity].
  cbv zeta. simpl Item.type. simpl Item.y.
  destruct (intersects _ _).
  - destruct (Item.type item); simpl; auto.
    destruct (Qle_bool _ _); simpl; auto.
    unfold meter. rewrite endGame_knowledgeState. reflexivity.
  - destruct (Qlt_bool _ _); simpl; auto.
    destruct (Item.type item); simpl; auto.
Qed.

(** C10: the meter of every reachable state is a multiple of five between
    0 and 100, and every part of the script keeps it so; it starts at 50;
    the erosion block leaves it or takes one clamped step off it, the body
    of the falling-item loop leaves it, adds one clamped pickup or sets it
    to 50; hence [Math.round] returns its argument where the script applies
    it to the meter: in the assessment trigger and in the eligibility
    test. *)
Theorem meter_multiple_of_five (w : World) (Hr : reachable w) :
  meterOk w
  /\ stable meterOk
  /\ meter initialWorld = 50
  /\ (forall w0, meter (startGame w0) = 50)
  /\ (forall dt,
        meter (erodeKnowledge dt w) = meter w
        \/ (KNOWLEDGE_MIN < meter w
            /\ meter (erodeKnowledge dt w)
               = clamp (meter w - KNOWLEDGE_EROSION_STEP) KNOWLEDGE_MIN
                   KNOWLEDGE_MAX))
  /\ (forall dt box i,
        flow_holds
          (fun w' =>
             meter w' = meter w
             \/ meter w'
                = clamp (meter w + KNOWLEDGE_PICKUP_AMOUNT) KNOWLEDGE_MIN
                    KNOWLEDGE_MAX
             \/ meter w' = 50)
          (fun r => meter (world_of r) = meter w)
          (updateFallingItems_body dt box i w))
  /\ (forall w', meterOk w' ->
        Math_round (meter w') == meter w'
        /\ assessmentDue w'
           = negb (pendingFlag w') && (meter w' >=? KNOWLEDGE_MAX)%js
        /\ canTreat w' = (meter w' >=? KNOWLEDGE_WARNING_THRESHOLD)%js).
Proof.
  conjuncts.
  - apply reachable_meterOk, Hr.
  - exact meterOk_stable.
  - reflexivity.
  - reflexivity.
  - intros dt. apply erodeKnowledge_meter.
  - intros dt box i. apply updateFallingItems_body_meter.
  - intros w' H. pose proof (meterOk_round w' H) as E.
    unfold assessmentDue, canTreat. fold (meter w'). rewrite E.
    repeat split; reflexivity.
Qed.

(** *** Exceptions *)

Lemma endGame_fromComputeScore (w : World) : fromComputeScore (endGame w).
Proof.
  unfold endGame. cbv zeta.
  destruct (computeScore _ _) eqn:E; simpl; [exact I|exact E].
Qed.

Lemma updateFallingItems_fromComputeScore (dt : Q) (w : World) :
  fromComputeScore (updateFallingItems dt w).
Proof.
  apply (updateFallingItems_rule (fun _ => True) fromComputeScore);
    [|intros; exact I|exact I].
  clear w. intros box i w _ L. unfold updateFallingItems_body.
  destruct (lookup_lt_is_Some_2 (fallingItems w) i L) as [item ->].
  cbv zeta. simpl Item.type. simpl Item.y.
  destruct (intersects _ _).
  - destruct (Item.type item); simpl; auto.
    destruct (Qle_bool _ _); simpl; auto. apply endGame_fromComputeScore.
  - destruct (Qlt_bool _ _); simpl; auto.
Qed.

Lemma updateGroundMistakes_fromComputeScore (dt : Q) (w : World) :
  fromComputeScore (updateGroundMistakes dt w).
Proof.
  apply (updateGroundMistakes_rule (fun _ => True) fromComputeScore);
    [|intros; exact I|exact I].
  clear w. intros box i w _ L. unfold updateGroundMistakes_body.
  destruct (lookup_lt_is_Some_2 (groundMistakes w) i L) as [ob ->].
  cbv zeta. simpl GroundMistake.lifetimeMs.
  destruct (intersects _ _).
  - simpl. destruct (Qle_bool _ _); simpl; auto.
    apply endGame_fromComputeScore.
  - destruct (Qle_bool _ _); simpl; auto.
Qed.

Lemma dispatch_fromComputeScore (e : Event) (w : World) :
  fromComputeScore (dispatch e w).
Proof.
  destruct e; simpl; try exact I.
  - rewrite gameLoop_phases. destruct (negb _); [exact I|].
    unfold fallingPhase. cbv zeta.
    match goal with
    | |- context [updateFallingItems ?d ?v] =>
        pose proof (updateFallingItems_fromComputeScore d v) as H1;
        destruct (updateFallingItems d v) as [w1|msg w1]
    end; simpl; [|exact H1].
    destruct (GameState_eqb _ _); [exact I|].
    unfold groundPhase.
    match goal with
    | |- context [updateGroundMistakes ?d ?v] =>
        pose proof (updateGroundMistakes_fromComputeScore d v) as H2;
        destruct (updateGroundMistakes d v)
    end; simpl; [exact I|exact H2].
  - destruct (gameState w); exact I.
  - destruct (gameState w); exact I.
Qed.

(** C2: [computeScore] throws exactly when an argument is not a number or
    is negative, and returns otherwise; an exception that escapes a listener
    is always one thrown by [computeScore]; and in a reachable state no
    listener lets one escape. *)
Theorem computeScore_only_error
    (p a : JsValue) (e : Event) (w : World) (Hr : reachable w) :
  ((exists msg, computeScore p a = Throws msg)
   <-> (~ numeric p \/ ~ numeric a \/ negative p \/ negative a))
  /\ ((exists s, computeScore p a = Returns s)
      <-> ~ (~ numeric p \/ ~ numeric a \/ negative p \/ negative a))
  /\ (forall e' w', fromComputeScore (dispatch e' w'))
  /\ raised (dispatch e w) = false.
Proof.
  conjuncts.
  - apply computeScore_throws_iff.
  - apply computeScore_returns_iff.
  - apply dispatch_fromComputeScore.
  - apply dispatch_not_raised, reachable_scoresOk, Hr.
Qed.

Lemma not_raised_Done (r : Result) : raised r = false -> r = Done (world_of r).
Proof. destruct r; simpl; [reflexivity|discriminate]. Qed.

Lemma reachable_run (es : list Event) (w : World) :
  reachable w -> raised (run es w) = false -> reachable (world_of (run es w)).
Proof.
  revert w. induction es as [|e es IH]; intros w Hr Hn; simpl in *; [exact Hr|].
  destruct (dispatch e w) as [w1|msg w1] eqn:E; simpl in *; [|discriminate].
  apply IH; [|exact Hn]. eapply reachable_step; eassumption.
Qed.

(** ** Further properties of the helpers *)

(** X1: [clamp] returns a value between its bounds when they are in order,
    leaves a value already between them unchanged, is idempotent and
    monotone; with the bounds out of order it returns [max], whatever the
    value. *)
Theorem clamp_behaviour (value min max : Q) :
  (min <= max -> min <= clamp value min max <= max)
  /\ (min <= value <= max -> clamp value min max == value)
  /\ (min <= max ->
      clamp (clamp value min max) min max == clamp value min max)
  /\ (forall value', value <= value' ->
      clamp value min max <= clamp value' min max)
  /\ (max < min -> clamp value min max == max).
Proof.
  split; [apply clamp_bounds|]. split; [apply clamp_inside|].
  split; [|split].
  - intros L. apply clamp_inside, clamp_bounds, L.
  - intros value' L. unfold clamp.
    apply Q.min_le_compat_l, Q.max_le_compat_l, L.
  - intros L. unfold clamp. apply Q.min_l.
    apply Qle_trans with min; [lra|apply Q.le_max_l].
Qed.

Lemma intersects_overlap {A B : Type} `{Rect A} `{Rect B} (a : A) (b : B) :
  intersects a b = true <-> overlap a b.
Proof.
  unfold intersects, overlap. rewrite negb_true_iff, !orb_false_iff.
  rewrite !Qlt_bool_false_iff. tauto.
Qed.


(** X3: whatever meets the padded hit box of the player meets the sprite:
    a collision is never reported for an object the sprite does not
    touch. *)
Theorem hitBox_within_sprite {B : Type} `{Rect B} (w : World) (b : B)
    (Hhit : intersects (getPlayerHitBox w) b = true) :
  intersects (playerSprite w) b = true.
Proof.
  apply intersects_overlap. apply intersects_overlap in Hhit.
  unfold overlap, getPlayerHitBox, playerSprite in *. simpl in *.
  unfold PLAYER_WIDTH, PLAYER_HEIGHT in *. lra.
Qed.

Lemma Math_floor_unit_scale (r : Q) (n : Z) :
  0 <= r < 1 -> (0 < n)%Z ->
  exists k : Z,
    Math_floor (r * inject_Z n) = inject_Z k /\ (0 <= k < n)%Z.
Proof.
  intros [L U] Hn. exists (Qfloor (r * inject_Z n)). split; [reflexivity|].
  assert (0 < inject_Z n) as Hn'.
  { change 0 with (inject_Z 0). rewrite <- Zlt_Qlt. exact Hn. }
  split.
  - change 0%Z with (Qfloor 0). apply Qfloor_resp_le. nra.
  - rewrite Zlt_Qlt. apply Qle_lt_trans with (r * inject_Z n).
    + apply Qfloor_le.
    + nra.
Qed.

Lemma randomBetween_integer (min max : Q) (lo hi : Z) (w : World) :
  0 <= random_source (randomCalls w) < 1 ->
  min == inject_Z lo -> max == inject_Z hi -> (lo <= hi)%Z ->
  exists k : Z,
    fst (randomBetween min max w) == inject_Z k /\ (lo <= k <= hi)%Z.
Proof.
  intros Hdraw Emin Emax Horder. unfold randomBetween, Math_random. simpl.
  destruct (Math_floor_unit_scale (random_source (randomCalls w))
              (hi - lo + 1) Hdraw) as (k & E & Hk); [lia|].
  exists (k + lo)%Z. split; [|lia].
  assert (max - min + 1 == inject_Z (hi - lo + 1)) as En.
  { rewrite Emin, Emax. unfold Z.sub.
    rewrite !inject_Z_plus, inject_Z_opp. reflexivity. }
  unfold Math_floor in *. rewrite En, E, inject_Z_plus, Emin. reflexivity.
Qed.

(** X4: with a draw in [[0, 1)] and integer bounds in order, [randomBetween]
    returns an integer between the bounds, both included, and takes exactly
    one draw. *)
Theorem randomBetween_in_range (min max : Z) (w : World)
    (Hdraw : 0 <= random_source (randomCalls w) < 1)
    (Horder : (min <= max)%Z) :
  exists k : Z,
    fst (randomBetween (inject_Z min) (inject_Z max) w) == inject_Z k
    /\ (min <= k <= max)%Z
    /\ snd (randomBetween (inject_Z min) (inject_Z max) w)
       = set_randomCalls (S (randomCalls w)) w.
Proof.
  destruct (randomBetween_integer (inject_Z min) (inject_Z max) min max w)
    as (k & E & Hk); try assumption; try reflexivity.
  exists k. split; [exact E|]. split; [exact Hk|reflexivity].
Qed.

(** ** Further invariants of the running page *)

Lemma endGame_frame (w : World) :
  fallingItems (world_of (endGame w)) = fallingItems w
  /\ groundMistakes (world_of (endGame w)) = groundMistakes w
  /\ itemSpawnState (world_of (endGame w)) = itemSpawnState w
  /\ groundMistakeSpawnState (world_of (endGame w)) = groundMistakeSpawnState w
  /\ patientState (world_of (endGame w)) = patientState w
  /\ player (world_of (endGame w)) = player w
  /\ mistakesState (world_of (endGame w)) = mistakesState w
  /\ lastTimestamp (world_of (endGame w)) = lastTimestamp w
  /\ inputState (world_of (endGame w)) = inputState w.
Proof.
  unfold endGame. cbv zeta. destruct (computeScore _ _); repeat split.
Qed.

(** Closes a goal about the world [endGame] leaves by going back to the
    world it was called on. *)
Ltac through_endGame :=
  match goal with
  | |- context [world_of (endGame ?v)] =>
      let E1 := fresh in let E2 := fresh in let E3 := fresh in
      let E4 := fresh in let E5 := fresh in let E6 := fresh in
      let E7 := fresh in let E8 := fresh in let E9 := fresh in
      destruct (endGame_frame v)
        as (E1 & E2 & E3 & E4 & E5 & E6 & E7 & E8 & E9);
      rewrite ?E1, ?E2, ?E3, ?E4, ?E5, ?E6, ?E7, ?E8, ?E9;
      clear E1 E2 E3 E4 E5 E6 E7 E8 E9
  end.

Lemma unit_delay (min max : Q) (lo hi : Z) (w : World) :
  unitSource -> min == inject_Z lo -> max == inject_Z hi -> (lo <= hi)%Z ->
  integerIn lo hi (fst (randomBetween min max w)).
Proof.
  intros Hu Emin Emax Ho.
  apply (randomBetween_integer min max lo hi w); auto.
Qed.

Lemma delaysOk_stable : unitSource -> stable delaysOk.
Proof.
  intros Hu.
  assert (forall w, integerIn 900 1800
            (fst (randomBetween ITEM_SPAWN_INTERVAL_MIN_MS
                    ITEM_SPAWN_INTERVAL_MAX_MS w))) as Hitem.
  { intros w. apply unit_delay; try reflexivity; [exact Hu|lia]. }
  assert (forall w, integerIn 2400 5600
            (fst (randomBetween GROUND_MISTAKE_SPAWN_INTERVAL_MIN_MS
                    GROUND_MISTAKE_SPAWN_INTERVAL_MAX_MS w))) as Hground.
  { intros w. apply unit_delay; try reflexivity; [exact Hu|lia]. }
  unfold stable, straight_stable. conjuncts; unfold delaysOk;
    try untouched.
  - intros dt w [H1 H2]. unfold tickItemSpawner. cbv zeta.
    destruct (Qle_bool _ _); [|split; assumption].
    split; [apply Hitem|exact H2].
  - intros dt w [H1 H2]. unfold tickGroundMistakeSpawner. cbv zeta.
    destruct (Qle_bool _ _); [|split; assumption].
    split; [exact H1|apply Hground].
  - intros dt box i w H. unfold updateFallingItems_body.
    destruct (fallingItems w !! i) as [item|]; [|exact H].
    cbv zeta. simpl Item.type. simpl Item.y.
    destruct (intersects _ _).
    + destruct (Item.type item); simpl; try exact H.
      destruct (Qle_bool _ _); simpl; [|exact H].
      through_endGame. exact H.
    + destruct (Qlt_bool _ _); [|exact H].
      destruct (Item.type item); exact H.
  - intros dt box i w H. unfold updateGroundMistakes_body.
    destruct (groundMistakes w !! i) as [ob|]; [|exact H].
    cbv zeta. simpl GroundMistake.lifetimeMs.
    destruct (intersects _ _).
    + simpl. destruct (Qle_bool _ _); simpl; [|exact H].
      through_endGame. exact H.
    + destruct (Qle_bool _ _); exact H.
  - intros w. split; [apply Hitem|apply Hground].
Qed.

(** X5: when [Math.random()] stays in [[0, 1)], in every reachable state the
    delay the item spawner waits for is a whole number of milliseconds
    between 900 and 1800, and the delay of the ground-mistake spawner one
    between 2400 and 5600. *)
Theorem spawn_delays_in_range (w : World)
    (Hsource : unitSource) (Hr : reachable w) :
  integerIn 900 1800 (SpawnState.nextSpawnDelayMs (itemSpawnState w))
  /\ integerIn 2400 5600
       (SpawnState.nextSpawnDelayMs (groundMistakeSpawnState w)).
Proof.
  revert w Hr. apply stable_reachable; [apply delaysOk_stable, Hsource|].
  pose proof (delaysOk_stable Hsource) as (_ & _ & _ & Hstart).
  split.
  - apply (unit_delay ITEM_SPAWN_INTERVAL_MIN_MS ITEM_SPAWN_INTERVAL_MAX_MS);
      try reflexivity; [exact Hsource|lia].
  - apply (unit_delay GROUND_MISTAKE_SPAWN_INTERVAL_MIN_MS
             GROUND_MISTAKE_SPAWN_INTERVAL_MAX_MS);
      try reflexivity; [exact Hsource|lia].
Qed.

Lemma updateFallingItems_body_Forall
    (P : Item.t -> Prop) (dt : Q) (box : Box.t) (i : nat) (w : World) :
  (forall item, P item -> P (fallen dt item)) ->
  Forall P (fallingItems w) ->
  flow_holds (fun w' => Forall P (fallingItems w'))
    (fun r => Forall P (fallingItems (world_of r)))
    (updateFallingItems_body dt box i w).
Proof.
  intros Hfall H. unfold updateFallingItems_body.
  destruct (fallingItems w !! i) as [item|] eqn:Hi; [|exact H].
  fold (fallen dt item). cbv zeta.
  assert (Forall P (<[i:=fallen dt item]> (fallingItems w))) as Hins.
  { apply Forall_insert; [exact H|].
    apply Hfall. eapply Forall_lookup_1; eassumption. }
  pose proof (Forall_delete P _ i Hins) as Hdel.
  destruct (intersects _ _).
  - destruct (Item.type (fallen dt item)); simpl; try exact Hdel.
    destruct (Qle_bool _ _); simpl; [|exact Hdel].
    through_endGame. exact Hins.
  - destruct (Qlt_bool _ _); [|exact Hins].
    destruct (Item.type (fallen dt item)); exact Hdel.
Qed.

Lemma updateGroundMistakes_body_fallingItems
    (dt : Q) (box : Box.t) (i : nat) (w : World) :
  flow_holds (fun w' => fallingItems w' = fallingItems w)
    (fun r => fallingItems (world_of r) = fallingItems w)
    (updateGroundMistakes_body dt box i w).
Proof.
  unfold updateGroundMistakes_body.
  destruct (groundMistakes w !! i) as [ob|]; [|reflexivity].
  cbv zeta. simpl GroundMistake.lifetimeMs.
  destruct (intersects _ _).
  - simpl. destruct (Qle_bool _ _); simpl; [|reflexivity].
    through_endGame. reflexivity.
  - destruct (Qle_bool _ _); reflexivity.
Qed.

(** A property of items that falling does not change, and that every
    spawned item has, holds of all falling items at all times. *)
Lemma itemsForall_stable (P : Item.t -> Prop) :
  (forall dt item, P item -> P (fallen dt item)) ->
  (forall w y,
     P (Item.mk ASSESSMENT (fst (randomBetween 20 (canvas_width - 20 - 26) w))
          y 26 30 133)) ->
  (forall w y,
     P (Item.mk KNOWLEDGE (fst (randomBetween 20 (canvas_width - 20 - 22) w))
          y 22 26 180)) ->
  (forall w y,
     P (Item.mk MISTAKE (fst (randomBetween 20 (canvas_width - 20 - 22) w))
          y 22 26 260)) ->
  stable (fun w => Forall P (fallingItems w)).
Proof.
  intros Hfall Ha Hk Hm. unfold stable, straight_stable.
  conjuncts; try untouched.
  - intros w H. unfold triggerAssessment.
    destruct (negb _ && _); [|exact H].
    unfold spawnAssessmentItem. cbv zeta.
    apply Forall_app_2; [exact H|]. apply Forall_singleton, Ha.
  - intros dt w H. unfold tickItemSpawner. cbv zeta.
    destruct (Qle_bool _ _); [|exact H].
    unfold spawnRandomItem. cbv zeta.
    change (Forall P
              (fallingItems w
               ++ [Item.mk
                     (if Qlt_bool 0.825 (random_source (randomCalls w))
                      then MISTAKE else KNOWLEDGE)
                     (fst (randomBetween 20 (canvas_width - 20 - 22)
                             (snd (Math_random w))))
                     (- 26) 22 26
                     (match
                        (if Qlt_bool 0.825 (random_source (randomCalls w))
                         then MISTAKE else KNOWLEDGE)
                      with
                      | KNOWLEDGE => 180
                      | _ => 260
                      end)])).
    apply Forall_app_2; [exact H|]. apply Forall_singleton.
    destruct (Qlt_bool _ _); [apply Hm|apply Hk].
  - intros dt box i w H.
    apply updateFallingItems_body_Forall; [apply Hfall|exact H].
  - intros dt box i w H.
    pose proof (updateGroundMistakes_body_fallingItems dt box i w) as Hb.
    destruct (updateGroundMistakes_body dt box i w); simpl in *;
      rewrite Hb; exact H.
  - intros w. apply Forall_nil. exact I.
Qed.

Lemma unit_placed (width : Q) (wz W : Z) (w : World) :
  unitSource -> canvas_width == inject_Z W -> width == inject_Z wz ->
  (40 + wz <= W)%Z ->
  placed (fst (randomBetween 20 (canvas_width - 20 - width) w)) width.
Proof.
  intros Hu EW Ew Hwide.
  destruct (unit_delay 20 (canvas_width - 20 - width) 20 (W - 20 - wz) w)
    as (k & E & Hk); try assumption; try reflexivity.
  - rewrite EW, Ew. unfold Z.sub. rewrite !inject_Z_plus, !inject_Z_opp.
    reflexivity.
  - lia.
  - unfold placed. rewrite E, EW, Ew. split.
    + change 20 with (inject_Z 20). rewrite <- Zle_Qle. lia.
    + assert (inject_Z W - 20 - inject_Z wz == inject_Z (W - 20 - wz)) as ->.
      { unfold Z.sub. rewrite !inject_Z_plus, !inject_Z_opp. reflexivity. }
      rewrite <- Zle_Qle. lia.
Qed.

(** X6: every falling item of a reachable state has the size and the speed
    of its type (22 by 26 at 180 for a knowledge book, 22 by 26 at 260 for a
    mistake, 26 by 30 at 133 for an assessment), on any host; and when
    [Math.random()] stays in [[0, 1)] and the canvas is a whole number of
    pixels wide, at least 66, it lies inside the stage, twenty pixels off
    either side. *)
Theorem falling_items_well_formed (w : World) (Hr : reachable w) :
  Forall itemShape (fallingItems w)
  /\ (forall W : Z,
        unitSource -> canvas_width == inject_Z W -> (66 <= W)%Z ->
        Forall (fun item => placed (Item.x item) (Item.width item))
          (fallingItems w)).
Proof.
  split.
  - revert w Hr. apply stable_reachable; [|apply Forall_nil; exact I].
    apply itemsForall_stable.
    + intros dt item H. exact H.
    + intros w y. repeat split.
    + intros w y. repeat split.
    + intros w y. repeat split.
  - intros W Hsource Hwidth Hwide.
    revert w Hr. apply stable_reachable; [|apply Forall_nil; exact I].
    apply itemsForall_stable.
    + intros dt item H. exact H.
    + intros w y.
      apply (unit_placed 26 26 W); auto; try reflexivity; try lia.
    + intros w y.
      apply (unit_placed 22 22 W); auto; try reflexivity; try lia.
    + intros w y.
      apply (unit_placed 22 22 W); auto; try reflexivity; try lia.
Qed.

Lemma delete_inserted {A : Type} (l : list A) (i : nat) (x : A) :
  delete i (<[i:=x]> l) = delete i l.
Proof.
  revert i. induction l as [|a l IH]; intros [|i]; simpl; try reflexivity.
  f_equal. apply IH.
Qed.

Lemma updateFallingItems_body_groundMistakes
    (dt : Q) (box : Box.t) (i : nat) (w : World) :
  flow_holds
    (fun w' =>
       groundMistakes w' = groundMistakes w
       /\ groundMistakeSpawnState w' = groundMistakeSpawnState w
       /\ patientState w' = patientState w /\ player w' = player w
       /\ lastTimestamp w' = lastTimestamp w
       /\ inputState w' = inputState w
       /\ itemSpawnState w' = itemSpawnState w)
    (fun r =>
       groundMistakes (world_of r) = groundMistakes w
       /\ groundMistakeSpawnState (world_of r) = groundMistakeSpawnState w
       /\ patientState (world_of r) = patientState w
       /\ player (world_of r) = player w
       /\ lastTimestamp (world_of r) = lastTimestamp w
       /\ inputState (world_of r) = inputState w
       /\ itemSpawnState (world_of r) = itemSpawnState w)
    (updateFallingItems_body dt box i w).
Proof.
  unfold updateFallingItems_body.
  destruct (fallingItems w !! i) as [item|]; [|simpl; repeat split].
  cbv zeta. simpl Item.type. simpl Item.y.
  destruct (intersects _ _).
  - destruct (Item.type item); simpl; try (repeat split; reflexivity).
    destruct (Qle_bool _ _); simpl; [|repeat split].
    through_endGame. repeat split.
  - destruct (Qlt_bool _ _); [|simpl; repeat split].
    destruct (Item.type item); simpl; repeat split.
Qed.

Lemma groundMistakes_stable (P : GroundMistake.t -> Prop) :
  (forall ob dt,
     P ob ->
     GroundMistake.lifetimeMs ob + dt < GROUND_MISTAKE_DURATION_MS ->
     P (GroundMistake.mk (GroundMistake.x ob) (GroundMistake.y ob)
          (GroundMistake.width ob) (GroundMistake.height ob)
          (GroundMistake.lifetimeMs ob + dt))) ->
  (forall w,
     P (GroundMistake.mk
          (fst (randomBetween 20 (canvas_width - 20 - 22) w))
          (FLOOR_Y - 26) 22 26 0)) ->
  stable (fun w => Forall P (groundMistakes w)).
Proof.
  intros Hage Hnew. unfold stable, straight_stable.
  conjuncts; try untouched.
  - intros dt w H. unfold tickGroundMistakeSpawner. cbv zeta.
    destruct (Qle_bool _ _); [|exact H].
    unfold spawnGroundMistake. cbv zeta.
    apply Forall_app_2; [exact H|]. apply Forall_singleton, Hnew.
  - intros dt box i w H.
    pose proof (updateFallingItems_body_groundMistakes dt box i w) as Hb.
    destruct (updateFallingItems_body dt box i w); simpl in *;
      destruct Hb as (-> & _); exact H.
  - intros dt box i w H. unfold updateGroundMistakes_body.
    destruct (groundMistakes w !! i) as [ob|] eqn:Hi; [|exact H].
    cbv zeta. simpl GroundMistake.lifetimeMs.
    assert (forall x, Forall P (delete i (<[i:=x]> (groundMistakes w))))
      as Hdel.
    { intros x. rewrite delete_inserted. apply Forall_delete, H. }
    destruct (intersects _ _).
    + simpl. destruct (Qle_bool _ _); simpl; [|apply Hdel].
      through_endGame. apply Hdel.
    + destruct (Qle_bool _ _) eqn:E; simpl.
      * apply Hdel.
      * apply Qle_bool_false_iff in E.
        apply Forall_insert; [exact H|]. apply Hage; [|exact E].
        eapply Forall_lookup_1; eassumption.
  - intros w. apply Forall_nil. exact I.
Qed.

(** X7: every ground mistake of a reachable state is a 22 by 26 box
    standing on the floor line whose lifetime is below the 2000 ms after
    which it is removed, on any host; and when [Math.random()] stays in
    [[0, 1)] and the canvas is a whole number of pixels wide, at least 62,
    it lies inside the stage, twenty pixels off either side. *)
Theorem ground_mistakes_well_formed (w : World) (Hr : reachable w) :
  Forall
    (fun ob =>
       groundMistakeOk ob
       /\ GroundMistake.y ob + GroundMistake.height ob == FLOOR_Y)
    (groundMistakes w)
  /\ (forall W : Z,
        unitSource -> canvas_width == inject_Z W -> (62 <= W)%Z ->
        Forall
          (fun ob => placed (GroundMistake.x ob) (GroundMistake.width ob))
          (groundMistakes w)).
Proof.
  split.
  - revert w Hr. apply stable_reachable; [|apply Forall_nil; exact I].
    apply groundMistakes_stable.
    + intros ob dt ((Hw & Hh & Hy & Hl) & Hf) L.
      unfold groundMistakeOk. simpl in *. tauto.
    + intros w'. unfold groundMistakeOk. simpl.
      split; [repeat split|ring].
  - intros W Hsource Hwidth Hwide.
    revert w Hr. apply stable_reachable; [|apply Forall_nil; exact I].
    apply groundMistakes_stable.
    + intros ob dt Hp L. exact Hp.
    + intros w'.
      apply (unit_placed 22 22 W); auto; try reflexivity; try lia.
Qed.

(** As [untouched], for predicates that themselves test the state: the
    hypothesis is analysed together with the goal. *)
Ltac frame :=
  intros; unfold_script; cbv zeta; simpl in *;
  repeat match goal with
  | H : ?T |- _ => match type of T with Prop => revert H end
  end;
  repeat (match goal with
          | |- context [if ?c then _ else _] => destruct c eqn:?
          end; simpl);
  repeat (match goal with
          | |- context [match PatientState.active ?p with _ => _ end] =>
              destruct (PatientState.active p) eqn:?
          end; simpl);
  intros; first [assumption | tauto].

Lemma updateGroundMistakes_body_frame
    (dt : Q) (box : Box.t) (i : nat) (w : World) :
  flow_holds
    (fun w' =>
       fallingItems w' = fallingItems w
       /\ patientState w' = patientState w /\ player w' = player w
       /\ scoreState w' = scoreState w
       /\ knowledgeState w' = knowledgeState w
       /\ lastTimestamp w' = lastTimestamp w
       /\ inputState w' = inputState w)
    (fun r =>
       fallingItems (world_of r) = fallingItems w
       /\ patientState (world_of r) = patientState w
       /\ player (world_of r) = player w
       /\ scoreState (world_of r) = scoreState w
       /\ knowledgeState (world_of r) = knowledgeState w
       /\ lastTimestamp (world_of r) = lastTimestamp w
       /\ inputState (world_of r) = inputState w)
    (updateGroundMistakes_body dt box i w).
Proof.
  unfold updateGroundMistakes_body.
  destruct (groundMistakes w !! i) as [ob|]; [|simpl; repeat split].
  cbv zeta. simpl GroundMistake.lifetimeMs.
  destruct (intersects _ _).
  - simpl. destruct (Qle_bool _ _); simpl; [|repeat split].
    through_endGame. rewrite endGame_scoreState, endGame_knowledgeState.
    repeat split.
  - destruct (Qle_bool _ _); simpl; repeat split.
Qed.

Lemma patientSlotOk_stable : stable patientSlotOk.
Proof.
  unfold stable, straight_stable. conjuncts; unfold patientSlotOk;
    try frame.
  - intros dt w. unfold updatePatient. cbv zeta.
    destruct (PatientState.active (patientState w)) as [patient|].
    + simpl Patient.x. simpl Patient.y. simpl Patient.width.
      simpl Patient.height. simpl Patient.lifetimeMs.
      intros (Hw & Hh & Hy & Hl & Hc & Hg).
      assert (0 <= PATIENT_GAP_MS) as L0 by (unfold PATIENT_GAP_MS; lra).
      destruct (Qle_bool KNOWLEDGE_WARNING_THRESHOLD _ && _).
      * destruct (Qle_bool PATIENT_TREAT_DURATION_MS _) eqn:E1; simpl;
          [split; [reflexivity|exact L0]|].
        apply Qle_bool_false_iff in E1.
        destruct (Qle_bool PATIENT_VISIBLE_MS _) eqn:E2; simpl;
          [split; [reflexivity|exact L0]|].
        apply Qle_bool_false_iff in E2. tauto.
      * destruct (Qle_bool PATIENT_VISIBLE_MS _) eqn:E2; simpl;
          [split; [reflexivity|exact L0]|].
        apply Qle_bool_false_iff in E2.
        repeat split; try assumption.
    + intros [Hc Hg].
      destruct (Qle_bool PATIENT_GAP_MS _) eqn:E; simpl.
      * repeat split.
      * apply Qle_bool_false_iff in E. split; [exact Hc|lra].
  - intros dt box i w H.
    pose proof (updateFallingItems_body_groundMistakes dt box i w) as Hb.
    destruct (updateFallingItems_body dt box i w); simpl in *;
      destruct Hb as (_ & _ & -> & _); exact H.
  - intros dt box i w H.
    pose proof (updateGroundMistakes_body_frame dt box i w) as Hb.
    destruct (updateGroundMistakes_body dt box i w); simpl in *;
      destruct Hb as (_ & -> & _); exact H.
  - intros w. simpl. split; [reflexivity|apply Qle_refl].
Qed.

(** X8: in every reachable state, a patient on stage is a 28 by 32 box
    standing on the floor line, younger than the 8000 ms it may stay, in
    contact for less than the 2000 ms a treatment takes, with the gap timer
    at zero; with no patient on stage the contact timer is zero and the gap
    timer at most 2000 ms. *)
Theorem patient_slot_well_formed (w : World) (Hr : reachable w) :
  match PatientState.active (patientState w) with
  | Some patient =>
      Patient.width patient = 28 /\ Patient.height patient = 32
      /\ Patient.y patient + Patient.height patient == FLOOR_Y
      /\ Patient.lifetimeMs patient < PATIENT_VISIBLE_MS
      /\ PatientState.contactDurationMs (patientState w)
         < PATIENT_TREAT_DURATION_MS
      /\ PatientState.timeSinceLastPatientGoneMs (patientState w) = 0
  | None =>
      PatientState.contactDurationMs (patientState w) = 0
      /\ PatientState.timeSinceLastPatientGoneMs (patientState w)
         <= PATIENT_GAP_MS
  end.
Proof.
  assert (patientSlotOk w) as H.
  { revert w Hr. apply stable_reachable; [exact patientSlotOk_stable|].
    unfold patientSlotOk. simpl. split; [reflexivity|apply Qle_refl]. }
  unfold patientSlotOk in H.
  destruct (PatientState.active (patientState w)) as [patient|]; [|exact H].
  destruct H as (Hw & Hh & Hy & Hl & Hc & Hg).
  repeat split; try assumption. rewrite Hy, Hh. ring.
Qed.

Lemma updatePlayer_playerOk (dt : Q) (w : World) :
  PLAYER_WIDTH <= canvas_width -> playerOk w -> playerOk (updatePlayer dt w).
Proof.
  intros Hcanvas (Hy & Hx & Hg & Hvx & Hf). unfold playerOk, updatePlayer.
  destruct (InputState.left (inputState w)),
    (InputState.right (inputState w));
    (destruct (InputState.jump (inputState w) && Player.onGround (player w))
       eqn:Ej;
     cbv zeta; cbv beta iota;
     match goal with
     | |- context [Qle_bool ?a ?b] =>
         destruct (Qle_bool a b) eqn:E;
         [apply Qle_bool_iff in E | apply Qle_bool_false_iff in E]
     end;
     simpl;
     (split; [lra|]);
     (split; [apply clamp_bounds; lra|]);
     (split;
      [ try (intros _; split; [ring|reflexivity]); try discriminate
      | split; [unfold PLAYER_SPEED; lra|lra] ])).
  all: intros Hon; exfalso; destruct (Hg Hon) as [Ey Ev];
    unfold GRAVITY, PLAYER_HEIGHT in *; nra.
Qed.

Lemma playerOk_stable : PLAYER_WIDTH <= canvas_width -> stable playerOk.
Proof.
  intros Hcanvas. unfold stable, straight_stable.
  conjuncts; try (unfold playerOk; untouched).
  - intros dt w. apply updatePlayer_playerOk, Hcanvas.
  - intros dt box i w H. unfold playerOk in *.
    pose proof (updateFallingItems_body_groundMistakes dt box i w) as Hb.
    destruct (updateFallingItems_body dt box i w); simpl in *;
      destruct Hb as (_ & _ & _ & -> & _); exact H.
  - intros dt box i w H. unfold playerOk in *.
    pose proof (updateGroundMistakes_body_frame dt box i w) as Hb.
    destruct (updateGroundMistakes_body dt box i w); simpl in *;
      destruct Hb as (_ & _ & -> & _); exact H.
  - intros w. unfold playerOk. simpl.
    unfold PLAYER_WIDTH, PLAYER_HEIGHT, PLAYER_SPEED, Qdiv in *.
    change (/ 2) with (1 # 2).
    split; [lra|]. split; [lra|]. split; [|split; left; reflexivity].
    intros _. split; [ring|reflexivity].
Qed.

(** X9: on a canvas at least as wide as the player, in every reachable
    state the player is on or above the floor line and between the sides of
    the stage; when [onGround] is set the player stands exactly on the floor
    line with no vertical speed; the horizontal speed is 0, 220 or -220 and
    the facing 1 or -1. *)
Theorem player_well_formed (w : World)
    (Hcanvas : PLAYER_WIDTH <= canvas_width) (Hr : reachable w) :
  Player.y (player w) + PLAYER_HEIGHT <= FLOOR_Y
  /\ 0 <= Player.x (player w) <= canvas_width - PLAYER_WIDTH
  /\ (Player.onGround (player w) = true ->
      Player.y (player w) + PLAYER_HEIGHT == FLOOR_Y
      /\ Player.vy (player w) == 0)
  /\ (Player.vx (player w) == 0 \/ Player.vx (player w) == PLAYER_SPEED
      \/ Player.vx (player w) == - PLAYER_SPEED)
  /\ (Player.facing (player w) == 1 \/ Player.facing (player w) == - (1)).
Proof.
  revert w Hr. apply (stable_reachable playerOk).
  - apply playerOk_stable, Hcanvas.
  - unfold playerOk. simpl.
    unfold PLAYER_WIDTH, PLAYER_HEIGHT, PLAYER_SPEED, Qdiv in *.
    change (/ 2) with (1 # 2).
    split; [lra|]. split; [lra|]. split; [|split; left; reflexivity].
    intros _. split; [ring|reflexivity].
Qed.

Lemma whole_zero : whole 0.
Proof. exists O. reflexivity. Qed.

Lemma whole_succ (q : Q) : whole q -> whole (q + 1).
Proof.
  intros [n E]. exists (S n). rewrite E, Nat2Z.inj_succ.
  unfold Z.succ. rewrite inject_Z_plus. reflexivity.
Qed.

Lemma whole_clamp_succ (q : Q) :
  whole q -> whole (clamp (q + 1) 0 MAX_MISTAKES).
Proof.
  intros H. destruct (Qlt_le_dec MAX_MISTAKES (q + 1)) as [L|L].
  - exists 5%nat. rewrite clamp_above; [reflexivity| |];
      unfold MAX_MISTAKES in *; lra.
  - destruct (whole_succ q H) as [n E]. exists n.
    rewrite clamp_inside; [exact E|]. split; [|exact L].
    rewrite E. change 0 with (inject_Z 0). rewrite <- Zle_Qle. lia.
Qed.

Lemma countersWhole_stable : stable countersWhole.
Proof.
  unfold stable, straight_stable.
  conjuncts; unfold countersWhole, mistakes, treated, passed; try untouched.
  - intros dt w (Hm & Ht & Hp).
    unfold updatePatient, randomBetween, Math_random. cbv zeta.
    pose proof (whole_succ _ Ht).
    destruct (PatientState.active _); split_conditions; simpl; tauto.
  - intros dt box i w (Hm & Ht & Hp). unfold updateFallingItems_body.
    destruct (fallingItems w !! i) as [item|]; [|simpl; tauto].
    cbv zeta. simpl Item.type. simpl Item.y.
    pose proof (whole_clamp_succ _ Hm). pose proof (whole_succ _ Hp).
    pose proof whole_zero.
    destruct (intersects _ _).
    + destruct (Item.type item); simpl; try tauto.
      destruct (Qle_bool _ _); simpl; [|tauto].
      through_endGame. rewrite endGame_scoreState. simpl. tauto.
    + destruct (Qlt_bool _ _); [|simpl; tauto].
      destruct (Item.type item); simpl; tauto.
  - intros dt box i w (Hm & Ht & Hp). unfold updateGroundMistakes_body.
    destruct (groundMistakes w !! i) as [ob|]; [|simpl; tauto].
    cbv zeta. simpl GroundMistake.lifetimeMs.
    pose proof (whole_clamp_succ _ Hm).
    destruct (intersects _ _).
    + simpl. destruct (Qle_bool _ _); simpl; [|tauto].
      through_endGame. rewrite endGame_scoreState. simpl. tauto.
    + destruct (Qle_bool _ _); simpl; tauto.
  - intros w. simpl. pose proof whole_zero. tauto.
Qed.

(** X10: in every reachable state the three counters are whole numbers: the
    mistakes one of 0 to 5, the patients treated and the assessments passed
    natural numbers. *)
Theorem counters_are_whole (w : World) (Hr : reachable w) :
  exists m t p : nat,
    mistakes w == inject_Z (Z.of_nat m) /\ (m <= 5)%nat
    /\ treated w == inject_Z (Z.of_nat t)
    /\ passed w == inject_Z (Z.of_nat p).
Proof.
  assert (countersWhole w) as ([m Em] & [t Et] & [p Ep]).
  { revert w Hr. apply stable_reachable; [exact countersWhole_stable|].
    pose proof whole_zero. unfold countersWhole. simpl. tauto. }
  exists m, t, p. repeat split; try assumption.
  destruct (reachable_mistakesInRange w Hr) as [_ U].
  rewrite Em in U. unfold MAX_MISTAKES in U.
  change 5 with (inject_Z 5) in U. rewrite <- Zle_Qle in U. lia.
Qed.

Lemma endGame_overShown (w : World) :
  scoresOk w -> overShown (world_of (endGame w)).
Proof.
  intros H. pose proof H as [Ht Hp].
  unfold overShown, scoreShown, scoresOk, treated, passed, endGame in *.
  cbv zeta. simpl scoreState. rewrite computeScore_number.
  destruct (Qlt_bool (ScoreState.patientsTreated _) 0) eqn:E1;
    [apply Qlt_bool_iff in E1; lra|].
  destruct (Qlt_bool (ScoreState.assessmentsPassed _) 0) eqn:E2;
    [apply Qlt_bool_iff in E2; lra|].
  simpl. split; [reflexivity|]. split; [|tauto].
  split; [reflexivity|]. eexists. split; [reflexivity|]. ring.
Qed.

Lemma straight_stable_and (P Q : World -> Prop) :
  straight_stable P -> straight_stable Q ->
  straight_stable (fun w => P w /\ Q w).
Proof.
  unfold straight_stable.
  intros (P1 & P2 & P3 & P4 & P5 & P6 & P7 & P8 & P9)
    (Q1 & Q2 & Q3 & Q4 & Q5 & Q6 & Q7 & Q8 & Q9).
  conjuncts; intros;
    match goal with H : _ /\ _ |- _ => destruct H end; split; auto.
Qed.

Lemma playingHidden_straight_stable : straight_stable playingHidden.
Proof.
  change (straight_stable
            (fun w => gameState w = PLAYING
                      /\ (fun w => overlaysHidden w /\ scoresOk w) w)).
  apply straight_stable_and; [|apply straight_stable_and].
  - unfold straight_stable. conjuncts; untouched.
  - unfold straight_stable. conjuncts; unfold overlaysHidden; untouched.
  - apply scoresOk_stable.
Qed.

Lemma updateFallingItems_body_page
    (dt : Q) (box : Box.t) (i : nat) (w : World) :
  playingHidden w ->
  flow_holds playingHidden (fun r => raised r = true \/ overShown (world_of r))
    (updateFallingItems_body dt box i w).
Proof.
  intros H. pose proof H as (Hg & Ho & Hs).
  pose proof scoresOk_stable as (_ & Hbody & _).
  specialize (Hbody dt box i w Hs). revert Hbody.
  unfold updateFallingItems_body.
  destruct (fallingItems w !! i) as [item|]; [|simpl; auto].
  cbv zeta. simpl Item.type. simpl Item.y.
  destruct (intersects _ _).
  - destruct (Item.type item); simpl; intros Hb;
      try (split; [exact Hg|split; [exact Ho|exact Hb]]).
    destruct (Qle_bool _ _); simpl in *.
    + right. apply endGame_overShown. exact Hs.
    + split; [exact Hg|split; [exact Ho|exact Hb]].
  - destruct (Qlt_bool _ _); simpl; intros Hb; [|exact H].
    destruct (Item.type item); simpl; exact H.
Qed.

Lemma updateGroundMistakes_body_page
    (dt : Q) (box : Box.t) (i : nat) (w : World) :
  playingHidden w ->
  flow_holds playingHidden (fun r => raised r = true \/ overShown (world_of r))
    (updateGroundMistakes_body dt box i w).
Proof.
  intros H. pose proof H as (Hg & Ho & Hs).
  unfold updateGroundMistakes_body.
  destruct (groundMistakes w !! i) as [ob|]; [|simpl; auto].
  cbv zeta. simpl GroundMistake.lifetimeMs.
  destruct (intersects _ _).
  - simpl. destruct (Qle_bool _ _); simpl.
    + right. apply endGame_overShown. exact Hs.
    + exact H.
  - destruct (Qle_bool _ _); exact H.
Qed.

Lemma fallingPhase_page (timestamp : Q) (w : World) :
  playingHidden w ->
  playingHidden (world_of (fallingPhase timestamp w))
  \/ overShown (world_of (fallingPhase timestamp w)).
Proof.
  intros H. unfold fallingPhase. cbv zeta.
  set (d := frameDelta timestamp w / 1000).
  set (v := updateKnowledgeAndItems (frameDelta timestamp w)
              (updatePlayer d (set_lastTimestamp (Some timestamp) w))).
  assert (playingHidden v) as Hv.
  { apply stable_updateKnowledgeAndItems;
      [exact playingHidden_straight_stable|].
    apply playingHidden_straight_stable, playingHidden_straight_stable, H. }
  pose proof (updateFallingItems_not_raised d v (proj2 (proj2 Hv))) as Hn.
  assert (raised (updateFallingItems d v) = true
          \/ playingHidden (world_of (updateFallingItems d v))
          \/ overShown (world_of (updateFallingItems d v))) as [Hr|Hr].
  { apply (updateFallingItems_rule playingHidden
             (fun r => raised r = true
                       \/ playingHidden (world_of r)
                       \/ overShown (world_of r))); [| |exact Hv].
    - intros box i w' H' _.
      pose proof (updateFallingItems_body_page d box i w' H') as Hb.
      revert Hb. apply flow_holds_weaken; tauto.
    - simpl. auto. }
  - congruence.
  - exact Hr.
Qed.

Lemma groundPhase_page (dt : Q) (w : World) :
  playingHidden w ->
  playingHidden (world_of (groundPhase dt w))
  \/ overShown (world_of (groundPhase dt w)).
Proof.
  intros H. unfold groundPhase. rewrite world_of_andThen_Done.
  assert (playingHidden (updatePatient dt w)) as Hv
    by (apply playingHidden_straight_stable, H).
  pose proof (updateGroundMistakes_not_raised dt _ (proj2 (proj2 Hv))) as Hn.
  assert (raised (updateGroundMistakes dt (updatePatient dt w)) = true
          \/ playingHidden
               (world_of (updateGroundMistakes dt (updatePatient dt w)))
          \/ overShown
               (world_of (updateGroundMistakes dt (updatePatient dt w))))
    as [Hr|Hr].
  { apply (updateGroundMistakes_rule playingHidden
             (fun r => raised r = true
                       \/ playingHidden (world_of r)
                       \/ overShown (world_of r))).
    - intros box i w' H' _.
      pose proof (updateGroundMistakes_body_page dt box i w' H') as Hb.
      revert Hb. apply flow_holds_weaken; tauto.
    - simpl. auto.
    - apply playingHidden_straight_stable, Hv. }
  - congruence.
  - exact Hr.
Qed.

Lemma pageOk_dispatch (e : Event) (w : World) :
  pageOk w -> pageOk (world_of (dispatch e w)).
Proof.
  assert (forall w', playingHidden w' \/ overShown w' -> pageOk w') as Hcases.
  { intros w' [H'|H']; pose proof H' as (Hg & _); unfold pageOk;
      rewrite Hg; exact H'. }
  assert (forall w', playingHidden (startGame w')) as Hstart.
  { intros w'. unfold playingHidden, overlaysHidden, scoresOk, treated, passed.
    simpl. repeat split; apply Qle_refl. }
  intros H. destruct e; simpl.
  - rewrite gameLoop_phases.
    destruct (gameState w) eqn:Hg; cbv beta iota delta [GameState_eqb negb];
      [exact H| |exact H].
    unfold pageOk in H. rewrite Hg in H.
    pose proof (fallingPhase_page timestamp w H) as H1.
    destruct (fallingPhase timestamp w) as [w1|msg w1];
      cbv beta iota delta [andThen world_of] in *; [|apply Hcases, H1].
    destruct H1 as [H1|H1]; pose proof H1 as (Hg1 & _); rewrite Hg1;
      cbv beta iota delta [GameState_eqb].
    + apply Hcases, groundPhase_page, H1.
    + apply Hcases. right. exact H1.
  - revert H.
    unfold pageOk, playingHidden, overShown, scoreShown, overlaysHidden,
      scoresOk, treated, passed.
    frame.
  - revert H.
    unfold pageOk, playingHidden, overShown, scoreShown, overlaysHidden,
      scoresOk, treated, passed.
    frame.
  - destruct (gameState w) eqn:Hg; simpl; try exact H;
      apply Hcases; left; apply Hstart.
  - destruct (gameState w) eqn:Hg; simpl; try exact H;
      apply Hcases; left; apply Hstart.
Qed.

Lemma reachable_pageOk (w : World) : reachable w -> pageOk w.
Proof.
  intros Hr. induction Hr as [|e w w' _ IH E].
  - unfold pageOk, scoresOk, treated, passed. simpl.
    split; apply Qle_refl.
  - pose proof (pageOk_dispatch e w IH) as H. rewrite E in H. exact H.
Qed.

(** X11: in every reachable state where the game is over, the game-over
    screen is visible and the score line holds the patients treated plus
    twice the assessments passed, for the counters as they stand; in every
    reachable state in play both overlay screens are hidden. *)
Theorem final_score_on_show (w : World) (Hr : reachable w) :
  (gameState w = GAME_OVER ->
   Page.gameOverScreenVisible (page w) = true
   /\ exists s,
        Page.finalScoreLine (page w) = Some s
        /\ s == treated w + 2 * passed w)
  /\ (gameState w = PLAYING ->
      Page.startScreenVisible (page w) = false
      /\ Page.gameOverScreenVisible (page w) = false).
Proof.
  pose proof (reachable_pageOk w Hr) as H. unfold pageOk in H.
  split; intros Hg; rewrite Hg in H.
  - destruct H as (_ & H & _). exact H.
  - destruct H as (_ & H & _). exact H.
Qed.

(** ** Further properties of the listeners *)

(** X12: the keyboard handlers write nothing but the input flags; pressing
    a key twice is pressing it once, releasing twice is releasing once, a
    release undoes a press and a press undoes a release of the same key; a
    key that is neither an arrow nor the space bar changes nothing. *)
Theorem key_handlers_compose (event : KeyboardEvent.t) (w : World) :
  set_inputState (inputState w) (handleKeyDown event w) = w
  /\ set_inputState (inputState w) (handleKeyUp event w) = w
  /\ handleKeyDown event (handleKeyDown event w) = handleKeyDown event w
  /\ handleKeyUp event (handleKeyUp event w) = handleKeyUp event w
  /\ handleKeyUp event (handleKeyDown event w) = handleKeyUp event w
  /\ handleKeyDown event (handleKeyUp event w) = handleKeyDown event w
  /\ (String.eqb (KeyboardEvent.key event) "ArrowLeft" = false ->
      String.eqb (KeyboardEvent.key event) "ArrowRight" = false ->
      String.eqb (KeyboardEvent.code event) "Space" = false ->
      handleKeyDown event w = w /\ handleKeyUp event w = w).
Proof.
  unfold handleKeyDown, handleKeyUp.
  destruct w as [? [l r j] ? ? ? ? ? ? ? ? ? ? ? ? ? ?].
  cbv zeta. simpl inputState.
  destruct (String.eqb (KeyboardEvent.key event) "ArrowLeft") eqn:E1;
    [repeat split; try reflexivity; discriminate|].
  destruct (String.eqb (KeyboardEvent.key event) "ArrowRight") eqn:E2;
    [repeat split; try reflexivity; discriminate|].
  destruct (String.eqb (KeyboardEvent.code event) "Space") eqn:E3;
    repeat split; try reflexivity; discriminate.
Qed.

(** ** The first frame of a session *)

Lemma updatePlayer_frame (dt : Q) (w : World) :
  set_player (player w) (updatePlayer dt w) = w.
Proof.
  unfold updatePlayer. destruct w. cbv zeta. simpl.
  split_conditions; reflexivity.
Qed.

Lemma updatePlayer_others (dt : Q) (w : World) :
  gameState (updatePlayer dt w) = gameState w
  /\ knowledgeState (updatePlayer dt w) = knowledgeState w
  /\ fallingItems (updatePlayer dt w) = fallingItems w
  /\ itemSpawnState (updatePlayer dt w) = itemSpawnState w
  /\ assessmentState (updatePlayer dt w) = assessmentState w
  /\ patientState (updatePlayer dt w) = patientState w
  /\ groundMistakes (updatePlayer dt w) = groundMistakes w
  /\ groundMistakeSpawnState (updatePlayer dt w) = groundMistakeSpawnState w
  /\ lastTimestamp (updatePlayer dt w) = lastTimestamp w
  /\ mistakesState (updatePlayer dt w) = mistakesState w
  /\ scoreState (updatePlayer dt w) = scoreState w.
Proof.
  pose proof (updatePlayer_frame dt w) as E.
  rewrite <- E at 2 4 6 8 10 12 14 16 18 20 22. repeat split.
Qed.

Lemma erodeKnowledge_quiet (dt : Q) (w : World) :
  KnowledgeState.timeSinceErosionMs (knowledgeState w) + dt
  < KNOWLEDGE_EROSION_INTERVAL_MS ->
  erodeKnowledge dt w
  = set_knowledgeState
      (KnowledgeState.mk (KnowledgeState.percent (knowledgeState w))
         (KnowledgeState.timeSinceErosionMs (knowledgeState w) + dt)) w.
Proof.
  intros L. unfold erodeKnowledge. cbv zeta.
  apply Qle_bool_false_iff in L. rewrite L. reflexivity.
Qed.

Lemma triggerAssessment_quiet (w : World) :
  assessmentDue w = false -> triggerAssessment w = w.
Proof.
  unfold assessmentDue, triggerAssessment, pendingFlag, meter.
  intros ->. reflexivity.
Qed.

Lemma tickItemSpawner_quiet (dt : Q) (w : World) :
  SpawnState.timeSinceLastSpawnMs (itemSpawnState w) + dt
  < SpawnState.nextSpawnDelayMs (itemSpawnState w) ->
  tickItemSpawner dt w
  = set_itemSpawnState
      (SpawnState.mk (SpawnState.timeSinceLastSpawnMs (itemSpawnState w) + dt)
         (SpawnState.nextSpawnDelayMs (itemSpawnState w))) w.
Proof.
  intros L. unfold tickItemSpawner. cbv zeta.
  apply Qle_bool_false_iff in L. rewrite L. reflexivity.
Qed.

Lemma tickGroundMistakeSpawner_quiet (dt : Q) (w : World) :
  SpawnState.timeSinceLastSpawnMs (groundMistakeSpawnState w) + dt
  < SpawnState.nextSpawnDelayMs (groundMistakeSpawnState w) ->
  tickGroundMistakeSpawner dt w
  = set_groundMistakeSpawnState
      (SpawnState.mk
         (SpawnState.timeSinceLastSpawnMs (groundMistakeSpawnState w) + dt)
         (SpawnState.nextSpawnDelayMs (groundMistakeSpawnState w))) w.
Proof.
  intros L. unfold tickGroundMistakeSpawner. cbv zeta.
  apply Qle_bool_false_iff in L. rewrite L. reflexivity.
Qed.

Lemma updateFallingItems_empty (dt : Q) (w : World) :
  fallingItems w = [] -> updateFallingItems dt w = Done w.
Proof. unfold updateFallingItems. intros ->. reflexivity. Qed.

Lemma updateGroundMistakes_empty (dt : Q) (w : World) :
  groundMistakes (tickGroundMistakeSpawner dt w) = [] ->
  updateGroundMistakes dt w = Done (tickGroundMistakeSpawner dt w).
Proof. unfold updateGroundMistakes. cbv zeta. intros ->. reflexivity. Qed.

Lemma updatePatient_arrival (dt : Q) (w : World) :
  PatientState.active (patientState w) = None ->
  PATIENT_GAP_MS
  <= PatientState.timeSinceLastPatientGoneMs (patientState w) + dt ->
  updatePatient dt w
  = set_patientState
      (PatientState.mk
         (Some
            (Patient.mk (fst (randomBetween 20 (canvas_width - 20 - 28) w))
               (FLOOR_Y - 32) 28 32 0)) 0 0)
      (snd (randomBetween 20 (canvas_width - 20 - 28) w)).
Proof.
  intros E L. unfold updatePatient. cbv zeta. rewrite E.
  apply Qle_bool_iff in L. rewrite L. reflexivity.
Qed.

Lemma integerIn_lower (lo hi : Z) (q : Q) :
  integerIn lo hi q -> inject_Z lo <= q.
Proof.
  intros (k & E & Hk). rewrite E, <- Zle_Qle. lia.
Qed.

(** X14: when [Math.random()] stays in [[0, 1)], the first frame after
    [startGame], whatever its timestamp, is a frame of no elapsed time: it
    records the timestamp, leaves the meter at 50, the mistakes at 0 and the
    stage free of items and ground mistakes, keeps the game in play, and
    brings the first patient on stage at once, with lifetime zero. *)
Theorem first_frame_of_a_session (w0 : World) (timestamp : Q)
    (Hsource : unitSource) :
  exists w patient,
    gameLoop timestamp (startGame w0) = Done w
    /\ gameState w = PLAYING
    /\ lastTimestamp w = Some timestamp
    /\ meter w = 50 /\ mistakes w = 0
    /\ KnowledgeState.timeSinceErosionMs (knowledgeState w) == 0
    /\ fallingItems w = [] /\ groundMistakes w = []
    /\ PatientState.active (patientState w) = Some patient
    /\ Patient.lifetimeMs patient = 0
    /\ Patient.y patient + Patient.height patient == FLOOR_Y.
Proof.
  pose proof (delaysOk_stable Hsource) as (_ & _ & _ & Hstart).
  destruct (Hstart w0) as [HdI HdG].
  apply integerIn_lower in HdI. apply integerIn_lower in HdG.
  change (inject_Z 900) with 900 in HdI.
  change (inject_Z 2400) with 2400 in HdG.
  rewrite gameLoop_phases.
  change (gameState (startGame w0)) with PLAYING.
  cbv beta iota delta [GameState_eqb negb].
  change (frameDelta timestamp (startGame w0)) with (timestamp - timestamp).
  unfold fallingPhase.
  change (frameDelta timestamp (startGame w0)) with (timestamp - timestamp).
  cbv zeta.
  set (dt := timestamp - timestamp).
  assert (dt == 0) as E0 by (unfold dt; ring).
  set (ws := set_lastTimestamp (Some timestamp) (startGame w0)).
  destruct (updatePlayer_others (dt / 1000) ws)
    as (Eg & Ek & Ef & Ei & Ea & Ep & Egm & Egs & El & Em & Es).
  set (wp := updatePlayer (dt / 1000) ws) in *.
  unfold updateKnowledgeAndItems.
  rewrite erodeKnowledge_quiet;
    [|rewrite Ek; simpl; unfold KNOWLEDGE_EROSION_INTERVAL_MS; lra].
  rewrite triggerAssessment_quiet;
    [|unfold assessmentDue, pendingFlag, meter; simpl; rewrite Ek, Ea;
      reflexivity].
  rewrite tickItemSpawner_quiet;
    [|simpl; rewrite Ei; simpl in *; lra].
  rewrite updateFallingItems_empty; [|simpl; rewrite Ef; reflexivity].
  cbv beta iota delta [andThen]. simpl gameState. rewrite Eg.
  change (gameState ws) with PLAYING. cbv beta iota delta [GameState_eqb].
  unfold groundPhase.
  rewrite updatePatient_arrival;
    [|simpl; rewrite Ep; reflexivity
     |simpl; rewrite Ep; simpl; unfold PATIENT_GAP_MS; lra].
  rewrite updateGroundMistakes_empty.
  - rewrite tickGroundMistakeSpawner_quiet;
      [|simpl; rewrite Egs; simpl in *; lra].
    eexists. eexists. split; [reflexivity|].
    unfold meter, mistakes. simpl.
    rewrite ?Eg, ?Ek, ?Ef, ?Egm, ?El, ?Em, ?Ep. simpl.
    split; [reflexivity|]. split; [reflexivity|]. split; [reflexivity|].
    split; [reflexivity|]. split; [lra|]. split; [reflexivity|].
    split; [reflexivity|]. split; [reflexivity|]. split; [reflexivity|].
    simpl. ring.
  - rewrite tickGroundMistakeSpawner_quiet;
      [|simpl; rewrite Egs; simpl in *; lra].
    simpl. rewrite Egm. reflexivity.
Qed.

(** ** The heads-up display *)

Lemma warning_threshold_clamp (r : Q) :
  Qle_bool KNOWLEDGE_WARNING_THRESHOLD (clamp r KNOWLEDGE_MIN KNOWLEDGE_MAX)
  = Qle_bool KNOWLEDGE_WARNING_THRESHOLD r.
Proof.
  unfold clamp, KNOWLEDGE_WARNING_THRESHOLD, KNOWLEDGE_MIN, KNOWLEDGE_MAX.
  destruct (Qle_bool 30 r) eqn:E.
  - apply Qle_bool_iff in E. apply Qle_bool_iff.
    apply Q.min_glb; [lra|].
    apply Qle_trans with r; [exact E|apply Q.le_max_r].
  - apply Qle_bool_false_iff in E. apply Qle_bool_false_iff.
    apply Qle_lt_trans with (Qmax 0 r); [apply Q.le_min_r|].
    apply Q.max_lub_lt; lra.
Qed.

Lemma reachable_countersWhole (w : World) : reachable w -> countersWhole w.
Proof.
  apply stable_reachable; [exact countersWhole_stable|].
  pose proof whole_zero. unfold countersWhole. simpl. tauto.
Qed.

Lemma mistake_fill (c : Q) :
  whole c -> Math_round (c / MAX_MISTAKES * 100) == 20 * c.
Proof.
  intros [n E].
  assert (c / MAX_MISTAKES * 100 == inject_Z (20 * Z.of_nat n)) as En.
  { rewrite E, inject_Z_mult. unfold MAX_MISTAKES, Qdiv.
    change (/ 5) with (1 # 5). change (inject_Z 20) with 20. ring. }
  rewrite En, Math_round_integer, inject_Z_mult, E. reflexivity.
Qed.

(** X15: what [updateHud] writes agrees with the rules of the game.  The
    knowledge bar is between 0 and 100 percent wide and the text beside it
    shows the same number; when the thermometer element exists, the two
    low-knowledge warnings are set exactly when [updatePatient] would refuse
    to treat, for every state; without that element they are left as they
    were; and in a reachable state the knowledge bar shows the meter itself
    and the mistake bar twenty percent per mistake, at most 100. *)
Theorem hud_shows_the_state (thermometer : bool) (hud : Hud.t) (w : World) :
  let shown := updateHud thermometer hud w in
  KNOWLEDGE_MIN <= Hud.knowledgeFillWidth shown <= KNOWLEDGE_MAX
  /\ Hud.knowledgePercentText shown = Hud.knowledgeFillWidth shown
  /\ (thermometer = true ->
      Hud.knowledgeLow shown = negb (canTreat w)
      /\ Hud.knowledgeCriticalText shown = negb (canTreat w))
  /\ (thermometer = false ->
      Hud.knowledgeLow shown = Hud.knowledgeLow hud
      /\ Hud.knowledgeCriticalText shown = Hud.knowledgeCriticalText hud)
  /\ (reachable w ->
      Hud.knowledgeFillWidth shown == meter w
      /\ Hud.mistakeFillWidth shown == 20 * mistakes w
      /\ 0 <= Hud.mistakeFillWidth shown <= 100).
Proof.
  cbv zeta. unfold updateHud. cbv zeta. simpl.
  split; [apply clamp_bounds; unfold KNOWLEDGE_MIN, KNOWLEDGE_MAX; lra|].
  split; [reflexivity|]. split; [|split].
  - intros ->. unfold canTreat, Qlt_bool.
    rewrite warning_threshold_clamp. split; reflexivity.
  - intros ->. split; reflexivity.
  - intros Hr.
    pose proof (reachable_meterOk w Hr) as Hm.
    destruct (reachable_countersWhole w Hr) as (Hc & _).
    pose proof (reachable_mistakesInRange w Hr) as Hi.
    pose proof (mistake_fill _ Hc) as Ef.
    unfold mistakesInRange, MAX_MISTAKES in Hi. unfold mistakes in *.
    split; [|split; [exact Ef|rewrite Ef; lra]].
    fold (meter w). rewrite clamp_inside; [exact (meterOk_round w Hm)|].
    rewrite (meterOk_round w Hm). exact (proj1 Hm).
Qed.

(** ** One frame, for a fixed elapsed time *)

Lemma updateGroundMistakes_keeps (P : World -> Prop) (dt : Q) (w : World) :
  (forall w, P w -> P (tickGroundMistakeSpawner dt w)) ->
  (forall box i w, P w ->
     flow_holds P (fun r => P (world_of r))
       (updateGroundMistakes_body dt box i w)) ->
  P w -> P (world_of (updateGroundMistakes dt w)).
Proof.
  intros Htick Hbody HP. unfold updateGroundMistakes.
  apply (updateGroundMistakes_loop_rule (fun _ => P)
           (fun r => P (world_of r))); auto.
Qed.

(** The frame callback keeps what each of its parts keeps, for the time
    the frame measures. *)
Lemma gameLoop_rule (P : World -> Prop) (timestamp : Q) (w : World) :
  (forall v w', P w' -> P (set_lastTimestamp v w')) ->
  (forall w', P w' -> P (updatePlayer (frameDelta timestamp w / 1000) w')) ->
  (forall w', P w' -> P (erodeKnowledge (frameDelta timestamp w) w')) ->
  (forall w', P w' -> P (triggerAssessment w')) ->
  (forall w', P w' -> P (tickItemSpawner (frameDelta timestamp w) w')) ->
  (forall box i w', P w' ->
     flow_holds P (fun r => P (world_of r))
       (updateFallingItems_body (frameDelta timestamp w / 1000) box i w')) ->
  (forall w', P w' -> P (updatePatient (frameDelta timestamp w) w')) ->
  (forall w', P w' ->
     P (world_of (updateGroundMistakes (frameDelta timestamp w) w'))) ->
  P w -> P (world_of (gameLoop timestamp w)).
Proof.
  intros Hts Hplayer Herode Htrigger Hitem Hfall Hpatient Hground HP.
  rewrite gameLoop_phases.
  destruct (negb _); [exact HP|].
  assert (P (world_of (fallingPhase timestamp w))) as H1.
  { unfold fallingPhase. cbv zeta. unfold updateFallingItems. cbv zeta.
    apply (updateFallingItems_loop_rule (fun _ => P)
             (fun r => P (world_of r))); auto.
    unfold updateKnowledgeAndItems.
    apply Hitem, Htrigger, Herode, Hplayer, Hts, HP. }
  destruct (fallingPhase timestamp w) as [w1|msg w1]; [|exact H1].
  change (P w1) in H1. cbv beta iota delta [andThen].
  destruct (GameState_eqb _ _); [exact H1|].
  unfold groundPhase. rewrite world_of_andThen_Done.
  apply Hground, Hpatient, H1.
Qed.

(** ** The score within a session *)

Lemma gameLoop_score (t p timestamp : Q) (w : World) :
  t <= treated w /\ p <= passed w ->
  t <= treated (world_of (gameLoop timestamp w))
  /\ p <= passed (world_of (gameLoop timestamp w)).
Proof.
  apply (gameLoop_rule (fun w' => t <= treated w' /\ p <= passed w'));
    unfold treated, passed; try untouched.
  - intros box i w' [Ht Hp]. unfold updateFallingItems_body.
    destruct (fallingItems w' !! i) as [item|]; [|simpl; tauto].
    cbv zeta. simpl Item.type. simpl Item.y.
    destruct (intersects _ _).
    + destruct (Item.type item); simpl; try tauto.
      * destruct (Qle_bool _ _); simpl; [|tauto].
        rewrite endGame_scoreState. simpl. tauto.
      * split; [exact Ht|lra].
    + destruct (Qlt_bool _ _); [|simpl; tauto].
      destruct (Item.type item); simpl; tauto.
  - intros w' [Ht Hp]. unfold updatePatient, randomBetween, Math_random.
    cbv zeta.
    destruct (PatientState.active _); split_conditions; simpl;
      try tauto.
    split; [lra|exact Hp].
  - intros w'.
    apply (updateGroundMistakes_keeps
             (fun w' =>
                t <= ScoreState.patientsTreated (scoreState w')
                /\ p <= ScoreState.assessmentsPassed (scoreState w')));
      try untouched.
    intros box i w1 H. unfold updateGroundMistakes_body.
    destruct (groundMistakes w1 !! i) as [ob|]; [|exact H].
    cbv zeta. simpl GroundMistake.lifetimeMs.
    destruct (intersects _ _).
    + simpl. destruct (Qle_bool _ _); simpl; [|exact H].
      rewrite endGame_scoreState. exact H.
    + destruct (Qle_bool _ _); exact H.
Qed.

(** X16: the score never drops within a session.  No frame and no key
    lowers the number of patients treated or of assessments passed, in any
    state; a click during play changes nothing; only a click that starts a
    new session, on the start or the game-over screen, sets both back to
    zero. *)
Theorem score_never_drops (e : Event) (w : World) :
  (gameState w = PLAYING \/ isClick e = false ->
   treated w <= treated (world_of (dispatch e w))
   /\ passed w <= passed (world_of (dispatch e w))
   /\ treated w + 2 * passed w
      <= treated (world_of (dispatch e w))
         + 2 * passed (world_of (dispatch e w)))
  /\ (gameState w = PLAYING -> isClick e = true -> dispatch e w = Done w)
  /\ (gameState w = GAME_OVER -> isClick e = true ->
      treated (world_of (dispatch e w)) = 0
      /\ passed (world_of (dispatch e w)) = 0).
Proof.
  split; [|split].
  - intros Hplay.
    assert (treated w <= treated (world_of (dispatch e w))
            /\ passed w <= passed (world_of (dispatch e w))) as [Ht Hp].
    { destruct e; cbv beta iota delta [dispatch].
      - apply gameLoop_score. split; apply Qle_refl.
      - unfold treated, passed, handleKeyDown.
        split_conditions; simpl; split; apply Qle_refl.
      - unfold treated, passed, handleKeyUp.
        split_conditions; simpl; split; apply Qle_refl.
      - destruct Hplay as [Hg | Hc]; [|discriminate Hc].
        rewrite Hg. simpl. split; apply Qle_refl.
      - destruct Hplay as [Hg | Hc]; [|discriminate Hc].
        rewrite Hg. simpl. split; apply Qle_refl. }
    split; [exact Ht|]. split; [exact Hp|lra].
  - intros Hg Hc.
    destruct e; try discriminate Hc; cbv beta iota delta [dispatch];
      rewrite Hg; reflexivity.
  - intros Hg Hc.
    destruct e; try discriminate Hc; cbv beta iota delta [dispatch];
      rewrite Hg; split; reflexivity.
Qed.

(** ** The timers *)

Lemma updateFallingItems_body_erosionTimer
    (dt : Q) (box : Box.t) (i : nat) (w : World) :
  flow_holds
    (fun w' =>
       KnowledgeState.timeSinceErosionMs (knowledgeState w')
       = KnowledgeState.timeSinceErosionMs (knowledgeState w))
    (fun r =>
       KnowledgeState.timeSinceErosionMs (knowledgeState (world_of r))
       = KnowledgeState.timeSinceErosionMs (knowledgeState w))
    (updateFallingItems_body dt box i w).
Proof.
  unfold updateFallingItems_body.
  destruct (fallingItems w !! i) as [item|]; [|reflexivity].
  cbv zeta. simpl Item.type. simpl Item.y.
  destruct (intersects _ _).
  - destruct (Item.type item); simpl; try reflexivity.
    destruct (Qle_bool _ _); simpl; [|reflexivity].
    rewrite endGame_knowledgeState. reflexivity.
  - destruct (Qlt_bool _ _); [|reflexivity].
    destruct (Item.type item); reflexivity.
Qed.

Lemma updateGroundMistakes_body_spawners
    (dt : Q) (box : Box.t) (i : nat) (w : World) :
  flow_holds
    (fun w' =>
       itemSpawnState w' = itemSpawnState w
       /\ groundMistakeSpawnState w' = groundMistakeSpawnState w)
    (fun r =>
       itemSpawnState (world_of r) = itemSpawnState w
       /\ groundMistakeSpawnState (world_of r) = groundMistakeSpawnState w)
    (updateGroundMistakes_body dt box i w).
Proof.
  unfold updateGroundMistakes_body.
  destruct (groundMistakes w !! i) as [ob|]; [|simpl; split; reflexivity].
  cbv zeta. simpl GroundMistake.lifetimeMs.
  destruct (intersects _ _).
  - simpl. destruct (Qle_bool _ _); simpl; [|split; reflexivity].
    through_endGame. split; reflexivity.
  - destruct (Qle_bool _ _); simpl; split; reflexivity.
Qed.

Lemma item_delay_positive (w : World) :
  unitSource ->
  0 < fst (randomBetween ITEM_SPAWN_INTERVAL_MIN_MS
             ITEM_SPAWN_INTERVAL_MAX_MS w).
Proof.
  intros Hu. apply Qlt_le_trans with (inject_Z 900); [reflexivity|].
  apply (integerIn_lower 900 1800).
  apply unit_delay; try reflexivity; [exact Hu|lia].
Qed.

Lemma ground_delay_at_least (w : World) :
  unitSource ->
  GROUND_MISTAKE_SPAWN_INTERVAL_MIN_MS
  <= fst (randomBetween GROUND_MISTAKE_SPAWN_INTERVAL_MIN_MS
            GROUND_MISTAKE_SPAWN_INTERVAL_MAX_MS w).
Proof.
  intros Hu. apply (integerIn_lower 2400 5600).
  apply unit_delay; try reflexivity; [exact Hu|lia].
Qed.

Lemma ground_delay_positive (w : World) :
  unitSource ->
  0 < fst (randomBetween GROUND_MISTAKE_SPAWN_INTERVAL_MIN_MS
             GROUND_MISTAKE_SPAWN_INTERVAL_MAX_MS w).
Proof.
  intros Hu.
  apply Qlt_le_trans with GROUND_MISTAKE_SPAWN_INTERVAL_MIN_MS;
    [reflexivity|apply ground_delay_at_least, Hu].
Qed.

Lemma timersOk_stable : unitSource -> stable timersOk.
Proof.
  intros Hu.
  pose proof (fun w => item_delay_positive w Hu) as Hitem.
  pose proof (fun w => ground_delay_positive w Hu) as Hground.
  unfold stable, straight_stable. conjuncts; unfold timersOk;
    try untouched.
  - intros dt w (H1 & H2 & H3). unfold erodeKnowledge. cbv zeta.
    destruct (Qle_bool _ _) eqn:E; simpl.
    + split; [reflexivity|]. split; assumption.
    + apply Qle_bool_false_iff in E. split; [exact E|].
      split; assumption.
  - intros dt w (H1 & H2 & H3). unfold tickItemSpawner. cbv zeta.
    destruct (Qle_bool _ _) eqn:E.
    + split; [exact H1|]. split; [apply Hitem|exact H3].
    + apply Qle_bool_false_iff in E. simpl.
      split; [exact H1|]. split; [exact E|exact H3].
  - intros dt w (H1 & H2 & H3). unfold tickGroundMistakeSpawner. cbv zeta.
    destruct (Qle_bool _ _) eqn:E.
    + split; [exact H1|]. split; [exact H2|apply Hground].
    + apply Qle_bool_false_iff in E. simpl.
      split; [exact H1|]. split; [exact H2|exact E].
  - intros dt box i w H.
    pose proof (updateFallingItems_body_erosionTimer dt box i w) as Hk.
    pose proof (updateFallingItems_body_groundMistakes dt box i w) as Hs.
    destruct (updateFallingItems_body dt box i w); simpl in *;
      destruct Hs as (_ & -> & _ & _ & _ & _ & ->); rewrite Hk; exact H.
  - intros dt box i w H.
    pose proof (updateGroundMistakes_body_frame dt box i w) as Hk.
    pose proof (updateGroundMistakes_body_spawners dt box i w) as Hs.
    destruct (updateGroundMistakes_body dt box i w); simpl in *;
      destruct Hs as (-> & ->);
      destruct Hk as (_ & _ & _ & _ & -> & _); exact H.
  - intros w. split; [reflexivity|].
    split; [apply Hitem|apply Hground].
Qed.

(** X17: when [Math.random()] stays in [[0, 1)], no timer is overdue in a
    reachable state: the erosion timer is below the 3000 ms of its
    interval, and each of the two spawn timers is below the delay it is
    waiting for. *)
Theorem timers_never_overdue (w : World)
    (Hsource : unitSource) (Hr : reachable w) :
  KnowledgeState.timeSinceErosionMs (knowledgeState w)
  < KNOWLEDGE_EROSION_INTERVAL_MS
  /\ SpawnState.timeSinceLastSpawnMs (itemSpawnState w)
     < SpawnState.nextSpawnDelayMs (itemSpawnState w)
  /\ SpawnState.timeSinceLastSpawnMs (groundMistakeSpawnState w)
     < SpawnState.nextSpawnDelayMs (groundMistakeSpawnState w).
Proof.
  revert w Hr. apply stable_reachable; [exact (timersOk_stable Hsource)|].
  split; [reflexivity|].
  split; [apply item_delay_positive|apply ground_delay_positive];
    exact Hsource.
Qed.

(** ** Sessions in which time does not go back *)

Lemma steady_reachable (w : World) : steady w -> reachable w.
Proof.
  induction 1 as [|e w w' _ IH _ E]; [apply reachable_init|].
  exact (reachable_step e w w' IH E).
Qed.

Lemma steady_run (es : list Event) (w : World) :
  steady w -> runsInOrder es w = true -> steady (world_of (run es w)).
Proof.
  revert w. induction es as [|e es IH]; intros w Hs Ho; [exact Hs|].
  cbn [runsInOrder] in Ho. apply andb_true_iff in Ho. destruct Ho as [Hi Ho].
  cbn [run]. destruct (dispatch e w) as [w'|msg w'] eqn:E; [|discriminate Ho].
  cbn [andThen]. apply IH; [|exact Ho].
  apply (steady_step e w w' Hs); [|exact E].
  destruct e; try exact I. apply Qle_bool_iff. exact Hi.
Qed.

(** What the first state has, and every listener keeps when no frame goes
    back in time, holds in every steady state. *)
Lemma steady_invariant (P : World -> Prop) :
  P initialWorld ->
  (forall timestamp w, 0 <= frameDelta timestamp w -> P w ->
     P (world_of (gameLoop timestamp w))) ->
  (forall ev w, P w -> P (handleKeyDown ev w)) ->
  (forall ev w, P w -> P (handleKeyUp ev w)) ->
  (forall w, P (startGame w)) ->
  forall w, steady w -> P w.
Proof.
  intros H0 Hframe Hdown Hup Hstart w Hs.
  induction Hs as [|e w w' _ IH Ho E]; [exact H0|].
  assert (P (world_of (dispatch e w))) as H; [|rewrite E in H; exact H].
  destruct e; cbv beta iota delta [dispatch].
  - apply Hframe; [exact Ho|exact IH].
  - apply Hdown, IH.
  - apply Hup, IH.
  - destruct (gameState w); simpl; auto.
  - destruct (gameState w); simpl; auto.
Qed.

(** One round of the loop of [updateGroundMistakes]: the object at [i] is
    removed, or stays, older, when it has not reached its duration. *)
Lemma updateGroundMistakes_body_shape
    (dt : Q) (box : Box.t) (i : nat) (w : World) (ob : GroundMistake.t) :
  groundMistakes w !! i = Some ob ->
  flow_holds
    (fun w' =>
       groundMistakeSpawnState w' = groundMistakeSpawnState w
       /\ (groundMistakes w' = delete i (groundMistakes w)
           \/ groundMistakes w' = <[i:=outlasted dt ob]> (groundMistakes w)))
    (fun r =>
       groundMistakeSpawnState (world_of r) = groundMistakeSpawnState w
       /\ groundMistakes (world_of r) = delete i (groundMistakes w))
    (updateGroundMistakes_body dt box i w).
Proof.
  intros Hi. unfold updateGroundMistakes_body. rewrite Hi. cbv zeta.
  fold (outlasted dt ob).
  destruct (intersects _ _).
  - simpl. destruct (Qle_bool _ _); simpl.
    + through_endGame. simpl. rewrite delete_inserted.
      split; reflexivity.
    + rewrite delete_inserted. split; [reflexivity|left; reflexivity].
  - destruct (Qle_bool _ _) eqn:E; simpl.
    + rewrite delete_inserted. split; [reflexivity|left; reflexivity].
    + split; [reflexivity|right; reflexivity].
Qed.

(** The same round for an object that has reached its duration: it is
    removed whether the player touches it or not. *)
Lemma updateGroundMistakes_body_expired
    (dt : Q) (box : Box.t) (i : nat) (w : World) (ob : GroundMistake.t) :
  groundMistakes w !! i = Some ob ->
  GROUND_MISTAKE_DURATION_MS <= GroundMistake.lifetimeMs ob + dt ->
  flow_holds
    (fun w' =>
       groundMistakeSpawnState w' = groundMistakeSpawnState w
       /\ groundMistakes w' = delete i (groundMistakes w))
    (fun r =>
       groundMistakeSpawnState (world_of r) = groundMistakeSpawnState w
       /\ groundMistakes (world_of r) = delete i (groundMistakes w))
    (updateGroundMistakes_body dt box i w).
Proof.
  intros Hi Hold. unfold updateGroundMistakes_body. rewrite Hi. cbv zeta.
  fold (outlasted dt ob).
  destruct (intersects _ _).
  - simpl. destruct (Qle_bool _ _); simpl.
    + through_endGame. simpl. rewrite delete_inserted.
      split; reflexivity.
    + rewrite delete_inserted. split; reflexivity.
  - destruct (Qle_bool _ _) eqn:E; simpl.
    + rewrite delete_inserted. split; reflexivity.
    + apply Qle_bool_false_iff in E. simpl in E. lra.
Qed.

Lemma updateGroundMistakes_loop_one
    (dt : Q) (box : Box.t) (w : World) (ob : GroundMistake.t) :
  groundMistakes w = [ob] ->
  groundMistakeSpawnState (world_of (updateGroundMistakes_loop dt box 1 w))
  = groundMistakeSpawnState w
  /\ (groundMistakes (world_of (updateGroundMistakes_loop dt box 1 w)) = []
      \/ groundMistakes (world_of (updateGroundMistakes_loop dt box 1 w))
         = [outlasted dt ob]).
Proof.
  intros El. cbn [updateGroundMistakes_loop].
  assert (groundMistakes w !! 0%nat = Some ob) as Hi
    by (rewrite El; reflexivity).
  pose proof (updateGroundMistakes_body_shape dt box 0 w ob Hi) as H.
  rewrite El in H.
  destruct (updateGroundMistakes_body dt box 0 w) as [w'|r]; simpl in H.
  - destruct H as [Es [E|E]]; (split; [exact Es|]); [left|right]; exact E.
  - destruct H as [Es E]. split; [exact Es|left; exact E].
Qed.

Lemma updateGroundMistakes_loop_two
    (dt : Q) (box : Box.t) (w : World) (old new : GroundMistake.t) :
  groundMistakes w = [old; new] ->
  GROUND_MISTAKE_DURATION_MS <= GroundMistake.lifetimeMs old + dt ->
  groundMistakeSpawnState (world_of (updateGroundMistakes_loop dt box 2 w))
  = groundMistakeSpawnState w
  /\ (groundMistakes (world_of (updateGroundMistakes_loop dt box 2 w)) = []
      \/ groundMistakes (world_of (updateGroundMistakes_loop dt box 2 w))
         = [outlasted dt new]
      \/ groundMistakes (world_of (updateGroundMistakes_loop dt box 2 w))
         = [old]).
Proof.
  intros El Hold. cbn [updateGroundMistakes_loop].
  assert (groundMistakes w !! 1%nat = Some new) as Hi
    by (rewrite El; reflexivity).
  pose proof (updateGroundMistakes_body_shape dt box 1 w new Hi) as H.
  rewrite El in H.
  destruct (updateGroundMistakes_body dt box 1 w) as [w1|r]; simpl in H.
  - destruct H as [Es Hl].
    assert (groundMistakes w1 !! 0%nat = Some old) as H0
      by (destruct Hl as [E|E]; rewrite E; reflexivity).
    pose proof (updateGroundMistakes_body_expired dt box 0 w1 old H0 Hold)
      as H'.
    destruct (updateGroundMistakes_body dt box 0 w1) as [w2|r];
      simpl in H' |- *; destruct H' as [Es' E']; rewrite Es', Es;
      (split; [reflexivity|]); rewrite E';
      destruct Hl as [E|E]; rewrite E; simpl; auto.
  - destruct H as [Es E]. split; [exact Es|]. right. right. exact E.
Qed.

Lemma tickGroundMistakeSpawner_cases (dt : Q) (w : World) :
  unitSource ->
  (groundTimer w + dt
   < SpawnState.nextSpawnDelayMs (groundMistakeSpawnState w)
   /\ groundMistakes (tickGroundMistakeSpawner dt w) = groundMistakes w
   /\ groundTimer (tickGroundMistakeSpawner dt w) = groundTimer w + dt
   /\ SpawnState.nextSpawnDelayMs
        (groundMistakeSpawnState (tickGroundMistakeSpawner dt w))
      = SpawnState.nextSpawnDelayMs (groundMistakeSpawnState w))
  \/ (SpawnState.nextSpawnDelayMs (groundMistakeSpawnState w)
      <= groundTimer w + dt
      /\ (exists new,
            groundMistakes (tickGroundMistakeSpawner dt w)
            = groundMistakes w ++ [new]
            /\ GroundMistake.lifetimeMs new = 0)
      /\ groundTimer (tickGroundMistakeSpawner dt w) = 0
      /\ GROUND_MISTAKE_SPAWN_INTERVAL_MIN_MS
         <= SpawnState.nextSpawnDelayMs
              (groundMistakeSpawnState (tickGroundMistakeSpawner dt w))).
Proof.
  intros Hu. unfold groundTimer, tickGroundMistakeSpawner. cbv zeta.
  destruct (Qle_bool _ _) eqn:E.
  - right. apply Qle_bool_iff in E. split; [exact E|].
    split; [|split; [reflexivity|]].
    + eexists. split; reflexivity.
    + exact (ground_delay_at_least (spawnGroundMistake w) Hu).
  - left. apply Qle_bool_false_iff in E. split; [exact E|].
    split; [reflexivity|]. split; reflexivity.
Qed.

Lemma groundOk_from (w' w1 : World) :
  groundMistakeSpawnState w' = groundMistakeSpawnState w1 ->
  0 <= groundTimer w1 ->
  GROUND_MISTAKE_SPAWN_INTERVAL_MIN_MS
  <= SpawnState.nextSpawnDelayMs (groundMistakeSpawnState w1) ->
  (groundMistakes w' = []
   \/ exists ob,
        groundMistakes w' = [ob]
        /\ groundTimer w1 <= GroundMistake.lifetimeMs ob) ->
  groundOk w'.
Proof.
  intros Es Ht Hd Hl. unfold groundOk, groundTimer in *. rewrite Es.
  split; [exact Ht|]. split; [exact Hd|exact Hl].
Qed.

(** [updateGroundMistakes] with time going forward: the mistake on stage
    when a new one is spawned has reached its duration, because the spawn
    delay is longer, and is removed by the loop of the same call. *)
Lemma updateGroundMistakes_groundOk (dt : Q) (w : World) :
  unitSource -> 0 <= dt -> groundOk w ->
  groundOk (world_of (updateGroundMistakes dt w)).
Proof.
  intros Hu Hdt (Ht & Hd & Hl). unfold updateGroundMistakes. cbv zeta.
  generalize (getPlayerHitBox (tickGroundMistakeSpawner dt w)). intros box.
  pose proof (tickGroundMistakeSpawner_cases dt w Hu) as Hc.
  revert Hc. generalize (tickGroundMistakeSpawner dt w). intros w1 Hc.
  unfold GROUND_MISTAKE_SPAWN_INTERVAL_MIN_MS in *.
  destruct Hc as [(E1 & E2 & E3 & E4) | (E1 & (new & E2 & E2') & E3 & E4)];
    destruct Hl as [El | (ob & El & Hob)]; rewrite El in E2; rewrite E2;
    cbn [length app].
  - cbn [updateGroundMistakes_loop world_of].
    apply (groundOk_from w1 w1); [reflexivity|rewrite E3; lra| |left; exact E2].
    rewrite E4. exact Hd.
  - destruct (updateGroundMistakes_loop_one dt box w1 ob E2) as [Es Hr].
    apply (groundOk_from _ w1); [exact Es|rewrite E3; lra| |].
    + rewrite E4. exact Hd.
    + destruct Hr as [Hr|Hr]; [left; exact Hr|right].
      exists (outlasted dt ob). split; [exact Hr|]. rewrite E3. simpl. lra.
  - destruct (updateGroundMistakes_loop_one dt box w1 new E2) as [Es Hr].
    apply (groundOk_from _ w1); [exact Es|rewrite E3; lra|exact E4|].
    destruct Hr as [Hr|Hr]; [left; exact Hr|right].
    exists (outlasted dt new). split; [exact Hr|]. rewrite E3. simpl.
    rewrite E2'. lra.
  - assert (GROUND_MISTAKE_DURATION_MS <= GroundMistake.lifetimeMs ob + dt)
      as Hold by (unfold GROUND_MISTAKE_DURATION_MS; lra).
    destruct (updateGroundMistakes_loop_two dt box w1 ob new E2 Hold)
      as [Es Hr].
    apply (groundOk_from _ w1); [exact Es|rewrite E3; lra|exact E4|].
    destruct Hr as [Hr|[Hr|Hr]]; [left; exact Hr|right|right].
    + exists (outlasted dt new). split; [exact Hr|]. rewrite E3. simpl.
      rewrite E2'. lra.
    + exists ob. split; [exact Hr|]. rewrite E3. lra.
Qed.

Lemma gameLoop_groundOk (timestamp : Q) (w : World) :
  unitSource -> 0 <= frameDelta timestamp w -> groundOk w ->
  groundOk (world_of (gameLoop timestamp w)).
Proof.
  intros Hu Hdt. apply gameLoop_rule; unfold groundOk, groundTimer;
    try untouched.
  - intros box i w' H.
    pose proof (updateFallingItems_body_groundMistakes
                  (frameDelta timestamp w / 1000) box i w') as Hs.
    destruct (updateFallingItems_body _ box i w'); simpl in *;
      destruct Hs as (-> & -> & _); exact H.
  - intros w'. apply updateGroundMistakes_groundOk; assumption.
Qed.

Lemma steady_groundOk (w : World) : unitSource -> steady w -> groundOk w.
Proof.
  intros Hu. revert w. apply steady_invariant.
  - split; [apply Qle_refl|]. split; [|left; reflexivity].
    apply ground_delay_at_least, Hu.
  - intros timestamp w. apply gameLoop_groundOk, Hu.
  - unfold groundOk, groundTimer. untouched.
  - unfold groundOk, groundTimer. untouched.
  - intros w. split; [apply Qle_refl|]. split; [|left; reflexivity].
    apply ground_delay_at_least, Hu.
Qed.

(** X18: when [Math.random()] stays in [[0, 1)] and the timestamps of the
    frames never go back, there is at most one ground mistake on stage in
    every state: the delay before the next one, 2400 ms at least, is longer
    than the 2000 ms a ground mistake lasts.  Its lifetime is at least the
    time its spawn timer has counted since, and neither is negative. *)
Theorem one_ground_mistake_at_a_time (w : World)
    (Hsource : unitSource) (Hs : steady w) :
  (length (groundMistakes w) <= 1)%nat
  /\ 0 <= groundTimer w
  /\ Forall
       (fun ob => groundTimer w <= GroundMistake.lifetimeMs ob)
       (groundMistakes w).
Proof.
  destruct (steady_groundOk w Hsource Hs) as (Ht & _ & [E | (ob & E & Hob)]);
    rewrite E.
  - split; [simpl; lia|]. split; [exact Ht|apply Forall_nil; exact I].
  - split; [simpl; lia|]. split; [exact Ht|].
    apply Forall_singleton. exact Hob.
Qed.

Lemma gameLoop_clocksOk (timestamp : Q) (w : World) :
  0 <= frameDelta timestamp w -> clocksOk w ->
  clocksOk (world_of (gameLoop timestamp w)).
Proof.
  intros Hdt. apply gameLoop_rule; unfold clocksOk, groundTimer;
    try frame.
  - intros w' (H1 & H2 & H3 & H4 & H5 & H6). unfold erodeKnowledge.
    cbv zeta. destruct (Qle_bool _ _); simpl; conjuncts;
      try assumption; lra.
  - intros w' (H1 & H2 & H3 & H4 & H5 & H6). unfold tickItemSpawner.
    cbv zeta. destruct (Qle_bool _ _); simpl; conjuncts;
      try assumption; lra.
  - intros box i w' H.
    pose proof (updateFallingItems_body_erosionTimer
                  (frameDelta timestamp w / 1000) box i w') as Hk.
    pose proof (updateFallingItems_body_groundMistakes
                  (frameDelta timestamp w / 1000) box i w') as Hf.
    destruct (updateFallingItems_body _ box i w'); simpl in *;
      destruct Hf as (_ & -> & -> & _ & _ & _ & ->); rewrite Hk; exact H.
  - intros w'. unfold updatePatient, randomBetween, Math_random. cbv zeta.
    destruct (PatientState.active (patientState w')) as [patient|];
      intros (H1 & H2 & H3 & H4 & H5 & H6); simpl;
      repeat (match goal with
              | |- context [if ?c then _ else _] => destruct c
              end; simpl);
      conjuncts; try assumption; try exact I; lra.
  - intros w'.
    apply (updateGroundMistakes_keeps
             (fun w' =>
                0 <= KnowledgeState.timeSinceErosionMs (knowledgeState w')
                /\ 0 <= SpawnState.timeSinceLastSpawnMs (itemSpawnState w')
                /\ 0 <= SpawnState.timeSinceLastSpawnMs
                          (groundMistakeSpawnState w')
                /\ 0 <= PatientState.timeSinceLastPatientGoneMs
                          (patientState w')
                /\ 0 <= PatientState.contactDurationMs (patientState w')
                /\ match PatientState.active (patientState w') with
                   | Some patient => 0 <= Patient.lifetimeMs patient
                   | None => True
                   end)).
    + intros w1 (H1 & H2 & H3 & H4 & H5 & H6).
      unfold tickGroundMistakeSpawner. cbv zeta.
      destruct (Qle_bool _ _); simpl; conjuncts; try assumption; lra.
    + intros box i w1 H.
      pose proof (updateGroundMistakes_body_frame
                    (frameDelta timestamp w) box i w1) as Hk.
      pose proof (updateGroundMistakes_body_spawners
                    (frameDelta timestamp w) box i w1) as Hf.
      destruct (updateGroundMistakes_body _ box i w1); simpl in *;
        destruct Hf as (-> & ->);
        destruct Hk as (_ & -> & _ & _ & -> & _); exact H.
Qed.

(** X19: when the timestamps of the frames never go back, no timer of the
    game is ever negative: the erosion timer, the two spawn timers, the gap
    and the contact timers of the patient slot, and the lifetime of the
    patient on stage. *)
Theorem clocks_never_negative (w : World) (Hs : steady w) :
  0 <= KnowledgeState.timeSinceErosionMs (knowledgeState w)
  /\ 0 <= SpawnState.timeSinceLastSpawnMs (itemSpawnState w)
  /\ 0 <= SpawnState.timeSinceLastSpawnMs (groundMistakeSpawnState w)
  /\ 0 <= PatientState.timeSinceLastPatientGoneMs (patientState w)
  /\ 0 <= PatientState.contactDurationMs (patientState w)
  /\ match PatientState.active (patientState w) with
     | Some patient => 0 <= Patient.lifetimeMs patient
     | None => True
     end.
Proof.
  revert w Hs. apply (steady_invariant clocksOk).
  - unfold clocksOk, groundTimer. simpl. unfold PATIENT_GAP_MS.
    conjuncts; try exact I; lra.
  - apply gameLoop_clocksOk.
  - unfold clocksOk, groundTimer. frame.
  - unfold clocksOk, groundTimer. frame.
  - intros w. unfold clocksOk, groundTimer. simpl. unfold PATIENT_GAP_MS.
    conjuncts; try exact I; lra.
Qed.

(** ** The two loops visit every element once *)

Lemma splice_middle {A : Type} (l1 l2 : list A) (x y : A) (i : nat) :
  length l1 = i ->
  (l1 ++ x :: l2) !! i = Some x
  /\ <[i:=y]> (l1 ++ x :: l2) = l1 ++ y :: l2
  /\ delete i (l1 ++ y :: l2) = l1 ++ l2.
Proof.
  intros <-. induction l1 as [|a l1 IH]; simpl; [auto|].
  destruct IH as (H1 & H2 & H3). rewrite H2, H3. auto.
Qed.

Lemma take_drop_at {A : Type} (l : list A) (i : nat) (x : A) :
  l !! i = Some x ->
  take (S i) l = take i l ++ [x] /\ drop i l = x :: drop (S i) l
  /\ length (take i l) = i.
Proof.
  intros Hi. split; [apply take_S_r, Hi|]. split.
  - apply drop_S, Hi.
  - apply length_take_le. apply Nat.lt_le_incl. eapply lookup_lt_Some, Hi.
Qed.

Lemma endGame_gameState (w : World) :
  gameState (world_of (endGame w)) = GAME_OVER.
Proof. unfold endGame. cbv zeta. destruct (computeScore _ _); reflexivity. Qed.

Lemma updateFallingItems_body_kept
    (dt : Q) (box : Box.t) (i : nat) (w : World)
    (l1 l2 : list Item.t) (item : Item.t) :
  fallingItems w = l1 ++ item :: l2 -> length l1 = i ->
  flow_holds
    (fun w' =>
       fallingItems w'
       = l1 ++ List.filter (staysFalling box) [fallen dt item] ++ l2)
    (fun r => gameState (world_of r) = GAME_OVER)
    (updateFallingItems_body dt box i w).
Proof.
  intros El Hi.
  destruct (splice_middle l1 l2 item (fallen dt item) i Hi) as (E1 & E2 & E3).
  unfold updateFallingItems_body. rewrite El, E1. fold (fallen dt item).
  cbv zeta. cbn [List.filter]. unfold staysFalling.
  change (Item.type (fallen dt item)) with (Item.type item).
  destruct (intersects box (fallen dt item)).
  - cbn [negb andb app].
    destruct (Item.type item); simpl; rewrite ?E2, ?E3; try reflexivity.
    destruct (Qle_bool _ _); simpl; rewrite ?E2, ?E3; [|reflexivity].
    apply endGame_gameState.
  - cbn [negb andb]. destruct (Qlt_bool _ _); cbn [negb app].
    + destruct (Item.type item); simpl; rewrite E2, E3; reflexivity.
    + simpl. exact E2.
Qed.

Lemma updateFallingItems_loop_filter
    (dt : Q) (box : Box.t) (items : list Item.t) (n : nat) (w : World) :
  (n <= length items)%nat ->
  fallingItems w
  = take n items
    ++ List.filter (staysFalling box) (map (fallen dt) (drop n items)) ->
  gameState (world_of (updateFallingItems_loop dt box n w)) <> GAME_OVER ->
  exists w',
    updateFallingItems_loop dt box n w = Done w'
    /\ fallingItems w'
       = List.filter (staysFalling box) (map (fallen dt) items).
Proof.
  revert w. induction n as [|i IH]; intros w Hn El Hg.
  - exists w. split; [reflexivity|]. rewrite El, take_0, drop_0. reflexivity.
  - destruct (lookup_lt_is_Some_2 items i) as [item Hi]; [lia|].
    destruct (take_drop_at items i item Hi) as (Et & Ed & Hl).
    rewrite Et, <- app_assoc in El. cbn [app] in El.
    pose proof (updateFallingItems_body_kept dt box i w _ _ item El Hl) as Hb.
    cbn [updateFallingItems_loop] in *.
    destruct (updateFallingItems_body dt box i w) as [w1|r]; simpl in Hb.
    + apply IH; [lia| |exact Hg].
      rewrite Hb, Ed. cbn [map List.filter].
      destruct (staysFalling box (fallen dt item)); reflexivity.
    + contradiction.
Qed.


Lemma updateGroundMistakes_body_kept
    (dt : Q) (box : Box.t) (i : nat) (w : World)
    (l1 l2 : list GroundMistake.t) (ob : GroundMistake.t) :
  groundMistakes w = l1 ++ ob :: l2 -> length l1 = i ->
  flow_holds
    (fun w' =>
       groundMistakes w'
       = l1 ++ List.filter (staysOnGround box) [outlasted dt ob] ++ l2)
    (fun r => gameState (world_of r) = GAME_OVER)
    (updateGroundMistakes_body dt box i w).
Proof.
  intros El Hi.
  destruct (splice_middle l1 l2 ob (outlasted dt ob) i Hi) as (E1 & E2 & E3).
  unfold updateGroundMistakes_body. rewrite El, E1. fold (outlasted dt ob).
  cbv zeta. cbn [List.filter]. unfold staysOnGround.
  destruct (intersects box (outlasted dt ob)).
  - cbn [negb andb app]. simpl.
    destruct (Qle_bool _ _); simpl; rewrite ?E2, ?E3; [|reflexivity].
    apply endGame_gameState.
  - cbn [negb andb]. destruct (Qle_bool _ _); cbn [negb app]; simpl.
    + rewrite E2, E3. reflexivity.
    + exact E2.
Qed.

Lemma updateGroundMistakes_loop_filter
    (dt : Q) (box : Box.t) (obs : list GroundMistake.t) (n : nat)
    (w : World) :
  (n <= length obs)%nat ->
  groundMistakes w
  = take n obs
    ++ List.filter (staysOnGround box) (map (outlasted dt) (drop n obs)) ->
  gameState (world_of (updateGroundMistakes_loop dt box n w)) <> GAME_OVER ->
  exists w',
    updateGroundMistakes_loop dt box n w = Done w'
    /\ groundMistakes w'
       = List.filter (staysOnGround box) (map (outlasted dt) obs).
Proof.
  revert w. induction n as [|i IH]; intros w Hn El Hg.
  - exists w. split; [reflexivity|]. rewrite El, take_0, drop_0. reflexivity.
  - destruct (lookup_lt_is_Some_2 obs i) as [ob Hi]; [lia|].
    destruct (take_drop_at obs i ob Hi) as (Et & Ed & Hl).
    rewrite Et, <- app_assoc in El. cbn [app] in El.
    pose proof (updateGroundMistakes_body_kept dt box i w _ _ ob El Hl) as Hb.
    cbn [updateGroundMistakes_loop] in *.
    destruct (updateGroundMistakes_body dt box i w) as [w1|r]; simpl in Hb.
    + apply IH; [lia| |exact Hg].
      rewrite Hb, Ed. cbn [map List.filter].
      destruct (staysOnGround box (outlasted dt ob)); reflexivity.
    + contradiction.
Qed.


(** ** Mistakes within a session *)

Lemma clamp_mistakes_keeps (m0 c : Q) :
  m0 <= MAX_MISTAKES -> m0 <= c -> m0 <= clamp (c + 1) 0 MAX_MISTAKES.
Proof.
  intros H5 Hc. unfold clamp. apply Q.min_glb; [exact H5|].
  apply Qle_trans with (c + 1); [lra|apply Q.le_max_r].
Qed.

Lemma gameLoop_mistakes (m0 p0 timestamp : Q) (w : World) :
  m0 <= MAX_MISTAKES ->
  p0 <= passed w /\ (p0 < passed w \/ m0 <= mistakes w) ->
  p0 <= passed (world_of (gameLoop timestamp w))
  /\ (p0 < passed (world_of (gameLoop timestamp w))
      \/ m0 <= mistakes (world_of (gameLoop timestamp w))).
Proof.
  intros H5.
  apply (gameLoop_rule
           (fun w' => p0 <= passed w' /\ (p0 < passed w' \/ m0 <= mistakes w')));
    unfold passed, mistakes; try untouched.
  - intros box i w' [Hp Hm]. unfold updateFallingItems_body.
    destruct (fallingItems w' !! i) as [item|]; [|simpl; tauto].
    cbv zeta. simpl Item.type. simpl Item.y.
    destruct (intersects _ _).
    + destruct (Item.type item); simpl; try tauto.
      * pose proof (clamp_mistakes_keeps m0
                      (MistakesState.count (mistakesState w')) H5) as Hk.
        destruct (Qle_bool _ _); simpl.
        -- through_endGame. rewrite endGame_scoreState. simpl. tauto.
        -- tauto.
      * split; [lra|left; lra].
    + destruct (Qlt_bool _ _); [|simpl; tauto].
      destruct (Item.type item); simpl; tauto.
  - intros w'.
    apply (updateGroundMistakes_keeps
             (fun w' =>
                p0 <= ScoreState.assessmentsPassed (scoreState w')
                /\ (p0 < ScoreState.assessmentsPassed (scoreState w')
                    \/ m0 <= MistakesState.count (mistakesState w'))));
      try untouched.
    intros box i w1 [Hp Hm]. unfold updateGroundMistakes_body.
    destruct (groundMistakes w1 !! i) as [ob|]; [|simpl; tauto].
    cbv zeta. simpl GroundMistake.lifetimeMs.
    pose proof (clamp_mistakes_keeps m0
                  (MistakesState.count (mistakesState w1)) H5) as Hk.
    destruct (intersects _ _).
    + simpl. destruct (Qle_bool _ _); simpl; [|tauto].
      through_endGame. rewrite endGame_scoreState. simpl. tauto.
    + destruct (Qle_bool _ _); simpl; tauto.
Qed.

(** X22: a mistake is only forgiven by passing an assessment.  From a
    state with at most five mistakes, a frame in which no assessment is
    passed never lowers the number of mistakes; nor does any key. *)
Theorem mistakes_only_forgiven_by_assessment (e : Event) (w : World)
    (Hmax : mistakes w <= MAX_MISTAKES) (Hkey : isClick e = false)
    (Hsame : passed (world_of (dispatch e w)) <= passed w) :
  mistakes w <= mistakes (world_of (dispatch e w)).
Proof.
  destruct e; try discriminate Hkey; cbv beta iota delta [dispatch] in *.
  - destruct (gameLoop_mistakes (mistakes w) (passed w) timestamp w Hmax)
      as [_ [H|H]]; [split; [|right]; apply Qle_refl| |exact H].
    lra.
  - unfold mistakes, handleKeyDown. split_conditions; apply Qle_refl.
  - unfold mistakes, handleKeyUp. split_conditions; apply Qle_refl.
Qed.

(** ** Properties of the script in double precision *)

Arguments fl : simpl never.
Arguments js_add : simpl never.
Arguments js_sub : simpl never.
Arguments js_mul : simpl never.
Arguments js_div : simpl never.
Arguments Double.intersects : simpl never.

(** *** Rounding *)

Lemma Qred_inject_Z (n : Z) : Qred (inject_Z n) = inject_Z n.
Proof.
  pose proof (Qred_correct (inject_Z n)) as E.
  pose proof (gcd_Qred (inject_Z n)) as G.
  destruct (Qred (inject_Z n)) as [a b]. unfold Qeq in E. simpl in *.
  assert (Z.pos b = 1%Z) as Eb.
  { assert (a = (n * Z.pos b)%Z) as Ea by lia.
    rewrite Ea, Z.gcd_comm, (Z.mul_comm n), Z.gcd_mul_diag_l in G; lia. }
  assert (b = 1%positive) as -> by lia.
  unfold inject_Z. f_equal. lia.
Qed.

Lemma fl_comp (x y : Q) : x == y -> fl x = fl y.
Proof. intros E. unfold fl. rewrite (Qred_complete x y E). reflexivity. Qed.

Lemma round_half_even_Z (m : Z) : round_half_even (inject_Z m) = m.
Proof.
  unfold round_half_even. rewrite Qfloor_Z.
  assert (Qcompare (inject_Z m - inject_Z m) (1 # 2) = Lt) as ->;
    [|reflexivity].
  rewrite <- Qlt_alt. lra.
Qed.

Lemma round_half_even_comp (x y : Q) :
  x == y -> round_half_even x = round_half_even y.
Proof.
  intros E. unfold round_half_even. rewrite (Qfloor_comp x y E).
  rewrite E. reflexivity.
Qed.

Lemma binade_integer (n : Z) :
  n <> 0%Z -> binade (inject_Z n) = Z.log2 (Z.abs n).
Proof.
  intros Hn. unfold binade. simpl Qnum. simpl Qden.
  change (Z.log2 (Z.pos 1)) with 0%Z. rewrite Z.sub_0_r.
  assert (Qle_bool (2 ^ Z.log2 (Z.abs n)) (Qabs (inject_Z n)) = true) as ->;
    [|reflexivity].
  apply Qle_bool_iff.
  change 2 with (inject_Z 2).
  rewrite <- Zpower_Qpower by apply Z.log2_nonneg.
  change (Qabs (inject_Z n)) with (inject_Z (Z.abs n)).
  rewrite <- Zle_Qle. apply Z.log2_spec. lia.
Qed.

(** Integers up to [Number.MAX_SAFE_INTEGER] are doubles. *)
Lemma fl_integer (n : Z) :
  (Z.abs n <= MAX_SAFE_INTEGER)%Z -> fl (inject_Z n) == inject_Z n.
Proof.
  intros Hn. unfold fl. rewrite Qred_inject_Z. cbv zeta.
  destruct (Z.eq_dec n 0%Z) as [->|Hz]; [reflexivity|].
  assert (Qeq_bool (inject_Z n) 0 = false) as ->.
  { destruct (Qeq_bool (inject_Z n) 0) eqn:E; [|reflexivity].
    apply Qeq_bool_iff in E. unfold Qeq in E. simpl in E. lia. }
  rewrite binade_integer by exact Hz.
  assert (0 <= Z.log2 (Z.abs n) < 53)%Z as [L U].
  { split; [apply Z.log2_nonneg|].
    apply Z.log2_lt_pow2; unfold MAX_SAFE_INTEGER in Hn; lia. }
  set (k := (52 - Z.log2 (Z.abs n))%Z).
  assert (Z.max (Z.log2 (Z.abs n) - 52) (-1074) = (- k)%Z) as -> by lia.
  assert (0 <= k)%Z as Hk by lia.
  rewrite Qred_correct.
  assert (2 ^ (- k) == / inject_Z (2 ^ k)) as Ep.
  { rewrite Qpower_opp. change 2 with (inject_Z 2) at 1.
    rewrite <- Zpower_Qpower by exact Hk. reflexivity. }
  assert (0 < inject_Z (2 ^ k)) as Hpos.
  { change 0 with (inject_Z 0). rewrite <- Zlt_Qlt.
    apply Z.pow_pos_nonneg; lia. }
  assert (inject_Z n / 2 ^ (- k) == inject_Z (n * 2 ^ k)) as Ed.
  { rewrite Ep, inject_Z_mult. field. lra. }
  rewrite (round_half_even_comp _ _ Ed), round_half_even_Z.
  rewrite Ep, inject_Z_mult. field. lra.
Qed.

Lemma js_add_integer (x y : Q) (n m : Z) :
  x == inject_Z n -> y == inject_Z m ->
  (Z.abs (n + m) <= MAX_SAFE_INTEGER)%Z ->
  js_add x y == x + y.
Proof.
  intros Ex Ey H. unfold js_add.
  assert (x + y == inject_Z (n + m)) as E
    by (rewrite Ex, Ey, inject_Z_plus; reflexivity).
  rewrite (fl_comp _ _ E), E. apply fl_integer, H.
Qed.

Lemma js_sub_integer (x y : Q) (n m : Z) :
  x == inject_Z n -> y == inject_Z m ->
  (Z.abs (n - m) <= MAX_SAFE_INTEGER)%Z ->
  js_sub x y == x - y.
Proof.
  intros Ex Ey H. unfold js_sub.
  assert (x - y == inject_Z (n - m)) as E.
  { rewrite Ex, Ey. unfold Z.sub. rewrite inject_Z_plus, inject_Z_opp.
    reflexivity. }
  rewrite (fl_comp _ _ E), E. apply fl_integer, H.
Qed.

Lemma js_mul_integer (x y : Q) (n m : Z) :
  x == inject_Z n -> y == inject_Z m ->
  (Z.abs (n * m) <= MAX_SAFE_INTEGER)%Z ->
  js_mul x y == x * y.
Proof.
  intros Ex Ey H. unfold js_mul.
  assert (x * y == inject_Z (n * m)) as E
    by (rewrite Ex, Ey, inject_Z_mult; reflexivity).
  rewrite (fl_comp _ _ E), E. apply fl_integer, H.
Qed.

(** *** Scoring *)

Lemma computeScore_double (p a : Q) :
  Double.computeScore (JsNumber p) (JsNumber a)
  = if ((p <? 0) || (a <? 0))%js
    then Throws "Score inputs must be non-negative."
    else Returns (js_add (js_mul p 1) (js_mul a 2)).
Proof. reflexivity. Qed.


(** *** The treated counter in a session *)

Ltac branches :=
  repeat match goal with
  | |- context [if ?c then _ else _] => destruct c
  | |- context [match ?c with
                | KNOWLEDGE => _
                | MISTAKE => _
                | ASSESSMENT => _
                end] => destruct c
  end.

Lemma endGame_treated_double (w : World) :
  treated (world_of (Double.endGame w)) = treated w.
Proof.
  unfold Double.endGame. cbv zeta.
  destruct (Double.computeScore _ _); reflexivity.
Qed.

Lemma updateFallingItems_body_treated_double
    (dt : Q) (box : Box.t) (i : nat) (w : World) :
  match Double.updateFallingItems_body dt box i w with
  | Continue w' => treated w' = treated w
  | Return r => treated (world_of r) = treated w
  end.
Proof.
  unfold Double.updateFallingItems_body.
  destruct (fallingItems w !! i) as [item|]; [|reflexivity].
  cbv zeta. branches; try reflexivity.
  rewrite endGame_treated_double. reflexivity.
Qed.

Lemma updateFallingItems_loop_treated_double
    (dt : Q) (box : Box.t) (n : nat) (w : World) :
  treated (world_of (Double.updateFallingItems_loop dt box n w)) = treated w.
Proof.
  revert w. induction n as [|n IH]; intros w; [reflexivity|].
  simpl. pose proof (updateFallingItems_body_treated_double dt box n w) as H.
  destruct (Double.updateFallingItems_body dt box n w) as [w'|r];
    [rewrite IH|]; exact H.
Qed.

Lemma updateGroundMistakes_body_treated_double
    (dt : Q) (box : Box.t) (i : nat) (w : World) :
  match Double.updateGroundMistakes_body dt box i w with
  | Continue w' => treated w' = treated w
  | Return r => treated (world_of r) = treated w
  end.
Proof.
  unfold Double.updateGroundMistakes_body.
  destruct (groundMistakes w !! i) as [ob|]; [|reflexivity].
  cbv zeta. branches; try reflexivity.
  rewrite endGame_treated_double. reflexivity.
Qed.

Lemma updateGroundMistakes_loop_treated_double
    (dt : Q) (box : Box.t) (n : nat) (w : World) :
  treated (world_of (Double.updateGroundMistakes_loop dt box n w)) = treated w.
Proof.
  revert w. induction n as [|n IH]; intros w; [reflexivity|].
  simpl. pose proof (updateGroundMistakes_body_treated_double dt box n w) as H.
  destruct (Double.updateGroundMistakes_body dt box n w) as [w'|r];
    [rewrite IH|]; exact H.
Qed.


Lemma updatePlayer_treated_double (dt : Q) (w : World) :
  treated (Double.updatePlayer dt w) = treated w.
Proof.
  unfold Double.updatePlayer. cbv zeta. branches; reflexivity.
Qed.

Lemma updateKnowledgeAndItems_treated_double (dt : Q) (w : World) :
  treated (Double.updateKnowledgeAndItems dt w) = treated w.
Proof.
  unfold Double.updateKnowledgeAndItems, Double.tickItemSpawner,
    Double.triggerAssessment, Double.spawnRandomItem,
    Double.spawnAssessmentItem, Double.erodeKnowledge, Double.randomBetween,
    Math_random.
  cbv zeta. branches; reflexivity.
Qed.

Lemma updateFallingItems_treated_double (dt : Q) (w : World) :
  treated (world_of (Double.updateFallingItems dt w)) = treated w.
Proof. apply updateFallingItems_loop_treated_double. Qed.

Lemma updateGroundMistakes_treated_double (dt : Q) (w : World) :
  treated (world_of (Double.updateGroundMistakes dt w)) = treated w.
Proof.
  unfold Double.updateGroundMistakes. cbv zeta.
  rewrite updateGroundMistakes_loop_treated_double.
  unfold Double.tickGroundMistakeSpawner, Double.spawnGroundMistake,
    Double.randomBetween, Math_random.
  cbv zeta. branches; reflexivity.
Qed.

Lemma updatePatient_treated_double (dt : Q) (w : World) :
  treated (Double.updatePatient dt w) = treated w
  \/ treated (Double.updatePatient dt w) = js_add (treated w) 1.
Proof.
  unfold Double.updatePatient, Double.randomBetween, Math_random.
  cbv zeta.
  destruct (PatientState.active (patientState w)) as [patient|];
    branches; auto.
Qed.

Lemma gameLoop_treated_double (timestamp : Q) (w : World) :
  let w' := world_of (Double.gameLoop timestamp w) in
  treated w' = treated w \/ treated w' = js_add (treated w) 1.
Proof.
  cbv zeta. unfold Double.gameLoop.
  destruct (negb _); [left; reflexivity|]. cbv zeta.
  set (w0 := match lastTimestamp w with
             | Some _ => w
             | None => set_lastTimestamp (Some timestamp) w
             end).
  assert (treated w0 = treated w) as E0
    by (unfold w0; destruct (lastTimestamp w); reflexivity).
  set (dtMs := js_sub timestamp _).
  set (w1 := Double.updateKnowledgeAndItems dtMs _).
  assert (treated w1 = treated w) as E1.
  { unfold w1.
    rewrite updateKnowledgeAndItems_treated_double,
      updatePlayer_treated_double. exact E0. }
  pose proof (updateFallingItems_treated_double (js_div dtMs 1000) w1) as E2.
  destruct (Double.updateFallingItems (js_div dtMs 1000) w1) as [w2|msg w2];
    simpl in E2 |- *; [|left; congruence].
  destruct (GameState_eqb _ _); simpl; [left; congruence|].
  pose proof (updateGroundMistakes_treated_double dtMs
                (Double.updatePatient dtMs w2)) as E3.
  assert (treated
            (world_of
               (andThen
                  (Double.updateGroundMistakes dtMs
                     (Double.updatePatient dtMs w2))
                  (fun w => Done w)))
          = treated (Double.updatePatient dtMs w2)) as E4.
  { destruct (Double.updateGroundMistakes dtMs _); exact E3. }
  rewrite E4.
  destruct (updatePatient_treated_double dtMs w2) as [E|E];
    rewrite E, E2, E1; [left|right]; reflexivity.
Qed.

Lemma dispatch_treated_double (e : Event) (w : World) :
  let w' := world_of (Double.dispatch e w) in
  treated w' = treated w \/ treated w' = js_add (treated w) 1
  \/ treated w' = 0.
Proof.
  cbv zeta. destruct e; cbv beta iota delta [Double.dispatch].
  - destruct (gameLoop_treated_double timestamp w) as [E|E]; auto.
  - left. unfold handleKeyDown. branches; reflexivity.
  - left. unfold handleKeyUp. branches; reflexivity.
  - destruct (gameState w); auto; right; right;
      unfold Double.startGame, Double.randomBetween, Math_random;
      reflexivity.
  - destruct (gameState w); auto; right; right;
      unfold Double.startGame, Double.randomBetween, Math_random;
      reflexivity.
Qed.

(** In a session the treated counter is a whole number, at most the number
    of events gone by: adding one to it is exact for the first
    [Number.MAX_SAFE_INTEGER] events. *)
Lemma run_treated_double (es : list Event) (w : World) (n : Z) :
  treated w == inject_Z n -> (0 <= n)%Z ->
  (n + Z.of_nat (length es) <= MAX_SAFE_INTEGER)%Z ->
  exists m : Z,
    treated (world_of (Double.run es w)) == inject_Z m
    /\ (0 <= m <= n + Z.of_nat (length es))%Z.
Proof.
  revert w n. induction es as [|e es IH]; intros w n En Hn Hb.
  - exists n. simpl. split; [exact En|lia].
  - simpl Double.run. simpl length in Hb.
    pose proof (dispatch_treated_double e w) as H. cbv zeta in H.
    destruct (Double.dispatch e w) as [w'|msg w']; simpl in H |- *.
    + destruct H as [E|[E|E]].
      * destruct (IH w' n) as (m & Em & Hm); [rewrite E; exact En|lia|lia|].
        exists m. split; [exact Em|lia].
      * destruct (IH w' (n + 1)%Z) as (m & Em & Hm); [|lia|lia|].
        { rewrite E, (js_add_integer _ 1 n 1 En); [|reflexivity|lia].
          rewrite En, inject_Z_plus. reflexivity. }
        exists m. split; [exact Em|lia].
      * destruct (IH w' 0%Z) as (m & Em & Hm);
          [rewrite E; reflexivity|lia|lia|].
        exists m. split; [exact Em|lia].
    + destruct H as [E|[E|E]].
      * exists n. split; [rewrite E; exact En|lia].
      * exists (n + 1)%Z. split; [|lia].
        rewrite E, (js_add_integer _ 1 n 1 En); [|reflexivity|lia].
        rewrite En, inject_Z_plus. reflexivity.
      * exists 0%Z. split; [rewrite E; reflexivity|lia].
Qed.

Lemma session_treated_double (es : list Event) :
  (Z.of_nat (length es) <= MAX_SAFE_INTEGER)%Z ->
  exists m : Z,
    treated (world_of (Double.run es Double.initialWorld)) == inject_Z m
    /\ (0 <= m <= Z.of_nat (length es))%Z.
Proof.
  intros Hb.
  apply (run_treated_double es Double.initialWorld 0);
    [reflexivity|lia|lia].
Qed.

Lemma session_treated_plus_one (es : list Event) :
  (Z.of_nat (length es) < MAX_SAFE_INTEGER)%Z ->
  js_add (treated (world_of (Double.run es Double.initialWorld))) 1
  == treated (world_of (Double.run es Double.initialWorld)) + 1.
Proof.
  intros Hb.
  destruct (session_treated_double es) as (m & Em & Hm); [lia|].
  apply (js_add_integer _ 1 m 1 Em); [reflexivity|lia].
Qed.

(** *** The meter in a session *)

Lemma updateKnowledgeAndItems_knowledgeState_double (dtMs : Q) (w : World) :
  knowledgeState (Double.updateKnowledgeAndItems dtMs w)
  = knowledgeState (Double.erodeKnowledge dtMs w).
Proof.
  unfold Double.updateKnowledgeAndItems, Double.tickItemSpawner,
    Double.triggerAssessment, Double.spawnRandomItem,
    Double.spawnAssessmentItem, Double.randomBetween, Math_random.
  cbv zeta.
  repeat match goal with
  | |- context [if ?c then _ else _] => destruct c
  end; reflexivity.
Qed.

Lemma clamp_comp (x y lo hi : Q) : x == y -> clamp x lo hi == clamp y lo hi.
Proof.
  intros E. unfold clamp.
  apply Q.min_compat; [reflexivity|].
  apply Q.max_compat; [reflexivity|exact E].
Qed.

Lemma meterOk_comp (q q' : Q) :
  q == q' ->
  (KNOWLEDGE_MIN <= q <= KNOWLEDGE_MAX /\ multipleOf5 q) ->
  KNOWLEDGE_MIN <= q' <= KNOWLEDGE_MAX /\ multipleOf5 q'.
Proof.
  intros E [B [k M]]. rewrite E in B. split; [exact B|].
  exists k. rewrite <- E. exact M.
Qed.

Lemma erosion_keeps_meterOk_double (q : Q) :
  (KNOWLEDGE_MIN <= q <= KNOWLEDGE_MAX /\ multipleOf5 q) ->
  KNOWLEDGE_MIN < q ->
  (KNOWLEDGE_MIN
     <= clamp (js_sub q KNOWLEDGE_EROSION_STEP) KNOWLEDGE_MIN KNOWLEDGE_MAX
     <= KNOWLEDGE_MAX
   /\ multipleOf5
        (clamp (js_sub q KNOWLEDGE_EROSION_STEP) KNOWLEDGE_MIN KNOWLEDGE_MAX))
  /\ clamp (js_sub q KNOWLEDGE_EROSION_STEP) KNOWLEDGE_MIN KNOWLEDGE_MAX
     == q - KNOWLEDGE_EROSION_STEP.
Proof.
  intros H L.
  assert (js_sub q KNOWLEDGE_EROSION_STEP == q - KNOWLEDGE_EROSION_STEP)
    as E.
  { destruct H as [[B1 B2] [k M]].
    apply (js_sub_integer q KNOWLEDGE_EROSION_STEP (5 * k) 5 M);
      [reflexivity|].
    rewrite M in B1, B2. unfold KNOWLEDGE_MIN, KNOWLEDGE_MAX in *.
    change 0 with (inject_Z 0) in B1. change 100 with (inject_Z 100) in B2.
    rewrite <- Zle_Qle in B1, B2. unfold MAX_SAFE_INTEGER. lia. }
  split.
  - apply (meterOk_comp
             (clamp (q - KNOWLEDGE_EROSION_STEP) KNOWLEDGE_MIN KNOWLEDGE_MAX));
      [apply clamp_comp; symmetry; exact E|].
    apply erosion_keeps_meterOk; assumption.
  - rewrite (clamp_comp _ _ _ _ E).
    pose proof (multipleOf5_positive q (proj2 H) L) as L5.
    destruct H as [[B1 B2] _].
    unfold KNOWLEDGE_MIN, KNOWLEDGE_MAX, KNOWLEDGE_EROSION_STEP in *.
    apply clamp_inside. lra.
Qed.

Lemma pickup_keeps_meterOk_double (q : Q) :
  (KNOWLEDGE_MIN <= q <= KNOWLEDGE_MAX /\ multipleOf5 q) ->
  KNOWLEDGE_MIN
    <= clamp (js_add q KNOWLEDGE_PICKUP_AMOUNT) KNOWLEDGE_MIN KNOWLEDGE_MAX
    <= KNOWLEDGE_MAX
  /\ multipleOf5
       (clamp (js_add q KNOWLEDGE_PICKUP_AMOUNT) KNOWLEDGE_MIN KNOWLEDGE_MAX).
Proof.
  intros H.
  assert (js_add q KNOWLEDGE_PICKUP_AMOUNT == q + KNOWLEDGE_PICKUP_AMOUNT)
    as E.
  { destruct H as [[B1 B2] [k M]].
    apply (js_add_integer q KNOWLEDGE_PICKUP_AMOUNT (5 * k) 10 M);
      [reflexivity|].
    rewrite M in B1, B2. unfold KNOWLEDGE_MIN, KNOWLEDGE_MAX in *.
    change 0 with (inject_Z 0) in B1. change 100 with (inject_Z 100) in B2.
    rewrite <- Zle_Qle in B1, B2. unfold MAX_SAFE_INTEGER. lia. }
  apply (meterOk_comp
           (clamp (q + KNOWLEDGE_PICKUP_AMOUNT) KNOWLEDGE_MIN KNOWLEDGE_MAX));
    [apply clamp_comp; symmetry; exact E|].
  apply pickup_keeps_meterOk; assumption.
Qed.


Lemma erodeKnowledge_meterOk_double (dt : Q) (w : World) :
  meterOk w -> meterOk (Double.erodeKnowledge dt w).
Proof.
  unfold meterOk, meter, Double.erodeKnowledge. cbv zeta. intros H.
  destruct (Qle_bool _ _); [|exact H].
  destruct (Qlt_bool _ _) eqn:E; [|exact H].
  apply Qlt_bool_iff in E. simpl.
  apply erosion_keeps_meterOk_double; assumption.
Qed.

Lemma updateKnowledgeAndItems_meterOk_double (dt : Q) (w : World) :
  meterOk w -> meterOk (Double.updateKnowledgeAndItems dt w).
Proof.
  intros H. unfold meterOk, meter.
  rewrite updateKnowledgeAndItems_knowledgeState_double.
  apply (erodeKnowledge_meterOk_double dt w H).
Qed.

Lemma endGame_knowledgeState_double (w : World) :
  knowledgeState (world_of (Double.endGame w)) = knowledgeState w.
Proof.
  unfold Double.endGame. cbv zeta.
  destruct (Double.computeScore _ _); reflexivity.
Qed.

Lemma updateFallingItems_body_meterOk_double
    (dt : Q) (box : Box.t) (i : nat) (w : World) :
  meterOk w ->
  match Double.updateFallingItems_body dt box i w with
  | Continue w' => meterOk w'
  | Return r => meterOk (world_of r)
  end.
Proof.
  unfold meterOk, meter, Double.updateFallingItems_body. intros H.
  destruct (fallingItems w !! i) as [item|]; [|exact H].
  cbv zeta.
  branches;
    first [ exact H
          | rewrite endGame_knowledgeState_double; exact H
          | simpl; apply pickup_keeps_meterOk_double, H
          | simpl; apply fifty_meterOk ].
Qed.

Lemma updateFallingItems_loop_meterOk_double
    (dt : Q) (box : Box.t) (n : nat) (w : World) :
  meterOk w ->
  meterOk (world_of (Double.updateFallingItems_loop dt box n w)).
Proof.
  revert w. induction n as [|n IH]; intros w H; [exact H|].
  simpl.
  pose proof (updateFallingItems_body_meterOk_double dt box n w H) as H'.
  destruct (Double.updateFallingItems_body dt box n w) as [w'|r];
    [apply IH|]; exact H'.
Qed.

Lemma updateGroundMistakes_body_knowledgeState_double
    (dt : Q) (box : Box.t) (i : nat) (w : World) :
  match Double.updateGroundMistakes_body dt box i w with
  | Continue w' => knowledgeState w' = knowledgeState w
  | Return r => knowledgeState (world_of r) = knowledgeState w
  end.
Proof.
  unfold Double.updateGroundMistakes_body.
  destruct (groundMistakes w !! i) as [ob|]; [|reflexivity].
  cbv zeta. branches; try reflexivity.
  rewrite endGame_knowledgeState_double. reflexivity.
Qed.

Lemma updateGroundMistakes_loop_knowledgeState_double
    (dt : Q) (box : Box.t) (n : nat) (w : World) :
  knowledgeState (world_of (Double.updateGroundMistakes_loop dt box n w))
  = knowledgeState w.
Proof.
  revert w. induction n as [|n IH]; intros w; [reflexivity|].
  simpl.
  pose proof (updateGroundMistakes_body_knowledgeState_double dt box n w)
    as H.
  destruct (Double.updateGroundMistakes_body dt box n w) as [w'|r];
    [rewrite IH|]; exact H.
Qed.

Lemma updateGroundMistakes_knowledgeState_double (dt : Q) (w : World) :
  knowledgeState (world_of (Double.updateGroundMistakes dt w))
  = knowledgeState w.
Proof.
  unfold Double.updateGroundMistakes. cbv zeta.
  rewrite updateGroundMistakes_loop_knowledgeState_double.
  unfold Double.tickGroundMistakeSpawner, Double.spawnGroundMistake,
    Double.randomBetween, Math_random.
  cbv zeta. branches; reflexivity.
Qed.

Lemma updatePatient_knowledgeState_double (dt : Q) (w : World) :
  knowledgeState (Double.updatePatient dt w) = knowledgeState w.
Proof.
  unfold Double.updatePatient, Double.randomBetween, Math_random.
  cbv zeta.
  destruct (PatientState.active (patientState w)) as [patient|];
    branches; reflexivity.
Qed.

Lemma updatePlayer_knowledgeState_double (dt : Q) (w : World) :
  knowledgeState (Double.updatePlayer dt w) = knowledgeState w.
Proof.
  unfold Double.updatePlayer. cbv zeta. branches; reflexivity.
Qed.

Lemma gameLoop_meterOk_double (timestamp : Q) (w : World) :
  meterOk w -> meterOk (world_of (Double.gameLoop timestamp w)).
Proof.
  intros H. unfold Double.gameLoop.
  destruct (negb _); [exact H|]. cbv zeta.
  set (w0 := match lastTimestamp w with
             | Some _ => w
             | None => set_lastTimestamp (Some timestamp) w
             end).
  assert (knowledgeState w0 = knowledgeState w) as E0
    by (unfold w0; destruct (lastTimestamp w); reflexivity).
  set (dtMs := js_sub timestamp _).
  set (w1 := Double.updateKnowledgeAndItems dtMs _).
  assert (meterOk w1) as H1.
  { unfold w1. apply updateKnowledgeAndItems_meterOk_double.
    unfold meterOk, meter. rewrite updatePlayer_knowledgeState_double.
    simpl. rewrite E0. exact H. }
  pose proof (updateFallingItems_loop_meterOk_double (js_div dtMs 1000)
                (Double.getPlayerHitBox w1) (length (fallingItems w1)) w1 H1)
    as H2.
  fold (Double.updateFallingItems (js_div dtMs 1000) w1) in H2.
  destruct (Double.updateFallingItems (js_div dtMs 1000) w1) as [w2|msg w2];
    simpl in H2 |- *; [|exact H2].
  destruct (GameState_eqb _ _); simpl; [exact H2|].
  pose proof (updateGroundMistakes_knowledgeState_double dtMs
                (Double.updatePatient dtMs w2)) as E3.
  rewrite updatePatient_knowledgeState_double in E3.
  unfold meterOk, meter in H2 |- *.
  destruct (Double.updateGroundMistakes dtMs _); simpl in E3 |- *;
    rewrite E3; exact H2.
Qed.

Lemma dispatch_meterOk_double (e : Event) (w : World) :
  meterOk w -> meterOk (world_of (Double.dispatch e w)).
Proof.
  intros H. destruct e; cbv beta iota delta [Double.dispatch].
  - apply gameLoop_meterOk_double, H.
  - unfold handleKeyDown. branches; exact H.
  - unfold handleKeyUp. branches; exact H.
  - destruct (gameState w); try exact H; apply fifty_meterOk.
  - destruct (gameState w); try exact H; apply fifty_meterOk.
Qed.

Lemma run_meterOk_double (es : list Event) (w : World) :
  meterOk w -> meterOk (world_of (Double.run es w)).
Proof.
  revert w. induction es as [|e es IH]; intros w H; [exact H|].
  simpl Double.run.
  pose proof (dispatch_meterOk_double e w H) as H'.
  destruct (Double.dispatch e w) as [w'|msg w']; simpl in H' |- *;
    [apply IH|]; exact H'.
Qed.

(** In every session the meter is a multiple of five between 0 and 100:
    five points off it is exact. *)
Lemma session_meterOk_double (es : list Event) :
  meterOk (world_of (Double.run es Double.initialWorld)).
Proof. apply run_meterOk_double, fifty_meterOk. Qed.

(** *** One tick of the erosion timer and of the patient *)

(** C8: [updateKnowledgeAndItems] adds the tick's delta to the erosion
    timer, as a double; while the sum is below the interval nothing else
    happens; once it is at or above it the timer becomes exactly zero,
    whatever the overshoot, and the meter, when above the floor, loses one
    step, clamped: for a whole meter between 1 and 100, exactly five or
    down to the floor, and exactly five when the meter is that of a
    session, as it is where [gameLoop] makes the call. *)
Theorem erosion_step (dtMs : Q) (w : World) :
  let k := knowledgeState w in
  let k' := knowledgeState (Double.updateKnowledgeAndItems dtMs w) in
  let elapsed := js_add (KnowledgeState.timeSinceErosionMs k) dtMs in
  (elapsed < KNOWLEDGE_EROSION_INTERVAL_MS ->
     KnowledgeState.timeSinceErosionMs k' = elapsed
     /\ KnowledgeState.percent k' = KnowledgeState.percent k)
  /\ (KNOWLEDGE_EROSION_INTERVAL_MS <= elapsed ->
      KnowledgeState.timeSinceErosionMs k' = 0
      /\ (KnowledgeState.percent k <= KNOWLEDGE_MIN ->
          KnowledgeState.percent k' = KnowledgeState.percent k)
      /\ (KNOWLEDGE_MIN < KnowledgeState.percent k ->
          KnowledgeState.percent k'
          = clamp (js_sub (KnowledgeState.percent k) KNOWLEDGE_EROSION_STEP)
              KNOWLEDGE_MIN KNOWLEDGE_MAX)
      /\ (forall n : Z,
            KnowledgeState.percent k == inject_Z n -> (0 < n <= 100)%Z ->
            KnowledgeState.percent k'
            == Qmax KNOWLEDGE_MIN
                 (KnowledgeState.percent k - KNOWLEDGE_EROSION_STEP))
      /\ (forall es : list Event,
            k = knowledgeState (world_of (Double.run es Double.initialWorld)) ->
            KNOWLEDGE_MIN < KnowledgeState.percent k ->
            KnowledgeState.percent k'
            == KnowledgeState.percent k - KNOWLEDGE_EROSION_STEP)).
Proof.
  cbv zeta. rewrite updateKnowledgeAndItems_knowledgeState_double.
  unfold Double.erodeKnowledge. cbv zeta. split; intros L.
  - destruct (Qle_bool _ _) eqn:E; [apply Qle_bool_iff in E; lra|].
    split; reflexivity.
  - apply Qle_bool_iff in L. rewrite L.
    destruct (Qlt_bool _ _) eqn:E;
      [apply Qlt_bool_iff in E | apply Qlt_bool_false_iff in E]; simpl.
    + split; [reflexivity|]. split; [lra|]. split; [reflexivity|]. split.
      * intros n En Hn.
        pose proof (js_sub_integer _ KNOWLEDGE_EROSION_STEP n 5 En) as Es.
        assert (KnowledgeState.percent (knowledgeState w) <= 100) as U.
        { rewrite En. change 100 with (inject_Z 100). rewrite <- Zle_Qle.
          lia. }
        unfold clamp. rewrite Q.min_r.
        -- apply Q.max_compat; [reflexivity|].
           apply Es; [reflexivity|unfold MAX_SAFE_INTEGER; lia].
        -- apply Q.max_lub;
             [|rewrite Es; [|reflexivity|unfold MAX_SAFE_INTEGER; lia]];
             unfold KNOWLEDGE_MIN, KNOWLEDGE_MAX, KNOWLEDGE_EROSION_STEP in *;
             lra.
      * intros es Hw _.
        pose proof (session_meterOk_double es) as Hm.
        unfold meterOk, meter in Hm. rewrite <- Hw in Hm.
        apply (proj2 (erosion_keeps_meterOk_double _ Hm E)).
    + split; [reflexivity|]. split; [reflexivity|]. split; [lra|]. split.
      * intros n En Hn. exfalso.
        assert (0 < KnowledgeState.percent (knowledgeState w)) as P.
        { rewrite En. change 0 with (inject_Z 0). rewrite <- Zlt_Qlt. lia. }
        unfold KNOWLEDGE_MIN in E. lra.
      * intros es _ P. lra.
Qed.

(** C6: with a patient present, contact time accumulates by the tick's
    delta, as a double, only on a tick where the player is eligible and
    overlaps the patient (full boxes); on any other tick it is reset to
    zero and nobody is treated; the treated counter goes up exactly when
    the accumulated contact reaches the threshold, by one while it is a
    whole number below [Number.MAX_SAFE_INTEGER], as is the counter of
    every session of fewer events than that, and then the patient is gone
    and both accumulators are zero. *)
Theorem patient_treatment (dtMs : Q) (w : World) (patient : Patient.t)
    (Hactive : PatientState.active (patientState w) = Some patient) :
  let ps := patientState w in
  let w' := Double.updatePatient dtMs w in
  let ps' := patientState w' in
  let contact := js_add (PatientState.contactDurationMs ps) dtMs in
  (canTreat w && Double.touchesPatient w patient = false ->
     PatientState.contactDurationMs ps' = 0 /\ treated w' = treated w)
  /\ (canTreat w && Double.touchesPatient w patient = true ->
      contact < PATIENT_TREAT_DURATION_MS ->
      treated w' = treated w
      /\ (js_add (Patient.lifetimeMs patient) dtMs < PATIENT_VISIBLE_MS ->
          PatientState.active ps' = Some (Double.aged dtMs patient)
          /\ PatientState.contactDurationMs ps' = contact))
  /\ (canTreat w && Double.touchesPatient w patient = true ->
      PATIENT_TREAT_DURATION_MS <= contact ->
      treated w' = js_add (treated w) 1
      /\ (forall n : Z,
            treated w == inject_Z n -> (0 <= n < MAX_SAFE_INTEGER)%Z ->
            treated w' == treated w + 1)
      /\ (forall es : list Event,
            treated w
            = treated (world_of (Double.run es Double.initialWorld)) ->
            (Z.of_nat (length es) < MAX_SAFE_INTEGER)%Z ->
            treated w' == treated w + 1)
      /\ PatientState.active ps' = None
      /\ PatientState.timeSinceLastPatientGoneMs ps' = 0
      /\ PatientState.contactDurationMs ps' = 0).
Proof.
  cbv zeta.
  unfold Double.updatePatient, canTreat, Double.touchesPatient, Double.aged,
    treated.
  rewrite Hactive. cbv zeta. simpl Patient.x. simpl Patient.y.
  simpl Patient.width. simpl Patient.height. simpl Patient.lifetimeMs.
  split; [|split].
  - intros ->.
    destruct (Qle_bool PATIENT_VISIBLE_MS _); split; reflexivity.
  - intros -> L.
    destruct (Qle_bool PATIENT_TREAT_DURATION_MS _) eqn:E;
      [apply Qle_bool_iff in E; lra|].
    destruct (Qle_bool PATIENT_VISIBLE_MS _) eqn:E';
      [apply Qle_bool_iff in E' | apply Qle_bool_false_iff in E'];
      (split; [reflexivity|]); intros L'; [lra|].
    split; reflexivity.
  - intros -> L. apply Qle_bool_iff in L. rewrite L. simpl.
    assert (forall n : Z,
              ScoreState.patientsTreated (scoreState w) == inject_Z n ->
              (0 <= n < MAX_SAFE_INTEGER)%Z ->
              js_add (ScoreState.patientsTreated (scoreState w)) 1
              == ScoreState.patientsTreated (scoreState w) + 1) as Hone.
    { intros n En Hn.
      apply (js_add_integer _ 1 n 1 En); [reflexivity|lia]. }
    split; [reflexivity|]. split; [exact Hone|].
    split; [|repeat split; reflexivity].
    intros es Hw Hes. unfold treated in Hw.
    destruct (session_treated_double es) as (m & Em & Hm); [lia|].
    unfold treated in Em. rewrite <- Hw in Em.
    apply (Hone m Em). lia.
Qed.

(** C7: a present patient whose lifetime, a sum of doubles, reaches the cap
    on this tick is gone after it, with both accumulators at zero,
    contacted or not; it counts as treated, one more on the counter of
    every session of fewer than [Number.MAX_SAFE_INTEGER] events, exactly
    when its contact time reaches the threshold on that same tick; an
    absent patient stays absent while the gap timer is below the minimum
    gap and a new one, with lifetime zero, appears on the tick the timer
    reaches it. *)
Theorem patient_expiry_and_gap (dtMs : Q) (w : World) :
  let ps := patientState w in
  let w' := Double.updatePatient dtMs w in
  let ps' := patientState w' in
  match PatientState.active ps with
  | Some patient =>
      let due :=
        canTreat w && Double.touchesPatient w patient
        && (js_add (PatientState.contactDurationMs ps) dtMs
            >=? PATIENT_TREAT_DURATION_MS)%js in
      (PATIENT_VISIBLE_MS <= js_add (Patient.lifetimeMs patient) dtMs ->
         PatientState.active ps' = None
         /\ PatientState.timeSinceLastPatientGoneMs ps' = 0
         /\ PatientState.contactDurationMs ps' = 0
         /\ treated w'
            = (if due then js_add (treated w) 1 else treated w)
         /\ (forall es : list Event,
               treated w
               = treated (world_of (Double.run es Double.initialWorld)) ->
               (Z.of_nat (length es) < MAX_SAFE_INTEGER)%Z ->
               treated w' == (if due then treated w + 1 else treated w)))
      /\ (js_add (Patient.lifetimeMs patient) dtMs < PATIENT_VISIBLE_MS ->
          due = false ->
          PatientState.active ps' = Some (Double.aged dtMs patient)
          /\ treated w' = treated w)
  | None =>
      let gap := js_add (PatientState.timeSinceLastPatientGoneMs ps) dtMs in
      (gap < PATIENT_GAP_MS ->
         PatientState.active ps' = None
         /\ PatientState.timeSinceLastPatientGoneMs ps' = gap
         /\ treated w' = treated w)
      /\ (PATIENT_GAP_MS <= gap ->
          (exists patient,
             PatientState.active ps' = Some patient
             /\ Patient.lifetimeMs patient = 0)
          /\ PatientState.timeSinceLastPatientGoneMs ps' = 0
          /\ PatientState.contactDurationMs ps' = 0
          /\ treated w' = treated w)
  end.
Proof.
  cbv zeta.
  unfold Double.updatePatient, canTreat, Double.touchesPatient, Double.aged.
  destruct (PatientState.active (patientState w)) as [patient|].
  - cbv zeta. simpl Patient.x. simpl Patient.y.
    simpl Patient.width. simpl Patient.height. simpl Patient.lifetimeMs.
    destruct (_ && Double.intersects _ _); simpl andb.
    + destruct (Qle_bool PATIENT_TREAT_DURATION_MS _); split; intros L.
      * repeat split; try reflexivity.
        intros es Hw Hb. fold (treated w). rewrite Hw.
        apply session_treated_plus_one, Hb.
      * discriminate.
      * apply Qle_bool_iff in L. rewrite L. repeat split; reflexivity.
      * intros _.
        destruct (Qle_bool PATIENT_VISIBLE_MS _) eqn:E;
          [apply Qle_bool_iff in E; lra|]. split; reflexivity.
    + split; intros L.
      * apply Qle_bool_iff in L. rewrite L. repeat split; reflexivity.
      * intros _.
        destruct (Qle_bool PATIENT_VISIBLE_MS _) eqn:E;
          [apply Qle_bool_iff in E; lra|]. split; reflexivity.
  - split; intros L.
    + destruct (Qle_bool PATIENT_GAP_MS _) eqn:E;
        [apply Qle_bool_iff in E; lra|]. repeat split; reflexivity.
    + apply Qle_bool_iff in L. rewrite L.
      repeat split; try reflexivity. eexists. split; reflexivity.
Qed.

End Properties.

(** ** The properties on the recorded sessions *)

Lemma lostWorld_reachable : reachable (host := hazardHost) lostWorld.
Proof.
  apply reachable_run; [apply reachable_init|]. vm_compute. reflexivity.
Qed.

Lemma idleWorld_reachable : reachable (host := hazardHost) idleWorld.
Proof.
  apply reachable_run; [apply reachable_init|]. vm_compute. reflexivity.
Qed.

Lemma studyWorld_reachable : reachable (host := pickupHost) studyWorld.
Proof.
  apply reachable_run; [apply reachable_init|]. vm_compute. reflexivity.
Qed.



Lemma computeScore_only_error_lostWorld :
  (exists msg, computeScore (JsNumber (-1)) (JsString "3") = Throws msg)
  /\ raised (dispatch (host := hazardHost) (AnimationFrame 13300) lostWorld)
     = false.
Proof.
  destruct (computeScore_only_error (host := hazardHost)
              (JsNumber (-1)) (JsString "3") (AnimationFrame 13300) lostWorld
              lostWorld_reachable) as (H1 & _ & _ & H4).
  split; [|exact H4].
  apply H1. right. left. unfold numeric. simpl. discriminate.
Defined.

Lemma meter_in_range_idleWorld :
  KNOWLEDGE_MIN <= meter idleWorld <= KNOWLEDGE_MAX
  /\ meter (erosionTicks (host := hazardHost) [3000; 3000; 3000] idleWorld)
     = meter idleWorld.
Proof.
  destruct (meter_in_range (host := hazardHost) idleWorld idleWorld_reachable)
    as (H1 & _ & H3).
  split; [exact H1|]. apply H3. vm_compute. discriminate.
Defined.

Lemma mistakes_bounded_and_terminal_lostWorld :
  mistakes lostWorld <= MAX_MISTAKES
  /\ gameState lostWorld = GAME_OVER
  /\ endGameCalls lostWorld = 1%nat
  /\ gameLoop (host := hazardHost) 13300 lostWorld = Done lostWorld.
Proof.
  destruct (mistakes_bounded_and_terminal (host := hazardHost) lostWorld
              lostWorld_reachable) as (H1 & H2 & H3 & _ & _ & _ & _ & H8 & _).
  assert (gameState lostWorld = GAME_OVER) as Hg.
  { apply H2. vm_compute. reflexivity. }
  split; [exact H1|]. split; [exact Hg|]. split.
  - rewrite H3, Hg. reflexivity.
  - apply H8, Hg.
Defined.

Lemma assessment_single_pending_studyWorld :
  pendingItems studyWorld = 1%nat
  /\ pendingItems (updateKnowledgeAndItems (host := pickupHost) 250 studyWorld)
     = 1%nat.
Proof.
  destruct (assessment_single_pending (host := pickupHost) studyWorld
              studyWorld_reachable) as (H1 & _ & _ & H4 & _).
  split.
  - rewrite H1. vm_compute. reflexivity.
  - destruct (H4 250) as [_ E]. rewrite E, H1. vm_compute. reflexivity.
Defined.

(** The elapsed times 370.9, 392 and 1237.1 ms sum to 2000 as doubles:
    the frame at 2000 ms treats the patient. *)
Lemma patient_treatment_unevenFrames :
  let dtMs := js_sub 2000 (fl (7629 # 10)) in
  let w := played unevenFrames in
  let w' := Double.updatePatient (host := pickupHost) dtMs w in
  js_add (PatientState.contactDurationMs (patientState w)) dtMs == 2000
  /\ treated w' = js_add (treated w) 1
  /\ treated w' == 1
  /\ PatientState.active (patientState w') = None.
Proof.
  cbv zeta.
  destruct (PatientState.active (patientState (played unevenFrames)))
    as [patient|] eqn:E; [|vm_compute in E; discriminate].
  destruct (patient_treatment (host := pickupHost)
              (js_sub 2000 (fl (7629 # 10))) (played unevenFrames) patient E)
    as (_ & _ & H).
  vm_compute in E. injection E as <-.
  destruct H as (H1 & H2 & _ & H3 & _).
  - vm_compute. reflexivity.
  - vm_compute. discriminate.
  - split; [vm_compute; reflexivity|]. split; [exact H1|].
    split; [|exact H3].
    rewrite (H2 0%Z); [vm_compute; reflexivity|vm_compute; reflexivity|].
    vm_compute. split; [discriminate|reflexivity].
Defined.

(** The scenario of the contact broken one millisecond short of the
    threshold: nobody is treated until a second, full stretch of contact. *)
Lemma contact_must_be_continuous :
  treated (played almostTreated) = 0
  /\ PatientState.contactDurationMs (patientState (played almostTreated))
     = 1999
  /\ PatientState.contactDurationMs (patientState (played contactBroken)) = 0
  /\ treated (played almostTreatedAgain) = 0
  /\ PatientState.contactDurationMs
       (patientState (played almostTreatedAgain))
     = 1999
  /\ treated (played treatedAtLast) = 1.
Proof. vm_compute. repeat split. Qed.

(** Two seconds on the patient, frame by frame.  With frames at 0, 370.9,
    762.9 and 2000 ms the contact time is 2000 and the patient is treated;
    with frames at 0, 272.1, 1348.7 and 2000 ms the three elapsed times sum
    to less than 2000 as doubles, and the patient waits for the next
    frame. *)
Lemma contact_sums_as_doubles :
  treated (played (unevenFrames ++ [AnimationFrame 2000])) = 1
  /\ treated (played (unluckyFrames ++ [AnimationFrame 2000])) = 0
  /\ PatientState.contactDurationMs
       (patientState (played (unluckyFrames ++ [AnimationFrame 2000])))
     < PATIENT_TREAT_DURATION_MS
  /\ treated (played (unluckyFrames ++ [AnimationFrame 2000;
                                          AnimationFrame 2016]))
     = 1.
Proof. vm_compute. repeat split. Qed.

(** Never contacted, the patient of [outOfReach] is 2000 ms old; six
    seconds later it leaves, and a new one comes after two seconds more. *)
Lemma patient_expiry_and_gap_outOfReach :
  let w := Double.updatePatient (host := hazardHost) 6000 outOfReach in
  let w' := Double.updatePatient (host := hazardHost) 2000 w in
  PatientState.active (patientState outOfReach)
  = Some (Patient.mk 679 358 28 32 2000)
  /\ (PatientState.active (patientState w) = None
      /\ PatientState.timeSinceLastPatientGoneMs (patientState w) = 0
      /\ treated w = treated outOfReach)
  /\ (exists patient,
        PatientState.active (patientState w') = Some patient
        /\ Patient.lifetimeMs patient = 0).
Proof.
  cbv zeta.
  assert (PatientState.active (patientState outOfReach)
          = Some (Patient.mk 679 358 28 32 2000)) as E
    by (vm_compute; reflexivity).
  pose proof (patient_expiry_and_gap (host := hazardHost) 6000 outOfReach)
    as H.
  cbv zeta in H. rewrite E in H. destruct H as [H _].
  destruct H as (H1 & H2 & _ & H4 & _); [vm_compute; discriminate|].
  pose proof (patient_expiry_and_gap (host := hazardHost) 2000
                (Double.updatePatient (host := hazardHost) 6000 outOfReach))
    as H'.
  cbv zeta in H'. rewrite H1 in H'. destruct H' as [_ H'].
  destruct H' as (H5 & _); [rewrite H2; vm_compute; discriminate|].
  split; [exact E|]. split; [|exact H5].
  split; [exact H1|]. split; [exact H2|].
  rewrite H4. vm_compute. reflexivity.
Defined.

(** The elapsed times 370.9, 392, 1237.1 and 1000 ms sum to 3000 as
    doubles: the frame at 3000 ms takes five points off the meter. *)
Lemma erosion_step_unevenFrames :
  let w := played (unevenFrames ++ [AnimationFrame 2000]) in
  let w' := Double.updateKnowledgeAndItems (host := pickupHost) 1000 w in
  KnowledgeState.percent (knowledgeState w) = 50
  /\ KnowledgeState.timeSinceErosionMs (knowledgeState w') = 0
  /\ KnowledgeState.percent (knowledgeState w') == 45.
Proof.
  cbv zeta.
  destruct (erosion_step (host := pickupHost) 1000
              (played (unevenFrames ++ [AnimationFrame 2000]))) as [_ H].
  cbv zeta in H.
  destruct H as (H1 & _ & _ & H4 & _); [vm_compute; discriminate|].
  split; [vm_compute; reflexivity|]. split; [exact H1|].
  rewrite (H4 50%Z); [vm_compute; reflexivity|vm_compute; reflexivity|lia].
Defined.

Lemma updatePlayer_in_bounds_lostWorld :
  Player.y (player (updatePlayer (host := hazardHost) (1 # 4) lostWorld))
  + PLAYER_HEIGHT
  <= FLOOR_Y (host := hazardHost)
  /\ 0 <= Player.x
            (player (updatePlayer (host := hazardHost) (1 # 4) lostWorld))
       <= canvas_width (Host := hazardHost) - PLAYER_WIDTH.
Proof.
  apply (updatePlayer_in_bounds (host := hazardHost) (1 # 4) lostWorld).
  vm_compute. discriminate.
Defined.

Lemma meter_multiple_of_five_studyWorld :
  meterOk studyWorld /\ Math_round (meter studyWorld) == meter studyWorld.
Proof.
  destruct (meter_multiple_of_five (host := pickupHost) studyWorld
              studyWorld_reachable) as (H1 & _ & _ & _ & _ & _ & H7).
  split; [exact H1|]. apply H7, H1.
Defined.

(** ** The further properties on the recorded sessions *)

Lemma hazardWorld_reachable : reachable (host := hazardHost) hazardWorld.
Proof.
  apply reachable_run; [apply reachable_init|]. vm_compute. reflexivity.
Qed.

Lemma firstFrame_reachable : reachable (host := pickupHost) firstFrame.
Proof.
  apply reachable_run; [apply reachable_init|]. vm_compute. reflexivity.
Qed.

Lemma hazardHost_unitSource : unitSource (host := hazardHost).
Proof. intros n. vm_compute. split; [discriminate|reflexivity]. Qed.

Lemma pickupHost_unitSource : unitSource (host := pickupHost).
Proof. intros n. vm_compute. split; [discriminate|reflexivity]. Qed.

Lemma clamp_behaviour_of_the_meter :
  0 <= clamp 105 0 100 <= 100
  /\ clamp 45 0 100 == 45
  /\ clamp 45 100 0 == 0.
Proof.
  destruct (clamp_behaviour 105 0 100) as (H1 & _).
  destruct (clamp_behaviour 45 0 100) as (_ & H2 & _).
  destruct (clamp_behaviour 45 100 0) as (_ & _ & _ & _ & H5).
  split; [|split].
  - apply H1. vm_compute. discriminate.
  - apply H2. vm_compute. split; discriminate.
  - apply H5. vm_compute. reflexivity.
Defined.


Lemma hitBox_within_sprite_firstFrame :
  intersects (playerSprite firstFrame) (Box.mk 386 358 28 32) = true.
Proof.
  apply (hitBox_within_sprite firstFrame). vm_compute. reflexivity.
Defined.

Lemma randomBetween_in_range_item_delay :
  exists k : Z,
    fst (randomBetween (host := pickupHost) (inject_Z 900) (inject_Z 1800)
           (initialWorld (host := pickupHost)))
    == inject_Z k
    /\ (900 <= k <= 1800)%Z
    /\ snd (randomBetween (host := pickupHost) (inject_Z 900) (inject_Z 1800)
              (initialWorld (host := pickupHost)))
       = set_randomCalls
           (S (randomCalls (initialWorld (host := pickupHost))))
           (initialWorld (host := pickupHost)).
Proof.
  apply (randomBetween_in_range (host := pickupHost) 900 1800).
  - vm_compute. split; [discriminate|reflexivity].
  - lia.
Defined.

Lemma spawn_delays_in_range_hazardWorld :
  integerIn 900 1800
    (SpawnState.nextSpawnDelayMs (itemSpawnState hazardWorld))
  /\ integerIn 2400 5600
       (SpawnState.nextSpawnDelayMs (groundMistakeSpawnState hazardWorld)).
Proof.
  exact (spawn_delays_in_range (host := hazardHost) hazardWorld
           hazardHost_unitSource hazardWorld_reachable).
Defined.

Lemma falling_items_well_formed_hazardWorld :
  Forall itemShape (fallingItems hazardWorld)
  /\ Forall
       (fun item => placed (host := hazardHost) (Item.x item) (Item.width item))
       (fallingItems hazardWorld).
Proof.
  destruct (falling_items_well_formed (host := hazardHost) hazardWorld
              hazardWorld_reachable) as [H1 H2].
  split; [exact H1|].
  apply (H2 800%Z hazardHost_unitSource); [reflexivity|lia].
Defined.

Lemma ground_mistakes_well_formed_hazardWorld :
  Forall
    (fun ob =>
       groundMistakeOk (host := hazardHost) ob
       /\ GroundMistake.y ob + GroundMistake.height ob
          == FLOOR_Y (host := hazardHost))
    (groundMistakes hazardWorld)
  /\ Forall
       (fun ob =>
          placed (host := hazardHost)
            (GroundMistake.x ob) (GroundMistake.width ob))
       (groundMistakes hazardWorld).
Proof.
  destruct (ground_mistakes_well_formed (host := hazardHost) hazardWorld
              hazardWorld_reachable) as [H1 H2].
  split; [exact H1|].
  apply (H2 800%Z hazardHost_unitSource); [reflexivity|lia].
Defined.

Lemma patient_slot_well_formed_hazardWorld :
  exists patient,
    PatientState.active (patientState hazardWorld) = Some patient
    /\ Patient.y patient + Patient.height patient
       == FLOOR_Y (host := hazardHost)
    /\ Patient.lifetimeMs patient < PATIENT_VISIBLE_MS
    /\ PatientState.contactDurationMs (patientState hazardWorld)
       < PATIENT_TREAT_DURATION_MS.
Proof.
  pose proof (patient_slot_well_formed (host := hazardHost) hazardWorld
                hazardWorld_reachable) as H.
  assert (PatientState.active (patientState hazardWorld)
          = Some (Patient.mk 679 358 28 32 5500)) as E
    by (vm_compute; reflexivity).
  rewrite E in H. destruct H as (_ & _ & H3 & H4 & H5 & _).
  exists (Patient.mk 679 358 28 32 5500).
  split; [exact E|]. split; [exact H3|]. split; [exact H4|exact H5].
Defined.

Lemma player_well_formed_hazardWorld :
  Player.y (player hazardWorld) + PLAYER_HEIGHT
  <= FLOOR_Y (host := hazardHost)
  /\ 0 <= Player.x (player hazardWorld)
       <= canvas_width (Host := hazardHost) - PLAYER_WIDTH.
Proof.
  destruct (player_well_formed (host := hazardHost) hazardWorld)
    as (H1 & H2 & _).
  - vm_compute. discriminate.
  - exact hazardWorld_reachable.
  - split; [exact H1|exact H2].
Defined.

Lemma counters_are_whole_lostWorld :
  exists m t p : nat,
    mistakes lostWorld == inject_Z (Z.of_nat m) /\ (m <= 5)%nat
    /\ treated lostWorld == inject_Z (Z.of_nat t)
    /\ passed lostWorld == inject_Z (Z.of_nat p).
Proof.
  exact (counters_are_whole (host := hazardHost) lostWorld
           lostWorld_reachable).
Defined.

Lemma final_score_on_show_lostWorld :
  Page.gameOverScreenVisible (page lostWorld) = true
  /\ exists s,
       Page.finalScoreLine (page lostWorld) = Some s
       /\ s == treated lostWorld + 2 * passed lostWorld.
Proof.
  destruct (final_score_on_show (host := hazardHost) lostWorld
              lostWorld_reachable) as [H _].
  apply H. vm_compute. reflexivity.
Defined.

Lemma key_handlers_compose_firstFrame :
  handleKeyUp arrowRight (handleKeyDown arrowRight firstFrame) = firstFrame
  /\ handleKeyDown (KeyboardEvent.mk "a" "KeyA") firstFrame = firstFrame.
Proof.
  destruct (key_handlers_compose arrowRight firstFrame)
    as (_ & _ & _ & _ & H5 & _).
  destruct (key_handlers_compose (KeyboardEvent.mk "a" "KeyA") firstFrame)
    as (_ & _ & _ & _ & _ & _ & H7).
  destruct H7 as [H7 _]; try (vm_compute; reflexivity).
  split; [|exact H7].
  rewrite H5. vm_compute. reflexivity.
Defined.

Lemma first_frame_of_a_session_at_time_zero :
  exists w patient,
    gameLoop (host := pickupHost) 0
      (startGame (host := pickupHost) (initialWorld (host := pickupHost)))
    = Done w
    /\ gameState w = PLAYING
    /\ lastTimestamp w = Some 0
    /\ meter w = 50 /\ mistakes w = 0
    /\ KnowledgeState.timeSinceErosionMs (knowledgeState w) == 0
    /\ fallingItems w = [] /\ groundMistakes w = []
    /\ PatientState.active (patientState w) = Some patient
    /\ Patient.lifetimeMs patient = 0
    /\ Patient.y patient + Patient.height patient
       == FLOOR_Y (host := pickupHost).
Proof.
  exact (first_frame_of_a_session (host := pickupHost)
           (initialWorld (host := pickupHost)) 0 pickupHost_unitSource).
Defined.

Lemma hazardWorld_steady : steady (host := hazardHost) hazardWorld.
Proof.
  apply steady_run; [apply steady_init|]. vm_compute. reflexivity.
Qed.

Lemma hud_shows_the_state_idleWorld :
  Hud.knowledgeLow (updateHud true blankHud idleWorld) = true
  /\ Hud.knowledgeFillWidth (updateHud true blankHud idleWorld) == 0.
Proof.
  pose proof (hud_shows_the_state (host := hazardHost) true blankHud
                idleWorld) as H.
  cbv zeta in H. destruct H as (_ & _ & H3 & _ & H5). split.
  - destruct (H3 eq_refl) as [H _]. rewrite H. vm_compute. reflexivity.
  - destruct (H5 idleWorld_reachable) as [H _]. rewrite H.
    vm_compute. reflexivity.
Defined.

Lemma score_never_drops_treatedAtLast :
  treated (after almostTreatedAgain)
  <= treated
       (world_of
          (dispatch (host := pickupHost) (AnimationFrame 4399)
             (after almostTreatedAgain))).
Proof.
  destruct (score_never_drops (host := pickupHost) (AnimationFrame 4399)
              (after almostTreatedAgain)) as [H _].
  destruct H as [H _]; [right; reflexivity|exact H].
Defined.

Lemma timers_never_overdue_hazardWorld :
  KnowledgeState.timeSinceErosionMs (knowledgeState hazardWorld)
  < KNOWLEDGE_EROSION_INTERVAL_MS
  /\ SpawnState.timeSinceLastSpawnMs (itemSpawnState hazardWorld)
     < SpawnState.nextSpawnDelayMs (itemSpawnState hazardWorld)
  /\ SpawnState.timeSinceLastSpawnMs (groundMistakeSpawnState hazardWorld)
     < SpawnState.nextSpawnDelayMs (groundMistakeSpawnState hazardWorld).
Proof.
  exact (timers_never_overdue (host := hazardHost) hazardWorld
           hazardHost_unitSource hazardWorld_reachable).
Defined.

Lemma one_ground_mistake_at_a_time_hazardWorld :
  (length (groundMistakes hazardWorld) <= 1)%nat
  /\ 0 <= groundTimer hazardWorld
  /\ Forall
       (fun ob => groundTimer hazardWorld <= GroundMistake.lifetimeMs ob)
       (groundMistakes hazardWorld).
Proof.
  exact (one_ground_mistake_at_a_time (host := hazardHost) hazardWorld
           hazardHost_unitSource hazardWorld_steady).
Defined.

Lemma clocks_never_negative_hazardWorld :
  0 <= KnowledgeState.timeSinceErosionMs (knowledgeState hazardWorld)
  /\ 0 <= SpawnState.timeSinceLastSpawnMs (itemSpawnState hazardWorld)
  /\ 0 <= SpawnState.timeSinceLastSpawnMs
            (groundMistakeSpawnState hazardWorld)
  /\ 0 <= PatientState.timeSinceLastPatientGoneMs (patientState hazardWorld)
  /\ 0 <= PatientState.contactDurationMs (patientState hazardWorld)
  /\ match PatientState.active (patientState hazardWorld) with
     | Some patient => 0 <= Patient.lifetimeMs patient
     | None => True
     end.
Proof.
  exact (clocks_never_negative (host := hazardHost) hazardWorld
           hazardWorld_steady).
Defined.



Lemma mistakes_only_forgiven_by_assessment_stumble :
  mistakes (after stumbleSession) = 1
  /\ mistakes (after stumbleSession)
     <= mistakes
          (world_of
             (dispatch (host := pickupHost) (AnimationFrame 6000)
                (after stumbleSession))).
Proof.
  split; [vm_compute; reflexivity|].
  apply (mistakes_only_forgiven_by_assessment (host := pickupHost)).
  - vm_compute. discriminate.
  - reflexivity.
  - vm_compute. discriminate.
Defined.
